(** * web-content-llm: extraction, deduplication and rendering

    A shallow embedding of [src/index.js]: the section extractor
    ([extractSections] and the per-tag extractors), the three renderers
    ([generateHTML], [generateMarkdown], [generatePlainText]) and the
    utilities they use ([escapeHtml], [formatDate], [isValidText]).

    JavaScript strings are sequences of UTF-16 code units, so [length],
    [trim] and [replace] are modelled on [list N].  Object literals used as
    dispatch tables inherit from [Object.prototype]; the lookup
    [table[key]?.(...)] is modelled with that inheritance. *)

From Stdlib Require Import NArith List String Ascii DecimalString Lia.
From stdpp Require Import base list gmap.

Open Scope N_scope.
Open Scope list_scope.

(* ===================================================================== *)
(** ** JavaScript strings *)
(* ===================================================================== *)

(** A string is its sequence of UTF-16 code units. *)
Abbreviation str := (list N).

(** [lit] turns an ASCII literal into its code units. *)
Definition lit (s : string) : str :=
  map N_of_ascii (list_ascii_of_string s).

Definition nl : str := [10].      (* "\n" *)
Definition dq : str := [34].      (* the double quote character *)

(** ECMAScript WhiteSpace and LineTerminator code points: the characters
    removed by [String.prototype.trim] and matched by [\s]. *)
Definition is_white_space (c : N) : bool :=
  (c =? 9) || (c =? 10) || (c =? 11) || (c =? 12) || (c =? 13) ||
  (c =? 32) || (c =? 160) || (c =? 5760) ||
  ((8192 <=? c) && (c <=? 8202)) ||
  (c =? 8232) || (c =? 8233) || (c =? 8239) || (c =? 8287) ||
  (c =? 12288) || (c =? 65279).

Fixpoint trimStart (s : str) : str :=
  match s with
  | [] => []
  | c :: r => if is_white_space c then trimStart r else s
  end.

Definition trimEnd (s : str) : str := rev (trimStart (rev s)).

Definition trim (s : str) : str := trimEnd (trimStart s).

(** [Array.prototype.join] on an array of strings. *)
Fixpoint join (sep : str) (l : list str) : str :=
  match l with
  | [] => []
  | [x] => x
  | x :: r => x ++ sep ++ join sep r
  end.

(** [String.prototype.repeat]. *)
Definition repeat_str (s : str) (n : nat) : str := concat (repeat s n).

(** Decimal rendering of a non-negative integer, as in [`${i + 1}`]. *)
Definition decimal (n : N) : str :=
  lit (NilEmpty.string_of_uint (N.to_uint n)).

Definition is_upper (c : N) : bool := (65 <=? c) && (c <=? 90).

(** The lower case of a code unit: of an ASCII capital, and of the Kelvin
    sign U+212A, whose lower case is the letter [k]. *)
Definition lower_char (c : N) : N :=
  if is_upper c then c + 32
  else if c =? 8490 then 107
  else c.

(** [String.prototype.toLowerCase].  The mapping is the one of JavaScript
    on the ASCII letters and on the Kelvin sign, the only character
    outside ASCII whose lower case is an ASCII letter.  Any other
    character is kept as it is; in JavaScript its lower case is itself or
    holds a code unit outside ASCII, so that the result is equal to an
    ASCII text (a tag name, an extension, a value of [type]) exactly when
    it is in JavaScript. *)
Definition toLowerCase (s : str) : str := map lower_char s.

(** Split on runs of white space, as a class attribute is read. *)
Fixpoint tokens_aux (cur : str) (s : str) : list str :=
  match s with
  | [] => match cur with [] => [] | _ => [rev cur] end
  | c :: r =>
      if is_white_space c
      then match cur with [] => tokens_aux [] r | _ => rev cur :: tokens_aux [] r end
      else tokens_aux (c :: cur) r
  end.

Definition tokens (s : str) : list str := tokens_aux [] s.

(* ===================================================================== *)
(** ** The parsed tree *)
(* ===================================================================== *)

(** A node of the tree the parser returns.  An element carries its tag
    name, its attributes and its children. *)
#[warnings="-register-all"]
Inductive node : Type :=
| Text (data : str)
| Comment (data : str)
| Element (name : str) (attribs : list (str * str)) (children : list node).

(** [$el.text()]: the concatenated data of the text nodes below a node. *)
Fixpoint textContent (n : node) : str :=
  match n with
  | Text data => data
  | Comment _ => []
  | Element _ _ children => flat_map textContent children
  end.

(** An element as a selection holds it: the element node itself together
    with the tag names of its ancestors, nearest first, up to the root. *)
Record located : Type := Located {
  el_name : str;
  el_attribs : list (str * str);
  el_children : list node;
  el_parents : list str
}.

Definition el_text (el : located) : str := flat_map textContent (el_children el).

(** All elements at or below a node, in document order. *)
Fixpoint elements_of (parents : list str) (n : node) : list located :=
  match n with
  | Element name attribs children =>
      Located name attribs children parents
        :: flat_map (elements_of (name :: parents)) children
  | _ => []
  end.

(** [$el.find('*')]: every descendant element, in document order. *)
Definition find_all (el : located) : list located :=
  flat_map (elements_of (el_name el :: el_parents el)) (el_children el).

(** [$el.find('> li')]: the child elements named [li]. *)
Definition child_elements (el : located) : list located :=
  flat_map (fun n => match n with
                     | Element name attribs children =>
                         [Located name attribs children (el_name el :: el_parents el)]
                     | _ => []
                     end) (el_children el).

Definition find_child_li (el : located) : list located :=
  filter (fun c => el_name c = lit "li") (child_elements el).

(** First value of an attribute. *)
Fixpoint attr (name : str) (attribs : list (str * str)) : option str :=
  match attribs with
  | [] => None
  | (k, v) :: r => if decide (k = name) then Some v else attr name r
  end.

(** The selector [main, .main-content, #main, article, [role="main"], body]. *)
Definition matches_main_content (el : located) : bool :=
  bool_decide (el_name el = lit "main")
  || match attr (lit "class") (el_attribs el) with
     | Some c => bool_decide (lit "main-content" ∈ tokens c)
     | None => false
     end
  || bool_decide (attr (lit "id") (el_attribs el) = Some (lit "main"))
  || bool_decide (el_name el = lit "article")
  || bool_decide (attr (lit "role") (el_attribs el) = Some (lit "main"))
  || bool_decide (el_name el = lit "body").

(** The selector [ul, ol, table], on a tag name. *)
Definition is_container (name : str) : bool :=
  bool_decide (name = lit "ul") || bool_decide (name = lit "ol")
  || bool_decide (name = lit "table").

(** [$el.parents('ul, ol, table')]. *)
Definition parents_matching (el : located) : list str :=
  filter (fun name => is_container name = true) (el_parents el).

(** [$(selector)] over a whole document, given by its top-level nodes. *)
Definition select (doc : list node) (sel : located -> bool) : list located :=
  filter (fun el => sel el = true) (flat_map (elements_of []) doc).

(* ===================================================================== *)
(** ** Values, completions and dispatch tables *)
(* ===================================================================== *)

(** The objects the extractors build: [{ type, content }] or
    [{ type, items }].  A property that is not set reads as [undefined]. *)
Record object : Type := Object {
  type : option str;
  content : option str;
  items : option (list str)
}.

Definition empty_object : object := Object None None None.

(** The values that flow through the extractor and the renderers.
    [VDispatch] is a dispatch table itself (an object with none of the
    properties [type], [content], [items]). *)
Inductive value : Type :=
| VUndefined
| VNull
| VBoolean (b : bool)
| VString (s : str)
| VObject (o : object)
| VDispatch.

Inductive error : Type := TypeError.

(** The outcome of evaluating an expression: a value or a thrown error. *)
Inductive completion (A : Type) : Type :=
| Normal (a : A)
| Throw (e : error).
Arguments Normal {A} a.
Arguments Throw {A} e.

Definition bind {A B} (c : completion A) (k : A -> completion B) : completion B :=
  match c with
  | Normal a => k a
  | Throw e => Throw e
  end.

Notation "'let!' x ':=' c 'in' k" := (bind c (fun x => k))
  (at level 10, x name, c at level 100, k at level 200).

(** [array.map(f)] where [f] may throw. *)
Fixpoint mapM {A B} (f : A -> completion B) (l : list A) : completion (list B) :=
  match l with
  | [] => Normal []
  | x :: r => let! y := f x in let! ys := mapM f r in Normal (y :: ys)
  end.

(** [array.forEach] threading the state the callback mutates. *)
Fixpoint foldM {A S} (f : S -> A -> completion S) (l : list A) (s : S) : completion S :=
  match l with
  | [] => Normal s
  | x :: r => let! s' := f s x in foldM f r s'
  end.

(** ToBoolean. *)
Definition truthy (v : value) : bool :=
  match v with
  | VUndefined | VNull => false
  | VBoolean b => b
  | VString s => negb (bool_decide (s = []))
  | VObject _ | VDispatch => true
  end.

(** [a || b]. *)
Definition or_else (a b : value) : value := if truthy a then a else b.

Definition object_Object : str := lit "[object Object]".

(** ToString, as a template literal or [+] applies it. *)
Definition ToString (v : value) : str :=
  match v with
  | VUndefined => lit "undefined"
  | VNull => lit "null"
  | VBoolean true => lit "true"
  | VBoolean false => lit "false"
  | VString s => s
  | VObject _ | VDispatch => object_Object
  end.

(** The string an array element contributes to [join]. *)
Definition join_item (v : value) : str :=
  match v with
  | VUndefined | VNull => []
  | _ => ToString v
  end.

(** [`${x}`] for a property that may be unset. *)
Definition template (x : option str) : str :=
  match x with
  | Some s => s
  | None => lit "undefined"
  end.

(** [v.p] for one of the properties [type], [content], [items]. *)
Definition Get {A} (v : value) (p : object -> option A) : completion (option A) :=
  match v with
  | VUndefined | VNull => Throw TypeError
  | VObject o => Normal (p o)
  | _ => Normal None
  end.

(** The properties every object literal inherits from [Object.prototype]. *)
Inductive inherited : Type :=
| p_constructor
| p_defineGetter | p_defineSetter
| p_hasOwnProperty
| p_lookupGetter | p_lookupSetter
| p_isPrototypeOf
| p_propertyIsEnumerable
| p_toString
| p_valueOf
| p_proto
| p_toLocaleString.

Definition Object_prototype : list (str * inherited) :=
  [ (lit "constructor", p_constructor);
    (lit "__defineGetter__", p_defineGetter);
    (lit "__defineSetter__", p_defineSetter);
    (lit "hasOwnProperty", p_hasOwnProperty);
    (lit "__lookupGetter__", p_lookupGetter);
    (lit "__lookupSetter__", p_lookupSetter);
    (lit "isPrototypeOf", p_isPrototypeOf);
    (lit "propertyIsEnumerable", p_propertyIsEnumerable);
    (lit "toString", p_toString);
    (lit "valueOf", p_valueOf);
    (lit "__proto__", p_proto);
    (lit "toLocaleString", p_toLocaleString) ].

Fixpoint assoc {A} (key : str) (l : list (str * A)) : option A :=
  match l with
  | [] => None
  | (k, a) :: r => if decide (k = key) then Some a else assoc key r
  end.

(** Calling an inherited member as [table[key]?.(arg)], with the table as
    [this].  The extractors are called with no argument ([None]); the
    renderers with the section, a plain object.  Neither ["undefined"] nor
    ["[object Object]"] names an own property of a table, no table is in a
    prototype chain, and no getter is passed to [__defineGetter__]. *)
Definition call_inherited (m : inherited) (arg : option object) : completion value :=
  match m with
  | p_constructor =>                      (* Object(arg) *)
      Normal (VObject (match arg with Some o => o | None => empty_object end))
  | p_toString | p_toLocaleString => Normal (VString object_Object)
  | p_valueOf => Normal VDispatch
  | p_hasOwnProperty | p_isPrototypeOf | p_propertyIsEnumerable => Normal (VBoolean false)
  | p_lookupGetter | p_lookupSetter => Normal VUndefined
  | p_defineGetter | p_defineSetter => Throw TypeError
  | p_proto => Throw TypeError            (* Object.prototype is not callable *)
  end.

(** [table[key]?.(arg)]: own properties first, then [Object.prototype];
    an absent property short-circuits to [undefined]. *)
Definition optional_call {F} (table : list (str * F)) (apply : F -> completion value)
    (key : str) (arg : option object) : completion value :=
  match assoc key table with
  | Some f => apply f
  | None =>
      match assoc key Object_prototype with
      | Some m => call_inherited m arg
      | None => Normal VUndefined
      end
  end.

(** ToPropertyKey of a property that may be unset. *)
Definition property_key (k : option str) : str := template k.

(* ===================================================================== *)
(** ** Content extraction *)
(* ===================================================================== *)

(** The default of [isValidText]'s parameter [minLength]. *)
Definition minLength_default : nat := 3.

(** [text && text.trim().length >= minLength]. *)
Definition isValidText (text : str) (minLength : nat) : value :=
  if truthy (VString text)
  then VBoolean (minLength <=? length (trim text))%nat
  else VString text.

Definition extractHeading (el : located) (tagName : str) : value :=
  let content := trim (el_text el) in
  if truthy (VString content)
  then VObject {| type := Some tagName; content := Some content; items := None |}
  else VNull.

Definition extractParagraph (el : located) : value :=
  let content := trim (el_text el) in
  if truthy (isValidText content minLength_default)
  then VObject {| type := Some (lit "paragraph"); content := Some content; items := None |}
  else VNull.

Definition extractList (el : located) (type : str) : value :=
  let items :=
    filter (fun item => truthy (VString item) = true)
           (map (fun li => trim (el_text li)) (find_child_li el)) in
  if bool_decide (0 < length items)%nat
  then VObject {| type := Some type; content := None; items := Some items |}
  else VNull.

Definition extractQuote (el : located) : value :=
  let content := trim (el_text el) in
  if truthy (VString content)
  then VObject {| type := Some (lit "quote"); content := Some content; items := None |}
  else VNull.

Definition extractSectionByType (el : located) (tagName : str) : completion value :=
  let extractors : list (str * (unit -> value)) :=
    [ (lit "h1", fun _ => extractHeading el (lit "h1"));
      (lit "h2", fun _ => extractHeading el (lit "h2"));
      (lit "h3", fun _ => extractHeading el (lit "h3"));
      (lit "h4", fun _ => extractHeading el (lit "h4"));
      (lit "h5", fun _ => extractHeading el (lit "h5"));
      (lit "h6", fun _ => extractHeading el (lit "h6"));
      (lit "p", fun _ => extractParagraph el);
      (lit "ul", fun _ => extractList el (lit "bullet-list"));
      (lit "ol", fun _ => extractList el (lit "numbered-list"));
      (lit "blockquote", fun _ => extractQuote el) ] in
  let! r := optional_call extractors (fun f => Normal (f tt)) tagName None in
  Normal (or_else r VNull).

(** [section.type + ':' + (section.content || section.items?.join(',') || '')]. *)
Definition section_key (section : value) : completion str :=
  let! ty := Get section type in
  let! c := Get section content in
  let! its := Get section items in
  let joined := match its with Some l => VString (join (lit ",") l) | None => VUndefined end in
  let c' := match c with Some x => VString x | None => VUndefined end in
  Normal (template ty ++ lit ":" ++ ToString (or_else (or_else c' joined) (VString []))).

(** What the traversal mutates: the array [sections] (here [pushed]) and
    the set [seen]. *)
Record state : Type := State {
  pushed : list value;
  seen : gset str
}.

Definition initial : state := {| pushed := []; seen := ∅ |}.

(** The callback of [mainContent.find('*').each]. *)
Definition visit (st : state) (el : located) : completion state :=
  let tagName := toLowerCase (el_name el) in
  if bool_decide (0 < length (parents_matching el))%nat then Normal st
  else
    let! section := extractSectionByType el tagName in
    if truthy section then
      let! key := section_key section in
      if bool_decide (key ∈ seen st) then Normal st
      else Normal {| pushed := pushed st ++ [section];
                     seen := {[ key ]} ∪ seen st |}
    else Normal st.

Definition extractSections (doc : list node) : completion (list value) :=
  match select doc matches_main_content with
  | [] => Normal []
  | mainContent :: _ =>
      let! st := foldM visit (find_all mainContent) initial in
      Normal (pushed st)
  end.

(* ===================================================================== *)
(** ** The content record and the utilities of the renderers *)
(* ===================================================================== *)

Record metadata_t : Type := Metadata {
  description : str;
  url : str;
  scrapedAt : str
}.

(** What [scrapeContent] returns and every generator takes. *)
Record content_t : Type := Content {
  title : str;
  metadata : metadata_t;
  sections : list object
}.

Record options_t : Type := Options {
  footerText : option str
}.

(** [map[m]]: the replacement of each of the five characters
    ampersand, less-than, greater-than, double quote and apostrophe. *)
Definition escape_char (c : N) : str :=
  if c =? 38 then lit "&amp;"
  else if c =? 60 then lit "&lt;"
  else if c =? 62 then lit "&gt;"
  else if c =? 34 then lit "&quot;"
  else if c =? 39 then lit "&#039;"
  else [c].

(** [text.replace(re, (m) => map[m])] with the global pattern [re] that
    matches exactly those five characters. *)
Definition replace_special (text : str) : str := flat_map escape_char text.

(** [escapeHtml(text)]; [text.replace] throws when [text] is undefined. *)
Definition escapeHtml (text : option str) : completion str :=
  match text with
  | Some t => Normal (replace_special t)
  | None => Throw TypeError
  end.

(** The calendar fields of a [Date] in the local time zone, which is all
    that [toLocaleDateString] with year, month and day reads. *)
Inductive month : Type :=
| January | February | March | April | May | June
| July | August | September | October | November | December.

Record Date : Type := MkDate {
  getFullYear : N;
  getMonth : month;
  getDate : N
}.

(** The [month: 'long'] names of the locale [de-DE]. *)
Definition month_long (m : month) : str :=
  match m with
  | January => lit "Januar"
  | February => lit "Februar"
  | March => lit "M" ++ [228] ++ lit "rz"
  | April => lit "April"
  | May => lit "Mai"
  | June => lit "Juni"
  | July => lit "Juli"
  | August => lit "August"
  | September => lit "September"
  | October => lit "Oktober"
  | November => lit "November"
  | December => lit "Dezember"
  end.

(** [date.toLocaleDateString('de-DE', { year: 'numeric', month: 'long',
    day: 'numeric' })], for example [15. Januar 2025].  Every caller
    writes [formatDate()], so that [date] is the default [new Date()]: the
    reading of the clock at the call.  The renderers below take that
    reading as their parameter [now]. *)
Definition formatDate (date : Date) : str :=
  decimal (getDate date) ++ lit ". " ++ month_long (getMonth date)
    ++ lit " " ++ decimal (getFullYear date).

(** [x.map(...)] and [x.length] throw when [x] is undefined. *)
Definition array_of (x : option (list str)) : completion (list str) :=
  match x with Some l => Normal l | None => Throw TypeError end.

Definition length_of (x : option str) : completion nat :=
  match x with Some s => Normal (length s) | None => Throw TypeError end.

(** [table[section.type]?.(section) || '']. *)
Definition render_with (renderers : list (str * (object -> completion str)))
    (section : object) : completion value :=
  let! r := optional_call renderers
              (fun f => let! s := f section in Normal (VString s))
              (property_key (type section)) (Some section) in
  Normal (or_else r (VString [])).

(* ===================================================================== *)
(** ** HTML generation *)
(* ===================================================================== *)

(** [`<tag>${escapeHtml(s.content)}</tag>`]. *)
Definition html_element (open close : str) (s : object) : completion str :=
  let! e := escapeHtml (content s) in
  Normal (open ++ e ++ close).

(** [`<tag>${s.items.map(item => `<li>${escapeHtml(item)}</li>`).join('')}</tag>`]. *)
Definition html_list (open close : str) (s : object) : completion str :=
  let! its := array_of (items s) in
  let! lis := mapM (fun item => let! e := escapeHtml (Some item) in
                                Normal (lit "<li>" ++ e ++ lit "</li>")) its in
  Normal (open ++ join [] lis ++ close).

Definition renderSection (section : object) : completion value :=
  let renderers : list (str * (object -> completion str)) :=
    [ (lit "h1", html_element (lit "<h1>") (lit "</h1>"));
      (lit "h2", html_element (lit "<h2>") (lit "</h2>"));
      (lit "h3", html_element (lit "<h3>") (lit "</h3>"));
      (lit "h4", html_element (lit "<h4>") (lit "</h4>"));
      (lit "paragraph", html_element (lit "<p>") (lit "</p>"));
      (lit "bullet-list", html_list (lit "<ul>") (lit "</ul>"));
      (lit "numbered-list", html_list (lit "<ol>") (lit "</ol>"));
      (lit "quote", html_element (lit "<blockquote>") (lit "</blockquote>")) ] in
  render_with renderers section.

(** [sections.map(renderSection).join('\n')]. *)
Definition renderSections (sections : list object) : completion str :=
  let! rendered := mapM renderSection sections in
  Normal (join nl (map join_item rendered)).

Definition renderHeader (now : Date) (doc : content_t) : completion str :=
  let! t := escapeHtml (Some (title doc)) in
  let! u := escapeHtml (Some (url (metadata doc))) in
  Normal (lit "
  <div class=" ++ dq ++ lit "header" ++ dq ++ lit ">
    <h1>" ++ t ++ lit "</h1>
    <div class=" ++ dq ++ lit "metadata" ++ dq ++ lit ">
      <p>Quelle: " ++ u ++ lit "</p>
      <p>Generiert am: " ++ formatDate now ++ lit "</p>
    </div>
  </div>
").

(** [renderFooter = (footerText = '') => ...]. *)
Definition renderFooter (footerText : option str) : completion str :=
  let footerText := match footerText with Some f => f | None => [] end in
  let! f := escapeHtml (Some footerText) in
  Normal (lit "
  <div class=" ++ dq ++ lit "footer" ++ dq ++ lit ">
    <p>" ++ f ++ lit "</p>
  </div>
").

Definition getStyles : str :=
  lit "
  @page {
    margin: 2cm;
  }
  body {
    font-family: 'Helvetica Neue', Arial, sans-serif;
    line-height: 1.6;
    color: #333;
    font-size: 11pt;
  }
  h1 {
    font-size: 24pt;
    color: #1a1a1a;
    margin-top: 0;
    margin-bottom: 20px;
    page-break-after: avoid;
  }
  h2 {
    font-size: 18pt;
    color: #2a2a2a;
    margin-top: 24px;
    margin-bottom: 12px;
    page-break-after: avoid;
  }
  h3 {
    font-size: 14pt;
    color: #3a3a3a;
    margin-top: 18px;
    margin-bottom: 10px;
    page-break-after: avoid;
  }
  p {
    margin-bottom: 12px;
    text-align: justify;
    orphans: 3;
    widows: 3;
  }
  ul, ol {
    margin-bottom: 12px;
    padding-left: 25px;
  }
  li {
    margin-bottom: 6px;
  }
  blockquote {
    margin: 15px 0;
    padding: 10px 20px;
    border-left: 4px solid #ddd;
    background: #f9f9f9;
    font-style: italic;
  }
  .header {
    text-align: center;
    margin-bottom: 30px;
    padding-bottom: 20px;
    border-bottom: 2px solid #333;
  }
  .metadata {
    font-size: 9pt;
    color: #666;
    margin-top: 10px;
  }
  .footer {
    margin-top: 40px;
    padding-top: 15px;
    border-top: 1px solid #ccc;
    font-size: 9pt;
    color: #666;
    text-align: center;
  }
".

Definition generateHTML (now : Date) (doc : content_t) (options : options_t)
    : completion str :=
  let! t := escapeHtml (Some (title doc)) in
  let! header := renderHeader now doc in
  let! body := renderSections (sections doc) in
  let! footer := renderFooter (footerText options) in
  Normal (lit "
  <!DOCTYPE html>
  <html lang=" ++ dq ++ lit "de" ++ dq ++ lit ">
  <head>
    <meta charset=" ++ dq ++ lit "UTF-8" ++ dq ++ lit ">
    <title>" ++ t ++ lit "</title>
    <style>" ++ getStyles ++ lit "</style>
  </head>
  <body>
    " ++ header ++ lit "
    " ++ body ++ lit "
    " ++ footer ++ lit "
  </body>
  </html>
").

(* ===================================================================== *)
(** ** Markdown generation *)
(* ===================================================================== *)

(** [`${prefix}${s.content}\n`]. *)
Definition md_line (prefix : str) (s : object) : completion str :=
  Normal (prefix ++ template (content s) ++ nl).

(** [`${i + 1}. ${item}`]. *)
Definition numbered (i : nat) (item : str) : str :=
  decimal (N.of_nat (i + 1)) ++ lit ". " ++ item.

Definition renderSectionAsMarkdown (section : object) : completion value :=
  let renderers : list (str * (object -> completion str)) :=
    [ (lit "h1", md_line (lit "# "));
      (lit "h2", md_line (lit "## "));
      (lit "h3", md_line (lit "### "));
      (lit "h4", md_line (lit "#### "));
      (lit "h5", md_line (lit "##### "));
      (lit "h6", md_line (lit "###### "));
      (lit "paragraph", md_line []);
      (lit "bullet-list", fun s =>
         let! its := array_of (items s) in
         Normal (join nl (map (fun item => lit "- " ++ item) its) ++ nl));
      (lit "numbered-list", fun s =>
         let! its := array_of (items s) in
         Normal (join nl (imap numbered its) ++ nl));
      (lit "quote", md_line (lit "> ")) ] in
  render_with renderers section.

(** [if (options.footerText)]. *)
Definition footer_given (options : options_t) : bool :=
  match footerText options with
  | Some f => truthy (VString f)
  | None => false
  end.

Definition generateMarkdown (now : Date) (doc : content_t) (options : options_t)
    : completion str :=
  let markdown := lit "# " ++ title doc ++ nl ++ nl in
  let markdown := markdown ++ lit "**Source:** " ++ url (metadata doc) ++ nl in
  let markdown := markdown ++ lit "**Generated:** " ++ formatDate now ++ nl ++ nl in
  let! rendered := mapM renderSectionAsMarkdown (sections doc) in
  let markdown := markdown ++ join nl (map join_item rendered) in
  let markdown :=
    if footer_given options
    then markdown ++ nl ++ lit "---" ++ nl ++ nl ++ template (footerText options) ++ nl
    else markdown in
  Normal markdown.

(* ===================================================================== *)
(** ** Plain text generation *)
(* ===================================================================== *)

Definition bullet : str := [8226].       (* U+2022 *)
Definition box_light_horizontal : str := [9472].   (* U+2500 *)

(** [`${s.content}\n${c.repeat(s.content.length)}\n`]. *)
Definition underlined (c : str) (s : object) : completion str :=
  let! n := length_of (content s) in
  Normal (template (content s) ++ nl ++ repeat_str c n ++ nl).

Definition renderSectionAsPlainText (section : object) : completion value :=
  let renderers : list (str * (object -> completion str)) :=
    [ (lit "h1", underlined (lit "="));
      (lit "h2", underlined (lit "-"));
      (lit "h3", md_line []);
      (lit "h4", md_line []);
      (lit "h5", md_line []);
      (lit "h6", md_line []);
      (lit "paragraph", md_line []);
      (lit "bullet-list", fun s =>
         let! its := array_of (items s) in
         Normal (join nl (map (fun item => bullet ++ lit " " ++ item) its) ++ nl));
      (lit "numbered-list", fun s =>
         let! its := array_of (items s) in
         Normal (join nl (imap numbered its) ++ nl));
      (lit "quote", fun s =>
         Normal (lit "  " ++ dq ++ template (content s) ++ dq ++ nl)) ] in
  render_with renderers section.

Definition generatePlainText (now : Date) (doc : content_t) (options : options_t)
    : completion str :=
  let text := title doc ++ nl ++ repeat_str (lit "=") (length (title doc)) ++ nl ++ nl in
  let text := text ++ lit "Source: " ++ url (metadata doc) ++ nl in
  let text := text ++ lit "Generated: " ++ formatDate now ++ nl ++ nl in
  let! rendered := mapM renderSectionAsPlainText (sections doc) in
  let text := text ++ join nl (map join_item rendered) in
  let text :=
    if footer_given options
    then text ++ nl ++ repeat_str box_light_horizontal 50 ++ nl ++ nl
              ++ template (footerText options) ++ nl
    else text in
  Normal text.

(* ===================================================================== *)
(** ** Notions used to state the properties *)
(* ===================================================================== *)

(** The HTML tokenizer starts a tag name at an ASCII letter; a tree that
    comes from the parser has only such element names. *)
Definition is_ascii_alpha (c : N) : bool :=
  ((65 <=? c) && (c <=? 90)) || ((97 <=? c) && (c <=? 122)).

Definition html_tag_name (name : str) : bool :=
  match name with
  | c :: _ => is_ascii_alpha c
  | [] => false
  end.

Definition parsed (doc : list node) : Prop :=
  Forall (fun el => html_tag_name (el_name el) = true) (flat_map (elements_of []) doc).

(** A tag name as the traversal sees it: it starts at a letter and has no
    upper-case ASCII letter. *)
Definition lowered (key : str) : bool :=
  html_tag_name key && forallb (fun c => negb (is_upper c)) key.

(** The element [extractSections] works in: the first match of the
    main-content selector. *)
Definition mainContent (doc : list node) : option located :=
  head (select doc matches_main_content).

(** What one visited element offers to the deduplication step: the
    section classified from it, unless the element is skipped or yields
    nothing. *)
Definition offered (el : located) : completion (option value) :=
  if bool_decide (0 < length (parents_matching el))%nat then Normal None
  else
    let! section := extractSectionByType el (toLowerCase (el_name el)) in
    Normal (if truthy section then Some section else None).

(** The classified sections of a document, in document order, before
    deduplication. *)
Definition classified (doc : list node) : completion (list value) :=
  match mainContent doc with
  | None => Normal []
  | Some mc =>
      let! os := mapM offered (find_all mc) in
      Normal (omap id os)
  end.

(** The identity key of a section that was pushed. *)
Definition key_of (section : value) : str :=
  match section_key section with
  | Normal k => k
  | Throw _ => []
  end.

(** The section types of the six heading levels. *)
Definition heading_types : list str :=
  [lit "h1"; lit "h2"; lit "h3"; lit "h4"; lit "h5"; lit "h6"].

(** What [extractSectionByType] can return for a lower-cased tag name. *)
Inductive classifies (el : located) : str -> value -> Prop :=
| classifies_heading t :
    t ∈ heading_types -> classifies el t (extractHeading el t)
| classifies_paragraph : classifies el (lit "p") (extractParagraph el)
| classifies_ul : classifies el (lit "ul") (extractList el (lit "bullet-list"))
| classifies_ol : classifies el (lit "ol") (extractList el (lit "numbered-list"))
| classifies_quote : classifies el (lit "blockquote") (extractQuote el)
| classifies_constructor : classifies el (lit "constructor") (VObject empty_object)
| classifies_nothing key : classifies el key VNull.

(** The deduplication step on a classified section. *)
Definition push_new (st : state) (section : value) : state :=
  if bool_decide (key_of section ∈ seen st) then st
  else {| pushed := pushed st ++ [section];
          seen := {[ key_of section ]} ∪ seen st |}.

(** The sections of [cands] whose key is neither in [keys] nor carried by
    an earlier section of [cands]. *)
Fixpoint keep_new (keys : gset str) (cands : list value) : list value :=
  match cands with
  | [] => []
  | s :: r =>
      if decide (key_of s ∈ keys) then keep_new keys r
      else s :: keep_new ({[ key_of s ]} ∪ keys) r
  end.

(** [s] stands at position [i] of [cands], and its key occurs neither in
    [keys] nor at an earlier position of [cands]. *)
Definition first_at (keys : gset str) (cands : list value) (i : nat) (s : value) : Prop :=
  (cands !! i = Some s) ∧ (key_of s ∉ keys)
  ∧ ∀ j s', (j < i)%nat -> cands !! j = Some s' -> key_of s' ≠ key_of s.

(** An element the traversal skips: it has a [ul], [ol] or [table]
    ancestor. *)
Definition skipped (el : located) : Prop := parents_matching el ≠ [].

(** The element a classified section comes from. *)
Definition origin (el : located) (s : value) : Prop :=
  ¬ skipped el ∧ truthy s = true
  ∧ extractSectionByType el (toLowerCase (el_name el)) = Normal s.

(** A string that does not begin with white space. *)
Definition clean_head (s : str) : Prop :=
  match s with
  | c :: _ => is_white_space c = false
  | [] => True
  end.

(** [starts_with p s]: [p] is a prefix of [s]; [contains p s]: [p] occurs
    in [s]. *)
Fixpoint starts_with (p s : str) : bool :=
  match p, s with
  | [], _ => true
  | a :: p', b :: s' => (a =? b) && starts_with p' s'
  | _ :: _, [] => false
  end.

Fixpoint contains (p s : str) : bool :=
  match s with
  | [] => starts_with p []
  | _ :: r => starts_with p s || contains p r
  end.




(** Standard unescaping of the five entities [escapeHtml] produces.
    [entity_at s] recognises an entity at the head of [s] and gives the
    character it stands for and how many code units follow the
    ampersand. *)
Definition entity_at (s : str) : option (N * nat) :=
  if starts_with (lit "&amp;") s then Some (38, 4%nat)
  else if starts_with (lit "&lt;") s then Some (60, 3%nat)
  else if starts_with (lit "&gt;") s then Some (62, 3%nat)
  else if starts_with (lit "&quot;") s then Some (34, 5%nat)
  else if starts_with (lit "&#039;") s then Some (39, 5%nat)
  else None.

Fixpoint unescape_from (skip : nat) (s : str) : str :=
  match s with
  | [] => []
  | c :: r =>
      match skip with
      | S k => unescape_from k r
      | O =>
          match entity_at s with
          | Some (ch, n) => ch :: unescape_from n r
          | None => c :: unescape_from O r
          end
      end
  end.

Definition unescapeHtml (s : str) : str := unescape_from O s.

(** The data-model invariant of a section: the text of a heading or a
    quote is trimmed and not empty, a paragraph has at least the minimum
    length, a list has at least one item and every item is trimmed and
    not empty. *)
Definition trimmed_nonempty (s : str) : Prop := s ≠ [] ∧ trim s = s.

Inductive Section_ok : object -> Prop :=
| Heading_ok t c :
    t ∈ heading_types -> trimmed_nonempty c ->
    Section_ok {| type := Some t; content := Some c; items := None |}
| Paragraph_ok c :
    trim c = c -> (minLength_default <= length c)%nat ->
    Section_ok {| type := Some (lit "paragraph"); content := Some c; items := None |}
| List_ok t l :
    t = lit "bullet-list" ∨ t = lit "numbered-list" ->
    l ≠ [] -> Forall trimmed_nonempty l ->
    Section_ok {| type := Some t; content := None; items := Some l |}
| Quote_ok c :
    trimmed_nonempty c ->
    Section_ok {| type := Some (lit "quote"); content := Some c; items := None |}.

(** A section carrying the properties its renderer reads. *)
Definition well_formed (o : object) : Prop :=
  (∃ t c, o = {| type := Some t; content := Some c; items := None |}
          ∧ t ∈ heading_types ++ [lit "paragraph"; lit "quote"])
  ∨ (∃ t l, o = {| type := Some t; content := None; items := Some l |}
          ∧ t ∈ [lit "bullet-list"; lit "numbered-list"]).

(** The section types each table of renderers has an entry for. *)
Definition html_types : list str :=
  [lit "h1"; lit "h2"; lit "h3"; lit "h4"; lit "paragraph";
   lit "bullet-list"; lit "numbered-list"; lit "quote"].

Definition text_types : list str :=
  heading_types ++ [lit "paragraph"; lit "bullet-list"; lit "numbered-list"; lit "quote"].

(** The names every object literal inherits. *)
Definition inherited_names : list str := map fst Object_prototype.

(** The opening tag of the footer element. *)
Definition footer_element : str := lit "<div class=" ++ dq ++ lit "footer" ++ dq ++ lit ">".

(** A document that differs only in the captured timestamp. *)
Definition with_scrapedAt (ts : str) (doc : content_t) : content_t :=
  {| title := title doc;
     metadata := {| description := description (metadata doc);
                    url := url (metadata doc);
                    scrapedAt := ts |};
     sections := sections doc |}.

(* ===================================================================== *)
(** ** Sample documents *)
(* ===================================================================== *)

Definition elem (name : string) (children : list node) : node :=
  Element (lit name) [] children.

Definition txt (s : string) : node := Text (lit s).

(** The tree the parser builds around a body. *)
Definition page (body : list node) : list node :=
  [elem "html" [elem "head" []; elem "body" body]].

Definition heading (level : string) (text : string) : object :=
  {| type := Some (lit level); content := Some (lit text); items := None |}.

Definition paragraph (text : string) : object :=
  {| type := Some (lit "paragraph"); content := Some (lit text); items := None |}.

Definition bullet_list (l : list string) : object :=
  {| type := Some (lit "bullet-list"); content := None; items := Some (map lit l) |}.

(** [<main><h1>T</h1><h2>S</h2><h2>S</h2><p>Hi there</p></main>] *)
Definition scenario_A : list node :=
  page [elem "main" [elem "h1" [txt "T"]; elem "h2" [txt "S"];
                     elem "h2" [txt "S"]; elem "p" [txt "Hi there"]]].

(** [<main><p>ab</p><p>Long enough text</p></main>] *)
Definition scenario_B : list node :=
  page [elem "main" [elem "p" [txt "ab"]; elem "p" [txt "Long enough text"]]].

(** [<main><ul><li>a,b</li></ul><ul><li>a</li><li>b</li></ul></main>] *)
Definition two_lists : list node :=
  page [elem "main" [elem "ul" [elem "li" [txt "a,b"]];
                     elem "ul" [elem "li" [txt "a"]; elem "li" [txt "b"]]]].

(** [<main><ul><li>X</li><li>Y</li></ul></main>] *)
Definition scenario_C : list node :=
  page [elem "main" [elem "ul" [elem "li" [txt "X"]; elem "li" [txt "Y"]]]].

(** [<main><blockquote>Stay hungry</blockquote></main>] *)
Definition scenario_E : list node :=
  page [elem "main" [elem "blockquote" [txt "Stay hungry"]]].

(** [<main><constructor></constructor></main>] *)
Definition constructor_page : list node :=
  page [elem "main" [elem "constructor" []]].

(** [<main><table><tr><td><p>cell text</p></td></tr></table><p>outside</p></main>],
    as the parser builds it: the row is put into a [tbody]. *)
Definition table_page : list node :=
  page [elem "main" [elem "table" [elem "tbody"
                       [elem "tr" [elem "td" [elem "p" [txt "cell text"]]]]];
                     elem "p" [txt "outside"]]].

(** The table of [<table><tr><td>cell text</td></tr></table>]. *)
Definition cell_table : node :=
  elem "table" [elem "tbody" [elem "tr" [elem "td" [txt "cell text"]]]].

(** [<main><blockquote><table>...cell text...</table></blockquote></main>] *)
Definition quoted_table : list node :=
  page [elem "main" [elem "blockquote" [cell_table]]].

(** [<main><h2>Prices: <table>...cell text...</table></h2></main>] *)
Definition heading_over_table : list node :=
  page [elem "main" [elem "h2" [txt "Prices: "; cell_table]]].

(** A content record as the tests build it. *)
Definition sample_content (sections : list object) : content_t :=
  {| title := lit "Test Article";
     metadata := {| description := lit "Test description";
                    url := lit "https://example.com/article";
                    scrapedAt := lit "2025-01-15T12:00:00.000Z" |};
     sections := sections |}.

Definition day_15 : Date := {| getFullYear := 2025; getMonth := January; getDate := 15 |}.
Definition day_16 : Date := {| getFullYear := 2025; getMonth := January; getDate := 16 |}.

(* ===================================================================== *)
(** ** Removing boilerplate *)
(* ===================================================================== *)

(** A compound selector without combinators, as a test on the name and
    the attributes of one element. *)
Definition selector : Type := str -> list (str * str) -> bool.

(** [name]: a type selector.  The parser gives lower-case names. *)
Definition by_name (t : string) : selector :=
  fun name _ => bool_decide (name = lit t).

(** [.c]: the class attribute has the token [c]. *)
Definition by_class (c : string) : selector :=
  fun _ attribs =>
    match attr (lit "class") attribs with
    | Some v => bool_decide (lit c ∈ tokens v)
    | None => false
    end.

(** [[a="v"]] for an attribute whose value is compared as it is. *)
Definition by_attribute (a v : string) : selector :=
  fun _ attribs => bool_decide (attr (lit a) attribs = Some (lit v)).

(** [name[type="v"]]: the selector engine compares the value of [type]
    without regard to ASCII case, as HTML prescribes for this attribute. *)
Definition by_name_and_type (t v : string) : selector :=
  fun name attribs =>
    bool_decide (name = lit t)
    && match attr (lit "type") attribs with
       | Some x => bool_decide (toLowerCase x = lit v)
       | None => false
       end.

(** [s1, s2, ...]: a selector list. *)
Definition any_of (l : list selector) : selector :=
  fun name attribs => existsb (fun s => s name attribs) l.

(** [$(selector).remove()]: every matching element leaves the tree, with
    all it contains. *)
Fixpoint remove_node (sel : selector) (n : node) : list node :=
  match n with
  | Element name attribs children =>
      if sel name attribs then []
      else [Element name attribs (flat_map (remove_node sel) children)]
  | _ => [n]
  end.

Definition remove_elements (sel : selector) (doc : list node) : list node :=
  flat_map (remove_node sel) doc.

(** The eight selector lists of [removeUnwantedElements], in its order. *)
Definition unwanted_selectors : list selector :=
  [ any_of [by_name "script"; by_name "style"; by_name "noscript";
            by_name "iframe"; by_name "svg"];
    any_of [by_name "header"; by_name "footer"; by_name "nav";
            by_class "cookie-banner"; by_class "announcement-bar"];
    any_of [by_name "nav"; by_name "menu"; by_class "navigation";
            by_class "menu"; by_class "nav"];
    any_of [by_name "button"; by_class "button"; by_attribute "role" "button"];
    by_name "form";
    any_of [by_name_and_type "input" "checkbox"; by_name_and_type "input" "radio";
            by_name_and_type "input" "hidden"];
    any_of [by_name "select"; by_name "textarea"];
    any_of [by_class "header"; by_class "footer"; by_class "sidebar"] ].

(** The tree is changed in place, one [remove] after the other, and
    returned. *)
Definition removeUnwantedElements (doc : list node) : list node :=
  fold_left (fun tree sel => remove_elements sel tree) unwanted_selectors doc.

(** An element one of the removals takes out. *)
Definition unwanted : selector := any_of unwanted_selectors.

(* ===================================================================== *)
(** ** Title, metadata and the scraped record *)
(* ===================================================================== *)

Definition named (t : string) (el : located) : bool :=
  bool_decide (el_name el = lit t).

(** [$(selector).first().text()]; the text of an empty selection is
    empty. *)
Definition first_text (selection : list located) : str :=
  match selection with
  | el :: _ => el_text el
  | [] => []
  end.

(** [$(selector).text()]: the texts of all selected elements, joined. *)
Definition all_text (selection : list located) : str :=
  flat_map el_text selection.

(** [$('h1').first().text().trim() || $('title').text().trim() || '']. *)
Definition extractTitle (doc : list node) : str :=
  ToString
    (or_else
       (or_else (VString (trim (first_text (select doc (named "h1")))))
                (VString (trim (all_text (select doc (named "title"))))))
       (VString [])).

(** [$(selector).attr(name)]: the attribute of the first selected
    element. *)
Definition first_attr (name : str) (selection : list located) : option str :=
  match selection with
  | el :: _ => attr name (el_attribs el)
  | [] => None
  end.

(** The selector [meta[name="description"]]. *)
Definition is_description_meta (el : located) : bool :=
  bool_decide (el_name el = lit "meta")
  && bool_decide (attr (lit "name") (el_attribs el) = Some (lit "description")).

(** [extractMetadata]; [timestamp] is [new Date().toISOString()], the
    reading of the clock at the call. *)
Definition extractMetadata (timestamp : str) (doc : list node) (url : str) : metadata_t :=
  {| description :=
       ToString
         (or_else
            (match first_attr (lit "content") (select doc is_description_meta) with
             | Some c => VString c
             | None => VUndefined
             end)
            (VString []));
     url := url;
     scrapedAt := timestamp |}.

(** What [scrapeContent] returns; the sections are the values
    [extractSections] pushed. *)
Record scraped_t : Type := Scraped {
  scraped_title : str;
  scraped_metadata : metadata_t;
  scraped_sections : list value
}.

(** [scrapeContent] from the parsed tree on: [tree] is
    [parseHTML(await fetchHTML(url))]. *)
Definition scrapeContent (timestamp : str) (tree : list node) (url : str)
    : completion scraped_t :=
  let cleaned := removeUnwantedElements tree in
  let title := extractTitle cleaned in
  let metadata := extractMetadata timestamp cleaned url in
  let! sections := extractSections cleaned in
  Normal {| scraped_title := title;
            scraped_metadata := metadata;
            scraped_sections := sections |}.

(* ===================================================================== *)
(** ** Choosing the output format *)
(* ===================================================================== *)

(** What [formatMap[ext] || 'markdown'] can be: a format name, or a member
    the object literal inherits (a function, or [Object.prototype] for
    [__proto__]; all of them truthy). *)
Inductive format_value : Type :=
| FormatName (name : str)
| InheritedMember (m : inherited).

Definition formatMap : list (str * str) :=
  [ (lit ".md", lit "markdown");
    (lit ".markdown", lit "markdown");
    (lit ".txt", lit "text");
    (lit ".pdf", lit "pdf") ].

(** [formatMap[ext] || 'markdown']. *)
Definition formatMap_get (ext : str) : format_value :=
  match assoc ext formatMap with
  | Some name => FormatName name     (* every entry is a non-empty string *)
  | None =>
      match assoc ext Object_prototype with
      | Some m => InheritedMember m
      | None => FormatName (lit "markdown")
      end
  end.

(** The paper size and margins handed to [page.pdf]. *)
Record margin_t : Type := Margin {
  top : str; right : str; bottom : str; left : str
}.

Definition default_margin : margin_t :=
  {| top := lit "20mm"; right := lit "20mm"; bottom := lit "20mm"; left := lit "20mm" |}.

(** The options object of [exportContent] and [generatePDF]. *)
Record export_options_t : Type := ExportOptions {
  opt_format : option str;
  opt_margin : option margin_t;
  opt_footerText : option str
}.

(** What the composition functions do to the outside, one constructor for
    each awaited call and one for the line on the console: [writeFile] of
    [fs/promises]; [puppeteer.launch], [browser.newPage],
    [page.setContent], [page.pdf] and [browser.close].  [page_pdf] carries
    the content of the page that is printed beside the arguments of
    [page.pdf]. *)
Inductive effect : Type :=
| writeFile (outputPath : str) (text : str)
| puppeteer_launch
| browser_newPage
| page_setContent (html : str)
| page_pdf (html : str) (path : str) (format : str) (margin : margin_t)
| browser_close
| console_log (message : str).

(** The outside world: whether an awaited call rejects, and with which
    reason.  A run makes each call at most once. *)
Definition world : Type := effect -> option str.

(** How a composition function ends: its effects; the error
    [Unsupported format]; an error of a generator; or the rejection of an
    awaited call, after the calls that were completed before it. *)
Inductive outcome : Type :=
| Done (effects : list effect)
| UnsupportedFormat (format : format_value)
| Raised (e : error)
| Rejected (completed : list effect) (call : effect) (reason : str).

Definition check_mark : str := [10003].     (* U+2713 *)

(** [x || d] for an option that may be unset or empty. *)
Definition or_default (x : option str) (d : str) : str :=
  match x with
  | Some s => if truthy (VString s) then s else d
  | None => d
  end.

(** Awaited calls one after the other: the first rejection ends the run,
    and the calls after it are not made. *)
Fixpoint perform (io : world) (calls : list effect)
    : list effect * option (effect * str) :=
  match calls with
  | [] => ([], None)
  | call :: rest =>
      match io call with
      | Some reason => ([], Some (call, reason))
      | None => let (completed, rejection) := perform io rest in
                (call :: completed, rejection)
      end
  end.

(** Awaited calls followed by [console.log(message)]; a rejection
    propagates and the line is not written. *)
Definition and_log (io : world) (calls : list effect) (message : str) : outcome :=
  match perform io calls with
  | (completed, None) => Done (completed ++ [console_log message])
  | (completed, Some (call, reason)) => Rejected completed call reason
  end.

(** The awaited calls of [createPDFFromHTML], in its order: the browser
    is launched, a page is opened, set to [html] and printed with
    [format: options.format || 'A4'] and
    [margin: options.margin || { top: '20mm', ... }], and the browser is
    closed.  There is no [finally]: after a rejection the browser stays
    open. *)
Definition createPDFFromHTML (html outputPath : str) (options : export_options_t)
    : list effect :=
  [ puppeteer_launch;
    browser_newPage;
    page_setContent html;
    page_pdf html outputPath
      (or_default (opt_format options) (lit "A4"))
      (match opt_margin options with Some m => m | None => default_margin end);
    browser_close ].

(** [writeTextFile]: one awaited [writeFile]. *)
Definition writeTextFile (text outputPath : str) : list effect :=
  [ writeFile outputPath text ].

Section Exporting.

(** [path.extname] of Node, and the outside world. *)
Variable extname : str -> str.
Variable io : world.

(** [generatePDF], from the scraped content on. *)
Definition generatePDF (now : Date) (content : content_t) (outputPath : str)
    (options : export_options_t) : outcome :=
  match generateHTML now content {| footerText := opt_footerText options |} with
  | Normal html =>
      and_log io (createPDFFromHTML html outputPath options)
              (check_mark ++ lit " PDF created: " ++ outputPath)
  | Throw e => Raised e
  end.

(** [detectFormat]. *)
Definition detectFormat (outputPath : str) : format_value :=
  let ext := toLowerCase (extname outputPath) in
  formatMap_get ext.

(** [options.format || detectFormat(outputPath)]. *)
Definition chosen_format (outputPath : str) (options : export_options_t)
    : format_value :=
  match opt_format options with
  | Some f => if truthy (VString f) then FormatName f else detectFormat outputPath
  | None => detectFormat outputPath
  end.

(** [exportContent], from the scraped content on. *)
Definition exportContent (now : Date) (content : content_t) (outputPath : str)
    (options : export_options_t) : outcome :=
  let format := chosen_format outputPath options in
  match format with
  | FormatName f =>
      if bool_decide (f = lit "markdown") || bool_decide (f = lit "md") then
        match generateMarkdown now content {| footerText := opt_footerText options |} with
        | Normal markdown =>
            and_log io (writeTextFile markdown outputPath)
                    (check_mark ++ lit " Markdown created: " ++ outputPath)
        | Throw e => Raised e
        end
      else if bool_decide (f = lit "text") || bool_decide (f = lit "txt") then
        match generatePlainText now content {| footerText := opt_footerText options |} with
        | Normal text =>
            and_log io (writeTextFile text outputPath)
                    (check_mark ++ lit " Text file created: " ++ outputPath)
        | Throw e => Raised e
        end
      else if bool_decide (f = lit "pdf") then
        match generateHTML now content {| footerText := opt_footerText options |} with
        | Normal html =>
            and_log io (createPDFFromHTML html outputPath options)
                    (check_mark ++ lit " PDF created: " ++ outputPath)
        | Throw e => Raised e
        end
      else UnsupportedFormat format
  | InheritedMember _ => UnsupportedFormat format
  end.

End Exporting.

(** A world in which no call rejects, and one in which the printer
    rejects every [page.pdf]. *)
Definition calm : world := fun _ => None.

Definition printer_fails : world :=
  fun call => match call with
              | page_pdf _ _ _ _ => Some (lit "printing failed")
              | _ => None
              end.

(** [path.extname] as Node's POSIX implementation computes it: the text
    from the last dot of the last path component, empty when that
    component has no dot, starts with its only dot, or is [..]. *)
Record ext_state : Type := ExtState {
  startDot : option nat;
  startPart : nat;
  end_ : option nat;
  matchedSlash : bool;
  preDotState : Z;
  stopped : bool
}.

Definition ext_step (st : ext_state) (i : nat) (code : N) : ext_state :=
  if stopped st then st
  else if code =? 47 then
    if negb (matchedSlash st)
    then {| startDot := startDot st; startPart := i + 1; end_ := end_ st;
            matchedSlash := matchedSlash st; preDotState := preDotState st;
            stopped := true |}
    else st
  else
    let st :=
      match end_ st with
      | None => {| startDot := startDot st; startPart := startPart st;
                   end_ := Some (i + 1)%nat; matchedSlash := false;
                   preDotState := preDotState st; stopped := false |}
      | Some _ => st
      end in
    if code =? 46 then
      match startDot st with
      | None => {| startDot := Some i; startPart := startPart st; end_ := end_ st;
                   matchedSlash := matchedSlash st; preDotState := preDotState st;
                   stopped := false |}
      | Some _ =>
          if bool_decide (preDotState st ≠ 1%Z)
          then {| startDot := startDot st; startPart := startPart st; end_ := end_ st;
                  matchedSlash := matchedSlash st; preDotState := 1%Z;
                  stopped := false |}
          else st
      end
    else
      match startDot st with
      | Some _ => {| startDot := startDot st; startPart := startPart st;
                     end_ := end_ st; matchedSlash := matchedSlash st;
                     preDotState := (-1)%Z; stopped := false |}
      | None => st
      end.

(** The loop [for (let i = path.length - 1; i >= 0; --i)]. *)
Fixpoint ext_loop (st : ext_state) (rev_path : str) (i : nat) : ext_state :=
  match rev_path, i with
  | code :: r, S j => ext_loop (ext_step st j code) r j
  | _, _ => st
  end.

Definition extname_posix (path : str) : str :=
  let st := ext_loop {| startDot := None; startPart := 0; end_ := None;
                        matchedSlash := true; preDotState := 0%Z; stopped := false |}
                     (rev path) (length path) in
  match startDot st, end_ st with
  | Some sd, Some e =>
      if bool_decide (preDotState st = 0%Z)
         || (bool_decide (preDotState st = 1%Z) && bool_decide (sd = e - 1)%nat
             && bool_decide (sd = startPart st + 1)%nat)
      then []
      else take (e - sd) (drop sd path)
  | _, _ => []
  end.

(** The content record of scraped sections, when each is an object. *)
Fixpoint objects_of (l : list value) : option (list object) :=
  match l with
  | [] => Some []
  | VObject o :: r =>
      match objects_of r with
      | Some os => Some (o :: os)
      | None => None
      end
  | _ :: _ => None
  end.

Definition content_of (s : scraped_t) : option content_t :=
  match objects_of (scraped_sections s) with
  | Some os => Some {| title := scraped_title s;
                       metadata := scraped_metadata s;
                       sections := os |}
  | None => None
  end.

(* ===================================================================== *)
(** ** Further notions used to state the properties *)
(* ===================================================================== *)

(** One of the five characters [escapeHtml] replaces. *)
Definition is_special (c : N) : bool :=
  (c =? 38) || (c =? 60) || (c =? 62) || (c =? 34) || (c =? 39).

(** The text a section contributes to its key. *)
Definition payload (o : object) : str :=
  match content o, items o with
  | Some c, _ => c
  | None, Some l => join (lit ",") l
  | None, None => []
  end.

(** A list section. *)
Definition is_list (o : object) : Prop :=
  type o = Some (lit "bullet-list") ∨ type o = Some (lit "numbered-list").

(** The result of [path.extname]: empty, or a text that starts with a
    dot. *)
Definition extension_like (ext : str) : Prop :=
  ext = [] ∨ ∃ r, ext = 46 :: r.

(** The format names [exportContent] has a case for. *)
Definition supported_formats : list str :=
  [lit "markdown"; lit "md"; lit "text"; lit "txt"; lit "pdf"].

(** [p], or [q]. *)
Definition either (p q : selector) : selector :=
  fun name attribs => p name attribs || q name attribs.

(** The names of the elements at or below a node, and the data of its
    text nodes, in document order. *)
Fixpoint element_names (n : node) : list str :=
  match n with
  | Element name _ children => name :: flat_map element_names children
  | _ => []
  end.

Fixpoint text_nodes (n : node) : list str :=
  match n with
  | Text data => [data]
  | Comment _ => []
  | Element _ _ children => flat_map text_nodes children
  end.

(** [<main><constructor></constructor><p>text</p><constructor></constructor></main>] *)
Definition two_constructors : list node :=
  page [elem "main" [elem "constructor" []; elem "p" [txt "text"];
                     elem "constructor" []]].

(** A page with a header, a navigation list, a script and a form around
    its content. *)
Definition cluttered_page : list node :=
  page [ elem "header" [elem "h1" [txt "Site name"]];
         elem "nav" [elem "ul" [elem "li" [txt "Home"]]];
         elem "main" [ elem "h2" [txt "Article"];
                       elem "p" [txt "Body text"; elem "button" [txt "Share"]];
                       elem "script" [txt "track()"];
                       elem "form" [elem "p" [txt "Subscribe now"]] ];
         Element (lit "div") [(lit "class", lit "box sidebar")] [elem "p" [txt "Related"]] ].

(** A section every renderer can read: a well-formed one, or the empty
    object. *)
Definition renderable (o : object) : Prop := well_formed o ∨ o = empty_object.

(** [<body><p>Outside text</p><main><p>Inside text</p></main></body>] *)
Definition main_beside_text : list node :=
  page [elem "p" [txt "Outside text"]; elem "main" [elem "p" [txt "Inside text"]]].

(** [<body><h1> </h1><h1>Real heading</h1></body>] under the title
    [Page title]. *)
Definition blank_first_heading : list node :=
  [elem "html" [elem "head" [elem "title" [txt "Page title"]];
                elem "body" [elem "h1" [txt " "]; elem "h1" [txt "Real heading"]]]].

(** The tag names among the selectors of [removeUnwantedElements]. *)
Definition removed_tags : list string :=
  ["script"; "style"; "noscript"; "iframe"; "svg"; "header"; "footer"; "nav";
   "menu"; "button"; "form"; "select"; "textarea"]%string.

(** The dot the loop of [extname] has recorded is a dot of the path. *)
Definition dot_recorded (path : str) (st : ext_state) : Prop :=
  ∀ sd, startDot st = Some sd -> path !! sd = Some 46.

(** Options that request the format [PDF], in upper case. *)
Definition PDF_requested : export_options_t :=
  {| opt_format := Some (lit "PDF"); opt_margin := None; opt_footerText := None |}.

(** Options that request the format [pdf]. *)
Definition pdf_requested : export_options_t :=
  {| opt_format := Some (lit "pdf"); opt_margin := None; opt_footerText := None |}.

(** No options. *)
Definition no_options : export_options_t :=
  {| opt_format := None; opt_margin := None; opt_footerText := None |}.

(* ===================================================================== *)
(** ** Properties *)
(* ===================================================================== *)

Open Scope string_scope.
Open Scope N_scope.
Open Scope list_scope.

(** *** Trimming *)

Lemma trimStart_clean s : clean_head (trimStart s).
Proof.
  induction s as [|c r IH]; simpl; [exact I|].
  destruct (is_white_space c) eqn:E; [exact IH | exact E].
Qed.

Lemma trimStart_fixed s : clean_head s -> trimStart s = s.
Proof. destruct s as [|c r]; simpl; [reflexivity|]. intros ->. reflexivity. Qed.

Lemma trimStart_suffix s : ∃ p, s = p ++ trimStart s.
Proof.
  induction s as [|c r [p IH]]; simpl; [exists []; reflexivity|].
  destruct (is_white_space c).
  - exists (c :: p). simpl. f_equal. exact IH.
  - exists []. reflexivity.
Qed.

Lemma trimEnd_prefix s : ∃ w, s = trimEnd s ++ w.
Proof.
  unfold trimEnd. destruct (trimStart_suffix (rev s)) as [p Hp].
  exists (rev p). rewrite <- rev_app_distr, <- Hp, rev_involutive. reflexivity.
Qed.

Lemma trimEnd_clean_head s : clean_head s -> clean_head (trimEnd s).
Proof.
  intros H. destruct (trimEnd_prefix s) as [w Hw].
  destruct (trimEnd s) as [|c r]; [exact I|].
  rewrite Hw in H. exact H.
Qed.

Lemma trimEnd_fixed s : clean_head (rev s) -> trimEnd s = s.
Proof.
  intros H. unfold trimEnd. rewrite (trimStart_fixed _ H). apply rev_involutive.
Qed.

Lemma trim_clean_head s : clean_head (trim s).
Proof. apply trimEnd_clean_head, trimStart_clean. Qed.

Lemma trim_clean_last s : clean_head (rev (trim s)).
Proof.
  unfold trim, trimEnd. rewrite rev_involutive. apply trimStart_clean.
Qed.

Lemma trim_idempotent s : trim (trim s) = trim s.
Proof.
  unfold trim at 1.
  rewrite (trimStart_fixed _ (trim_clean_head s)).
  apply trimEnd_fixed, trim_clean_last.
Qed.

(** *** The traversal as classification followed by deduplication *)

Lemma section_key_truthy v : truthy v = true -> section_key v = Normal (key_of v).
Proof.
  unfold key_of. destruct v; simpl; try discriminate; reflexivity.
Qed.

Lemma visit_offered st el :
  visit st el =
  let! o := offered el in
  Normal (match o with Some s => push_new st s | None => st end).
Proof.
  unfold visit, offered.
  destruct (bool_decide (0 < length (parents_matching el))%nat); [reflexivity|].
  destruct (extractSectionByType el (toLowerCase (el_name el))) as [v|e]; simpl; [|reflexivity].
  destruct (truthy v) eqn:Ht; [|reflexivity].
  rewrite (section_key_truthy _ Ht). simpl. unfold push_new.
  destruct (bool_decide (key_of v ∈ seen st)); reflexivity.
Qed.

Lemma foldM_visit els : ∀ st,
  foldM visit els st =
  let! os := mapM offered els in
  Normal (fold_left push_new (omap id os) st).
Proof.
  induction els as [|el els IH]; intros st; simpl; [reflexivity|].
  rewrite visit_offered.
  destruct (offered el) as [o|e]; simpl; [|reflexivity].
  rewrite IH. destruct (mapM offered els) as [os|e]; simpl; [|reflexivity].
  destruct o; reflexivity.
Qed.

Lemma fold_push_new cands : ∀ st,
  pushed (fold_left push_new cands st) = pushed st ++ keep_new (seen st) cands.
Proof.
  induction cands as [|s r IH]; intros st; simpl.
  - rewrite app_nil_r. reflexivity.
  - rewrite IH. unfold push_new.
    destruct (decide (key_of s ∈ seen st)) as [Hin|Hni].
    + rewrite bool_decide_eq_true_2 by exact Hin. reflexivity.
    + rewrite bool_decide_eq_false_2 by exact Hni. simpl.
      rewrite <- app_assoc. reflexivity.
Qed.

Lemma keep_new_fresh cands : ∀ keys s,
  s ∈ keep_new keys cands -> key_of s ∉ keys.
Proof.
  induction cands as [|c r IH]; intros keys s; simpl.
  - intros H. inversion H.
  - destruct (decide (key_of c ∈ keys)) as [Hin|Hni].
    + apply IH.
    + intros [->|H]%elem_of_cons; [exact Hni|].
      apply IH in H. intros Hc. apply H, elem_of_union. right. exact Hc.
Qed.

Lemma keep_new_NoDup cands : ∀ keys, NoDup (key_of <$> keep_new keys cands).
Proof.
  induction cands as [|c r IH]; intros keys; simpl.
  - constructor.
  - destruct (decide (key_of c ∈ keys)); [apply IH|].
    simpl. constructor; [|apply IH].
    intros (s & Hk & Hs)%list_elem_of_fmap.
    apply keep_new_fresh in Hs. apply Hs, elem_of_union. left.
    apply elem_of_singleton. symmetry. exact Hk.
Qed.

Lemma keep_new_sublist cands : ∀ keys, sublist (keep_new keys cands) cands.
Proof.
  induction cands as [|c r IH]; intros keys; simpl.
  - constructor.
  - destruct (decide (key_of c ∈ keys)).
    + apply sublist_cons, IH.
    + apply sublist_skip, IH.
Qed.

Lemma keep_new_covers cands : ∀ keys s,
  s ∈ cands -> key_of s ∈ keys ∨ key_of s ∈ key_of <$> keep_new keys cands.
Proof.
  induction cands as [|c r IH]; intros keys s; simpl.
  - intros H. inversion H.
  - intros [->|H]%elem_of_cons.
    + destruct (decide (key_of c ∈ keys)); [left; assumption|].
      right. simpl. left.
    + destruct (decide (key_of c ∈ keys)); [apply IH, H|].
      destruct (IH ({[key_of c]} ∪ keys) s H) as [Hk|Hk].
      * apply elem_of_union in Hk as [Hk|Hk]; [|left; exact Hk].
        apply elem_of_singleton in Hk. right. simpl. rewrite Hk. left.
      * right. simpl. right. exact Hk.
Qed.

Lemma keep_new_first cands : ∀ keys s,
  s ∈ keep_new keys cands ↔ ∃ i, first_at keys cands i s.
Proof.
  induction cands as [|c r IH]; intros keys s; simpl.
  - split; [intros H; inversion H|]. intros (i & H & _). destruct i; discriminate.
  - destruct (decide (key_of c ∈ keys)) as [Hin|Hni].
    + rewrite IH. split.
      * intros (i & Hi & Hk & Hj). exists (S i). repeat split; [exact Hi|exact Hk|].
        intros [|j] s' Hlt Hs'; simpl in Hs'.
        -- injection Hs' as <-. congruence.
        -- apply (Hj j); [lia|exact Hs'].
      * intros ([|i] & Hi & Hk & Hj); simpl in Hi.
        -- injection Hi as <-. contradiction.
        -- exists i. repeat split; [exact Hi|exact Hk|].
           intros j s' Hlt Hs'. apply (Hj (S j)); [lia|exact Hs'].
    + rewrite elem_of_cons, IH. split.
      * intros [->|(i & Hi & Hk & Hj)].
        -- exists 0%nat. repeat split; [exact Hni|]. intros j s' Hlt. lia.
        -- exists (S i). repeat split; [exact Hi| |].
           { intros Hc. apply Hk, elem_of_union. right. exact Hc. }
           intros [|j] s' Hlt Hs'; simpl in Hs'.
           ++ injection Hs' as <-. intros E. apply Hk, elem_of_union. left.
              apply elem_of_singleton. symmetry. exact E.
           ++ apply (Hj j); [lia|exact Hs'].
      * intros ([|i] & Hi & Hk & Hj); simpl in Hi.
        -- injection Hi as <-. left. reflexivity.
        -- right. exists i. repeat split; [exact Hi| |].
           ++ intros [Hc|Hc]%elem_of_union; [|contradiction].
              apply elem_of_singleton in Hc.
              apply (Hj 0%nat c); [lia|reflexivity|symmetry; exact Hc].
           ++ intros j s' Hlt Hs'. apply (Hj (S j)); [lia|exact Hs'].
Qed.

(** *** The tree *)

Lemma node_ind_nested (P : node -> Prop) :
  (∀ d, P (Text d)) -> (∀ d, P (Comment d)) ->
  (∀ name attribs children, Forall P children -> P (Element name attribs children)) ->
  ∀ n, P n.
Proof.
  intros HT HC HE. fix IH 1. intros [d|d|name attribs children].
  - apply HT.
  - apply HC.
  - apply HE. induction children as [|c r IHr]; constructor; [apply IH|exact IHr].
Qed.

Lemma elements_of_closed n : ∀ ps el,
  el ∈ elements_of ps n -> ∀ e, e ∈ find_all el -> e ∈ elements_of ps n.
Proof.
  induction n as [d|d|name attribs children IH] using node_ind_nested;
    intros ps el Hel e He; simpl in *; try (inversion Hel; fail).
  apply elem_of_cons in Hel as [->|Hel].
  - right. exact He.
  - right. apply list_elem_of_In, in_flat_map in Hel as (c & Hc & Hel).
    apply list_elem_of_In, in_flat_map. exists c. split; [exact Hc|].
    apply list_elem_of_In.
    rewrite Forall_forall in IH. apply list_elem_of_In in Hc.
    apply (IH c Hc _ el); [apply list_elem_of_In; exact Hel|exact He].
Qed.

Lemma mainContent_elements doc mc :
  mainContent doc = Some mc ->
  ∀ e, e ∈ find_all mc -> e ∈ flat_map (elements_of []) doc.
Proof.
  unfold mainContent, select. intros Hmc e He.
  assert (Hin : mc ∈ flat_map (elements_of []) doc).
  { destruct (filter _ _) as [|x l] eqn:E; [discriminate|].
    injection Hmc as ->.
    assert (Hx : mc ∈ mc :: l) by left.
    rewrite <- E in Hx. apply list_elem_of_filter in Hx as [_ Hx]. exact Hx. }
  apply list_elem_of_In, in_flat_map in Hin as (n & Hn & Hin).
  apply list_elem_of_In, in_flat_map. exists n. split; [exact Hn|].
  apply list_elem_of_In. apply (elements_of_closed n [] mc); [apply list_elem_of_In, Hin|exact He].
Qed.

Lemma parsed_find_all doc mc :
  parsed doc -> mainContent doc = Some mc ->
  ∀ e, e ∈ find_all mc -> html_tag_name (el_name e) = true.
Proof.
  intros Hp Hmc e He. unfold parsed in Hp. rewrite Forall_forall in Hp.
  apply Hp. eapply mainContent_elements; eassumption.
Qed.

(** *** Classification of one element *)

Lemma lower_char_not_upper c : is_upper (lower_char c) = false.
Proof.
  unfold lower_char. destruct (is_upper c) eqn:E.
  - unfold is_upper in *. apply andb_true_iff in E as [H1 H2].
    apply N.leb_le in H1, H2. apply andb_false_iff. right. apply N.leb_gt. lia.
  - destruct (c =? 8490); [reflexivity|exact E].
Qed.

Lemma lower_char_alpha c : is_ascii_alpha c = true -> is_ascii_alpha (lower_char c) = true.
Proof.
  unfold lower_char, is_ascii_alpha, is_upper.
  destruct ((65 <=? c) && (c <=? 90)) eqn:E; simpl.
  - intros _. apply andb_true_iff in E as [H1 H2]. apply N.leb_le in H1, H2.
    apply orb_true_iff. right. apply andb_true_iff. split; apply N.leb_le; lia.
  - destruct (c =? 8490); [reflexivity|]. rewrite E. intros H. exact H.
Qed.

Lemma toLowerCase_lowered name :
  html_tag_name name = true -> lowered (toLowerCase name) = true.
Proof.
  intros H. unfold lowered. apply andb_true_iff. split.
  - destruct name as [|c r]; [discriminate|]. simpl. apply lower_char_alpha, H.
  - unfold toLowerCase. clear H. induction name as [|c r IH]; [reflexivity|].
    simpl. rewrite lower_char_not_upper. exact IH.
Qed.

Lemma or_else_null v :
  v = VNull ∨ (∃ o, v = VObject o) -> or_else v VNull = v.
Proof. intros [->|[o ->]]; reflexivity. Qed.

Lemma extractHeading_shape el t :
  extractHeading el t = VNull ∨ ∃ o, extractHeading el t = VObject o.
Proof. unfold extractHeading. destruct (truthy _); eauto. Qed.

Lemma extractParagraph_shape el :
  extractParagraph el = VNull ∨ ∃ o, extractParagraph el = VObject o.
Proof. unfold extractParagraph. destruct (truthy _); eauto. Qed.

Lemma extractList_shape el t :
  extractList el t = VNull ∨ ∃ o, extractList el t = VObject o.
Proof. unfold extractList. destruct (bool_decide _); eauto. Qed.

Lemma extractQuote_shape el :
  extractQuote el = VNull ∨ ∃ o, extractQuote el = VObject o.
Proof. unfold extractQuote. destruct (truthy _); eauto. Qed.

(** [at_key k tac]: split on whether the looked-up key is the literal
    [k]; if it is, finish with [tac]. *)
Ltac at_key key k tac :=
  destruct (decide (lit k = key)) as [<-|_];
  [ cbn beta iota delta [bind]; tac | ].

Ltac own_result :=
  rewrite or_else_null by
    first [ apply extractHeading_shape | apply extractParagraph_shape
          | apply extractList_shape | apply extractQuote_shape ];
  eexists; split;
  [ reflexivity
  | first [ apply classifies_heading; vm_compute; set_solver
          | constructor ] ].

Ltac not_lowered H := exfalso; vm_compute in H; discriminate H.

Lemma extractSectionByType_classifies el key :
  lowered key = true ->
  ∃ v, extractSectionByType el key = Normal v ∧ classifies el key v.
Proof.
  intros Hk. unfold extractSectionByType, optional_call.
  cbn [assoc Object_prototype].
  at_key key "h1"%string own_result.
  at_key key "h2"%string own_result.
  at_key key "h3"%string own_result.
  at_key key "h4"%string own_result.
  at_key key "h5"%string own_result.
  at_key key "h6"%string own_result.
  at_key key "p"%string own_result.
  at_key key "ul"%string own_result.
  at_key key "ol"%string own_result.
  at_key key "blockquote"%string own_result.
  at_key key "constructor"%string
    ltac:(eexists; split; [reflexivity|apply classifies_constructor]).
  at_key key "__defineGetter__"%string ltac:(not_lowered Hk).
  at_key key "__defineSetter__"%string ltac:(not_lowered Hk).
  at_key key "hasOwnProperty"%string ltac:(not_lowered Hk).
  at_key key "__lookupGetter__"%string ltac:(not_lowered Hk).
  at_key key "__lookupSetter__"%string ltac:(not_lowered Hk).
  at_key key "isPrototypeOf"%string ltac:(not_lowered Hk).
  at_key key "propertyIsEnumerable"%string ltac:(not_lowered Hk).
  at_key key "toString"%string ltac:(not_lowered Hk).
  at_key key "valueOf"%string ltac:(not_lowered Hk).
  at_key key "__proto__"%string ltac:(not_lowered Hk).
  at_key key "toLocaleString"%string ltac:(not_lowered Hk).
  eexists. split; [reflexivity|apply classifies_nothing].
Qed.

Lemma truthy_string s : truthy (VString s) = true ↔ s ≠ [].
Proof.
  simpl. destruct (decide (s = [])) as [->|Hn].
  - split; [discriminate|intros H; contradiction].
  - rewrite bool_decide_eq_false_2 by exact Hn. split; [intros _; exact Hn|reflexivity].
Qed.

Lemma trim_trimmed_nonempty s : trim s ≠ [] -> trimmed_nonempty (trim s).
Proof. intros H. split; [exact H|apply trim_idempotent]. Qed.

Lemma extractHeading_ok el t o :
  t ∈ heading_types -> extractHeading el t = VObject o -> Section_ok o.
Proof.
  unfold extractHeading. intros Ht.
  destruct (truthy (VString (trim (el_text el)))) eqn:E; [|discriminate].
  intros [= <-]. apply Heading_ok; [exact Ht|].
  apply trim_trimmed_nonempty, truthy_string, E.
Qed.

Lemma isValidText_truthy text n :
  truthy (isValidText text n) = true ↔ text ≠ [] ∧ (n <= length (trim text))%nat.
Proof.
  unfold isValidText. destruct (truthy (VString text)) eqn:E.
  - apply truthy_string in E. simpl. rewrite Nat.leb_le. tauto.
  - rewrite E. split; [discriminate|]. intros [H _]. apply truthy_string in H. congruence.
Qed.

Lemma extractParagraph_ok el o :
  extractParagraph el = VObject o -> Section_ok o.
Proof.
  unfold extractParagraph.
  destruct (truthy (isValidText _ _)) eqn:E; [|discriminate].
  intros [= <-]. apply isValidText_truthy in E as [_ E].
  rewrite trim_idempotent in E.
  apply Paragraph_ok; [apply trim_idempotent|exact E].
Qed.

Lemma extractList_ok el t o :
  t = lit "bullet-list" ∨ t = lit "numbered-list" ->
  extractList el t = VObject o -> Section_ok o.
Proof.
  unfold extractList. intros Ht.
  set (its := filter _ _). assert (Hits : its = filter _ _) by reflexivity.
  clearbody its. case_bool_decide as E; [|discriminate].
  intros [= <-]. apply List_ok; [exact Ht| |].
  - intros H. rewrite H in E. simpl in E. lia.
  - apply Forall_forall. intros x Hx. rewrite Hits in Hx.
    apply list_elem_of_filter in Hx as [Hx1 Hx2].
    apply list_elem_of_fmap in Hx2 as (li & -> & _).
    apply trim_trimmed_nonempty, truthy_string, Hx1.
Qed.

Lemma extractQuote_ok el o :
  extractQuote el = VObject o -> Section_ok o.
Proof.
  unfold extractQuote.
  destruct (truthy (VString (trim (el_text el)))) eqn:E; [|discriminate].
  intros [= <-]. apply Quote_ok.
  apply trim_trimmed_nonempty, truthy_string, E.
Qed.

Lemma classifies_truthy el key v :
  classifies el key v -> truthy v = true ->
  ∃ o, v = VObject o ∧ (Section_ok o ∨ (o = empty_object ∧ key = lit "constructor")).
Proof.
  intros [t Ht| | | | | |k] Hv.
  - destruct (extractHeading_shape el t) as [E|[o E]]; rewrite E in Hv; [discriminate|].
    exists o. split; [exact E|left; eapply extractHeading_ok; eassumption].
  - destruct (extractParagraph_shape el) as [E|[o E]]; rewrite E in Hv; [discriminate|].
    exists o. split; [exact E|left; eapply extractParagraph_ok; eassumption].
  - destruct (extractList_shape el (lit "bullet-list")) as [E|[o E]];
      rewrite E in Hv; [discriminate|].
    exists o. split; [exact E|left; eapply extractList_ok; [|eassumption]; auto].
  - destruct (extractList_shape el (lit "numbered-list")) as [E|[o E]];
      rewrite E in Hv; [discriminate|].
    exists o. split; [exact E|left; eapply extractList_ok; [|eassumption]; auto].
  - destruct (extractQuote_shape el) as [E|[o E]]; rewrite E in Hv; [discriminate|].
    exists o. split; [exact E|left; eapply extractQuote_ok; eassumption].
  - exists empty_object. split; [reflexivity|right; split; reflexivity].
  - discriminate.
Qed.

(** *** The whole traversal *)

Lemma mapM_Forall2 {A B} (f : A -> completion B) l : ∀ ys,
  mapM f l = Normal ys -> Forall2 (fun x y => f x = Normal y) l ys.
Proof.
  induction l as [|x r IH]; simpl; intros ys.
  - intros [= <-]. constructor.
  - destruct (f x) as [y|e] eqn:E; simpl; [|discriminate].
    destruct (mapM f r) as [ys'|e]; simpl; [|discriminate].
    intros [= <-]. constructor; [exact E|apply IH; reflexivity].
Qed.

Lemma mapM_total {A B} (f : A -> completion B) l :
  (∀ x, x ∈ l -> ∃ y, f x = Normal y) -> ∃ ys, mapM f l = Normal ys.
Proof.
  induction l as [|x r IH]; simpl; intros H; [eauto|].
  destruct (H x) as [y ->]; [left|].
  destruct IH as [ys ->]; [intros z Hz; apply H; right; exact Hz|].
  simpl. eauto.
Qed.

Lemma skipped_bool el :
  bool_decide (0 < length (parents_matching el))%nat = true ↔ skipped el.
Proof.
  unfold skipped. rewrite bool_decide_eq_true.
  destruct (parents_matching el); simpl; split; intros H; try lia; congruence.
Qed.

Lemma offered_total el :
  html_tag_name (el_name el) = true -> ∃ o, offered el = Normal o.
Proof.
  intros H. unfold offered.
  destruct (bool_decide _); [eauto|].
  destruct (extractSectionByType_classifies el _ (toLowerCase_lowered _ H)) as (v & -> & _).
  simpl. eauto.
Qed.

Lemma offered_Some el s : offered el = Normal (Some s) ↔ origin el s.
Proof.
  unfold offered, origin. rewrite <- skipped_bool.
  destruct (bool_decide (0 < length (parents_matching el))%nat) eqn:E.
  - split; [discriminate|]. intros [H _]. exfalso. apply H. reflexivity.
  - destruct (extractSectionByType el _) as [v|e]; simpl.
    + destruct (truthy v) eqn:Hv.
      * split.
        -- intros [= <-]. repeat split; [discriminate|exact Hv].
        -- intros (_ & _ & [= <-]). reflexivity.
      * split; [discriminate|]. intros (_ & Hs & [= <-]). congruence.
    + split; [discriminate|]. intros (_ & _ & H). discriminate.
Qed.

Lemma Forall2_elem_of_r {A B} (R : A -> B -> Prop) l ys y :
  Forall2 R l ys -> y ∈ ys -> ∃ x, x ∈ l ∧ R x y.
Proof.
  induction 1 as [|x y' l ys HR H IH]; intros Hy; [inversion Hy|].
  apply elem_of_cons in Hy as [->|Hy].
  - exists x. split; [left|exact HR].
  - destruct (IH Hy) as (x' & Hx & HR'). exists x'. split; [right; exact Hx|exact HR'].
Qed.

Lemma Forall2_elem_of_l {A B} (R : A -> B -> Prop) l ys x :
  Forall2 R l ys -> x ∈ l -> ∃ y, y ∈ ys ∧ R x y.
Proof.
  induction 1 as [|x' y l ys HR H IH]; intros Hx; [inversion Hx|].
  apply elem_of_cons in Hx as [->|Hx].
  - exists y. split; [left|exact HR].
  - destruct (IH Hx) as (y' & Hy & HR'). exists y'. split; [right; exact Hy|exact HR'].
Qed.

Lemma mainContent_select doc :
  select doc matches_main_content =
  match mainContent doc with
  | Some mc => mc :: tail (select doc matches_main_content)
  | None => []
  end.
Proof. unfold mainContent. destruct (select doc matches_main_content); reflexivity. Qed.

(** The traversal classifies the elements it does not skip, in document
    order, and keeps the first section of every key. *)
Lemma extraction_structure doc :
  parsed doc ->
  ∃ cands,
    classified doc = Normal cands
    ∧ extractSections doc = Normal (keep_new ∅ cands)
    ∧ ∀ s, s ∈ cands ↔
           ∃ mc el, mainContent doc = Some mc ∧ el ∈ find_all mc ∧ origin el s.
Proof.
  intros Hp. unfold classified, extractSections.
  rewrite mainContent_select.
  destruct (mainContent doc) as [mc|] eqn:Hmc.
  - destruct (mapM_total offered (find_all mc)) as [os Hos].
    { intros el Hel. apply offered_total. eapply parsed_find_all; eassumption. }
    rewrite foldM_visit, Hos. simpl.
    exists (omap id os). split; [reflexivity|]. split.
    { rewrite fold_push_new. reflexivity. }
    apply mapM_Forall2 in Hos. intros s. rewrite list_elem_of_omap. split.
    + intros (o & Ho & Hs). simpl in Hs. subst o.
      destruct (Forall2_elem_of_r _ _ _ _ Hos Ho) as (el & Hel & Hoff).
      exists mc, el. split; [reflexivity|]. split; [exact Hel|apply offered_Some, Hoff].
    + intros (mc' & el & [= <-] & Hel & Hor).
      destruct (Forall2_elem_of_l _ _ _ _ Hos Hel) as (o & Ho & Hoff).
      apply offered_Some in Hor. rewrite Hor in Hoff. injection Hoff as <-.
      exists (Some s). split; [exact Ho|reflexivity].
  - exists []. split; [reflexivity|]. split; [reflexivity|].
    intros s. split; [intros H; inversion H|]. intros (mc & el & H & _). discriminate.
Qed.


Lemma one_per_key {A} (f : A -> str) (l : list A) k :
  NoDup (f <$> l) -> k ∈ f <$> l ->
  length (filter (fun x => f x = k) l) = 1%nat.
Proof.
  induction l as [|a r IH]; simpl; intros Hnd Hk; [inversion Hk|].
  apply NoDup_cons in Hnd as [Ha Hnd].
  destruct (decide (f a = k)) as [E|E].
  - rewrite filter_cons_True by exact E. simpl. f_equal.
    destruct (filter (λ x, f x = k) r) as [|b t] eqn:Hf; [reflexivity|].
    exfalso. apply Ha.
    assert (Hb : b ∈ filter (λ x, f x = k) r) by (rewrite Hf; left).
    apply list_elem_of_filter in Hb as [Hb1 Hb2].
    apply list_elem_of_fmap. exists b. split; [congruence|exact Hb2].
  - rewrite filter_cons_False by exact E.
    apply elem_of_cons in Hk as [Hk|Hk]; [congruence|].
    apply IH; assumption.
Qed.

Lemma first_at_empty cands i s :
  first_at ∅ cands i s ↔
  cands !! i = Some s
  ∧ ∀ j s', (j < i)%nat -> cands !! j = Some s' -> key_of s' ≠ key_of s.
Proof.
  unfold first_at. split.
  - intros (H1 & _ & H2). split; assumption.
  - intros (H1 & H2). repeat split; [exact H1|apply not_elem_of_empty|exact H2].
Qed.

Lemma parsed_scenario_A : parsed scenario_A.
Proof. unfold parsed. simpl. repeat constructor. Qed.


Lemma origin_shape el s :
  html_tag_name (el_name el) = true -> origin el s ->
  ∃ o, s = VObject o
       ∧ (Section_ok o
          ∨ (o = empty_object ∧ toLowerCase (el_name el) = lit "constructor")).
Proof.
  intros Hn (_ & Ht & He).
  destruct (extractSectionByType_classifies el _ (toLowerCase_lowered _ Hn))
    as (v & Hv & Hc).
  rewrite He in Hv. injection Hv as <-.
  eapply classifies_truthy; eassumption.
Qed.

Lemma or_else_truthy a b : truthy a = true -> or_else a b = a.
Proof. unfold or_else. intros ->. reflexivity. Qed.

Lemma or_else_falsy a b : truthy a = false -> or_else a b = b.
Proof. unfold or_else. intros ->. reflexivity. Qed.

Lemma key_of_content t c its :
  c ≠ [] ->
  key_of (VObject {| type := Some t; content := Some c; items := its |})
  = t ++ lit ":" ++ c.
Proof.
  intros Hc. apply truthy_string in Hc.
  unfold key_of, section_key. cbn [Get bind type content items template].
  rewrite !(or_else_truthy (VString c)) by exact Hc. reflexivity.
Qed.

Lemma key_of_items t l :
  key_of (VObject {| type := Some t; content := None; items := Some l |})
  = t ++ lit ":" ++ join (lit ",") l.
Proof.
  unfold key_of, section_key. cbn [Get bind type content items template].
  rewrite (or_else_falsy VUndefined) by reflexivity.
  destruct (truthy (VString (join (lit ",") l))) eqn:E.
  - rewrite or_else_truthy by exact E. reflexivity.
  - rewrite or_else_falsy by exact E.
    destruct (join (lit ",") l); [reflexivity|discriminate].
Qed.

Lemma section_key_object o : section_key (VObject o) = Normal (key_of (VObject o)).
Proof. reflexivity. Qed.

Lemma classified_shapes doc :
  parsed doc ->
  ∃ cands,
    classified doc = Normal cands
    ∧ extractSections doc = Normal (keep_new ∅ cands)
    ∧ ∀ s, s ∈ cands -> ∃ o, s = VObject o ∧ (Section_ok o ∨ o = empty_object).
Proof.
  intros Hp. destruct (extraction_structure doc Hp) as (cands & Hc & He & Hor).
  exists cands. split; [exact Hc|]. split; [exact He|].
  intros s Hs. apply Hor in Hs as (mc & el & Hmc & Hel & Ho).
  destruct (origin_shape el _ (parsed_find_all doc mc Hp Hmc el Hel) Ho)
    as (o & -> & Hs).
  exists o. split; [reflexivity|]. destruct Hs as [Hs|[Hs _]]; auto.
Qed.

(** The key of a classified section: its type, a colon, and its text or
    its items joined by commas. *)
Lemma classified_key o :
  Section_ok o ∨ o = empty_object ->
  (∃ t c, o = {| type := Some t; content := Some c; items := None |}
          ∧ trim c = c ∧ key_of (VObject o) = t ++ lit ":" ++ c)
  ∨ (∃ t l, o = {| type := Some t; content := None; items := Some l |}
            ∧ key_of (VObject o) = t ++ lit ":" ++ join (lit ",") l)
  ∨ (o = empty_object ∧ key_of (VObject o) = lit "undefined:").
Proof.
  intros [[t c Ht [Hne Htr]|c Htr Hlen|t l Ht _ _|c [Hne Htr]]| ->].
  - left. exists t, c. split; [reflexivity|]. split; [exact Htr|].
    apply key_of_content, Hne.
  - left. eexists _, c. split; [reflexivity|]. split; [exact Htr|].
    apply key_of_content. intros ->. vm_compute in Hlen. lia.
  - right. left. exists t, l. split; [reflexivity|]. apply key_of_items.
  - left. eexists _, c. split; [reflexivity|]. split; [exact Htr|].
    apply key_of_content, Hne.
  - right. right. split; reflexivity.
Qed.

(** C1 (deduplication keeps the first occurrence).  For a parsed
    document, [extractSections] returns the classified sections with every
    repeated identity key removed: no two emitted sections share a key,
    every key of a classified section is emitted exactly once, the emitted
    sequence is a subsequence of the classified one (document order), and a
    section is emitted exactly when it is the first one, in document order,
    that carries its key.  The key of a classified section is its type, a
    colon, and its trimmed text or, for a list, its items joined by
    commas; for the empty object it is [undefined:]. *)
Theorem extractSections_keeps_first_occurrence (doc : list node) :
  parsed doc ->
  ∃ cands secs,
    classified doc = Normal cands
    ∧ extractSections doc = Normal secs
    ∧ NoDup (key_of <$> secs)
    ∧ (∀ s, s ∈ cands ->
         length (filter (fun x => key_of x = key_of s) secs) = 1%nat)
    ∧ sublist secs cands
    ∧ (∀ s, s ∈ secs ↔
         ∃ i, cands !! i = Some s
              ∧ ∀ j s', (j < i)%nat -> cands !! j = Some s' -> key_of s' ≠ key_of s)
    ∧ (∀ s, s ∈ cands ->
         section_key s = Normal (key_of s)
         ∧ ((∃ t c, s = VObject {| type := Some t; content := Some c; items := None |}
                    ∧ trim c = c ∧ key_of s = t ++ lit ":" ++ c)
            ∨ (∃ t l, s = VObject {| type := Some t; content := None; items := Some l |}
                      ∧ key_of s = t ++ lit ":" ++ join (lit ",") l)
            ∨ (s = VObject empty_object ∧ key_of s = lit "undefined:"))).
Proof.
  intros Hp. destruct (classified_shapes doc Hp) as (cands & Hc & He & Hshape).
  exists cands, (keep_new ∅ cands).
  split; [exact Hc|]. split; [exact He|].
  split; [apply keep_new_NoDup|].
  split.
  { intros s Hs. apply one_per_key; [apply keep_new_NoDup|].
    destruct (keep_new_covers cands ∅ s Hs) as [H|H]; [|exact H].
    exfalso. revert H. apply not_elem_of_empty. }
  split; [apply keep_new_sublist|].
  split.
  { intros s. rewrite keep_new_first.
    split; intros [i H]; exists i; apply first_at_empty, H. }
  intros s Hs. destruct (Hshape s Hs) as (o & -> & Ho).
  split; [apply section_key_object|].
  destruct (classified_key o Ho) as [(t & c & -> & H1 & H2)|[(t & l & -> & H)|[-> H]]].
  - left. exists t, c. auto.
  - right. left. exists t, l. auto.
  - right. right. auto.
Qed.

Lemma extractSections_keeps_first_occurrence_witness :
  parsed scenario_A ∧
  ∃ cands secs,
    classified scenario_A = Normal cands
    ∧ extractSections scenario_A = Normal secs
    ∧ NoDup (key_of <$> secs)
    ∧ (∀ s, s ∈ cands ->
         length (filter (fun x => key_of x = key_of s) secs) = 1%nat)
    ∧ sublist secs cands
    ∧ (∀ s, s ∈ secs ↔
         ∃ i, cands !! i = Some s
              ∧ ∀ j s', (j < i)%nat -> cands !! j = Some s' -> key_of s' ≠ key_of s)
    ∧ (∀ s, s ∈ cands ->
         section_key s = Normal (key_of s)
         ∧ ((∃ t c, s = VObject {| type := Some t; content := Some c; items := None |}
                    ∧ trim c = c ∧ key_of s = t ++ lit ":" ++ c)
            ∨ (∃ t l, s = VObject {| type := Some t; content := None; items := Some l |}
                      ∧ key_of s = t ++ lit ":" ++ join (lit ",") l)
            ∨ (s = VObject empty_object ∧ key_of s = lit "undefined:"))).
Proof.
  split; [exact parsed_scenario_A|].
  apply (extractSections_keeps_first_occurrence scenario_A parsed_scenario_A).
Defined.

(** Scenario A of the specification: the second [h2] with the text [S] is
    dropped. *)
Example scenario_A_sections :
  classified scenario_A
    = Normal [VObject (heading "h1" "T"); VObject (heading "h2" "S");
              VObject (heading "h2" "S"); VObject (paragraph "Hi there")]
  ∧ extractSections scenario_A
    = Normal [VObject (heading "h1" "T"); VObject (heading "h2" "S");
              VObject (paragraph "Hi there")].
Proof. split; vm_compute; reflexivity. Qed.

(** *** Colliding list keys *)

Lemma later_duplicate_dropped cands i j s1 s2 :
  first_at ∅ cands i s1 -> (i < j)%nat -> cands !! j = Some s2 ->
  key_of s2 = key_of s1 -> s2 ≠ s1 ->
  s1 ∈ keep_new ∅ cands ∧ s2 ∉ keep_new ∅ cands.
Proof.
  intros H1 Hij Hj Hk Hne. split.
  - apply keep_new_first. exists i. exact H1.
  - intros (i' & Hi' & _ & Hfirst)%keep_new_first.
    destruct H1 as (Hi & _ & Hfirst1).
    destruct (Nat.lt_trichotomy i' i) as [Hlt|[->|Hgt]].
    + apply (Hfirst1 i' s2 Hlt Hi'). exact Hk.
    + rewrite Hi in Hi'. injection Hi' as ->. apply Hne. reflexivity.
    + apply (Hfirst i s1 Hgt Hi). symmetry. exact Hk.
Qed.

Lemma parsed_two_lists : parsed two_lists.
Proof. unfold parsed. simpl. repeat constructor. Qed.

(** C10 (comma-joined list keys collide).  The key of a list is its type,
    a colon, and its items joined with a comma, whatever the items; so the
    lists [a,b] (one item) and [a] [b] (two items) have the same key
    although their items differ; in the document
    that holds both, only the first is emitted.  In general, in a parsed
    document a classified section that follows the first section of its
    key is discarded, also when the two sections differ. *)
Theorem list_keys_collide :
  (∀ t l,
     section_key (VObject {| type := Some t; content := None; items := Some l |})
     = Normal (t ++ lit ":" ++ join (lit ",") l))
  ∧ (items (bullet_list ["a,b"]) ≠ items (bullet_list ["a"; "b"])
   ∧ section_key (VObject (bullet_list ["a,b"]))
     = section_key (VObject (bullet_list ["a"; "b"])))
  ∧ (classified two_lists
       = Normal [VObject (bullet_list ["a,b"]); VObject (bullet_list ["a"; "b"])]
     ∧ extractSections two_lists = Normal [VObject (bullet_list ["a,b"])])
  ∧ ∀ doc, parsed doc ->
      ∃ cands secs,
        classified doc = Normal cands ∧ extractSections doc = Normal secs
        ∧ ∀ i j s1 s2,
            cands !! i = Some s1 ->
            (∀ k s', (k < i)%nat -> cands !! k = Some s' -> key_of s' ≠ key_of s1) ->
            (i < j)%nat -> cands !! j = Some s2 ->
            key_of s2 = key_of s1 -> s2 ≠ s1 ->
            s1 ∈ secs ∧ s2 ∉ secs.
Proof.
  split; [intros t l; rewrite section_key_object, key_of_items; reflexivity|].
  split; [split; [discriminate|reflexivity]|].
  split; [split; vm_compute; reflexivity|].
  intros doc Hp. destruct (extraction_structure doc Hp) as (cands & Hc & He & _).
  exists cands, (keep_new ∅ cands). split; [exact Hc|]. split; [exact He|].
  intros i j s1 s2 Hi Hfirst Hij Hj Hk Hne.
  apply (later_duplicate_dropped cands i j); try assumption.
  apply first_at_empty. split; assumption.
Qed.

Lemma list_keys_collide_witness :
  parsed two_lists
  ∧ VObject (bullet_list ["a,b"]) ∈ [VObject (bullet_list ["a,b"])]
  ∧ VObject (bullet_list ["a"; "b"]) ∉ [VObject (bullet_list ["a,b"])].
Proof.
  split; [exact parsed_two_lists|].
  destruct list_keys_collide as (_ & _ & _ & H).
  destruct (H two_lists parsed_two_lists) as (cands & secs & Hc & He & Hdrop).
  assert (Ec : cands = [VObject (bullet_list ["a,b"]); VObject (bullet_list ["a"; "b"])]).
  { assert (E : Normal cands = Normal [VObject (bullet_list ["a,b"]);
                                       VObject (bullet_list ["a"; "b"])])
      by (rewrite <- Hc; vm_compute; reflexivity).
    injection E as ->. reflexivity. }
  assert (Es : secs = [VObject (bullet_list ["a,b"])]).
  { assert (E : Normal secs = Normal [VObject (bullet_list ["a,b"])])
      by (rewrite <- He; vm_compute; reflexivity).
    injection E as ->. reflexivity. }
  subst cands secs.
  apply (Hdrop 0%nat 1%nat); try reflexivity; try lia; try discriminate.
Defined.

(** *** Shape of the classified sections *)





Lemma keep_new_elem_of keys cands s : s ∈ keep_new keys cands -> s ∈ cands.
Proof. intros H. eapply elem_of_sublist; [exact H|apply keep_new_sublist]. Qed.





(** Scenario B of the specification: the paragraph [ab] is too short. *)
Example scenario_B_sections :
  extractSections scenario_B = Normal [VObject (paragraph "Long enough text")].
Proof. vm_compute. reflexivity. Qed.

(** *** Skipped elements *)

Lemma skipped_iff el :
  skipped el ↔ ∃ name, name ∈ el_parents el ∧ is_container name = true.
Proof.
  unfold skipped, parents_matching. split.
  - intros H. destruct (filter _ _) as [|name l] eqn:E; [contradiction|].
    assert (Hin : name ∈ name :: l) by left. rewrite <- E in Hin.
    apply list_elem_of_filter in Hin as [H1 H2]. exists name. split; assumption.
  - intros (name & Hin & Hc) E.
    assert (H : name ∈ filter (λ name, is_container name = true) (el_parents el))
      by (apply list_elem_of_filter; split; assumption).
    rewrite E in H. inversion H.
Qed.

Lemma visit_skipped st el : skipped el -> visit st el = Normal st.
Proof.
  intros H. unfold visit. apply skipped_bool in H. rewrite H. reflexivity.
Qed.

Lemma extractSectionByType_table el :
  extractSectionByType el (lit "table") = Normal VNull.
Proof. reflexivity. Qed.

Lemma parsed_table_page : parsed table_page.
Proof. unfold parsed. simpl. repeat constructor. Qed.

Lemma classifies_content el key v :
  classifies el key v ->
  ∀ o c, v = VObject o -> content o = Some c -> c = trim (el_text el).
Proof.
  intros [t _| | | | | |k] o c Ho Hc.
  - unfold extractHeading in Ho. destruct (truthy _); [|discriminate Ho].
    injection Ho as <-. injection Hc as <-. reflexivity.
  - unfold extractParagraph in Ho. destruct (truthy _); [|discriminate Ho].
    injection Ho as <-. injection Hc as <-. reflexivity.
  - unfold extractList in Ho. destruct (bool_decide _); [|discriminate Ho].
    injection Ho as <-. discriminate Hc.
  - unfold extractList in Ho. destruct (bool_decide _); [|discriminate Ho].
    injection Ho as <-. discriminate Hc.
  - unfold extractQuote in Ho. destruct (truthy _); [|discriminate Ho].
    injection Ho as <-. injection Hc as <-. reflexivity.
  - injection Ho as <-. discriminate Hc.
  - discriminate Ho.
Qed.

Lemma parsed_quoted_table : parsed quoted_table.
Proof. unfold parsed. simpl. repeat constructor. Qed.

Lemma parsed_heading_over_table : parsed heading_over_table.
Proof. unfold parsed. simpl. repeat constructor. Qed.

(** C7 as stated fails: the text of a table does appear as a section.  The
    cell of the table inside the [blockquote] has a [table] ancestor and
    is skipped, but the quote takes the text of all that the [blockquote]
    contains, and so does the heading that encloses a table. *)
Lemma table_text_in_enclosing_section :
  parsed quoted_table
  ∧ (∃ el, el ∈ flat_map (elements_of []) quoted_table
           ∧ el_name el = lit "td" ∧ lit "table" ∈ el_parents el
           ∧ el_text el = lit "cell text")
  ∧ extractSections quoted_table
    = Normal [VObject {| type := Some (lit "quote"); content := Some (lit "cell text");
                         items := None |}]
  ∧ parsed heading_over_table
  ∧ extractSections heading_over_table
    = Normal [VObject (heading "h2" "Prices: cell text")].
Proof.
  split; [exact parsed_quoted_table|]. split.
  { exists (Located (lit "td") [] [txt "cell text"]
              [lit "tr"; lit "tbody"; lit "table"; lit "blockquote"; lit "main";
               lit "body"; lit "html"]).
    split; [|split; [reflexivity|split; [|reflexivity]]].
    - vm_compute. do 8 (apply elem_of_cons; right). apply elem_of_cons. left. reflexivity.
    - do 2 (apply elem_of_cons; right). apply elem_of_cons. left. reflexivity. }
  split; [vm_compute; reflexivity|].
  split; [exact parsed_heading_over_table|vm_compute; reflexivity].
Qed.

(** C7 (exclusion rule), amended.  An element with a [ul], [ol] or [table]
    ancestor leaves the traversal state unchanged, so the traversal gives
    the same result on the elements without such an ancestor alone; a
    [table] element itself is never classified; and in a parsed document
    every emitted section is classified from an element of the scope that
    has no [ul], [ol] or [table] ancestor and is no [table].  The text of
    such a section is the trimmed text of all that the element contains,
    a table it encloses included. *)
Theorem nested_elements_are_skipped :
  (∀ st el name,
     name ∈ el_parents el -> is_container name = true -> visit st el = Normal st)
  ∧ (∀ els st,
       foldM visit els st = foldM visit (filter (fun el => ¬ skipped el) els) st)
  ∧ (∀ el, extractSectionByType el (lit "table") = Normal VNull)
  ∧ ∀ doc, parsed doc ->
      ∃ secs,
        extractSections doc = Normal secs
        ∧ ∀ s, s ∈ secs ->
            ∃ mc el,
              mainContent doc = Some mc ∧ el ∈ find_all mc
              ∧ (∀ name, name ∈ el_parents el -> is_container name = false)
              ∧ toLowerCase (el_name el) ≠ lit "table"
              ∧ extractSectionByType el (toLowerCase (el_name el)) = Normal s
              ∧ ∀ o c, s = VObject o -> content o = Some c ->
                       c = trim (flat_map textContent (el_children el)).
Proof.
  split.
  { intros st el name Hin Hc. apply visit_skipped, skipped_iff. eauto. }
  split.
  { induction els as [|el els IH]; intros st; [reflexivity|].
    destruct (decide (skipped el)) as [Hs|Hs].
    - rewrite filter_cons_False by (intros H; apply H, Hs).
      simpl. rewrite (visit_skipped _ _ Hs). simpl. apply IH.
    - rewrite filter_cons_True by exact Hs. simpl.
      destruct (visit st el); simpl; [apply IH|reflexivity]. }
  split; [exact extractSectionByType_table|].
  intros doc Hp. destruct (extraction_structure doc Hp) as (cands & Hc & He & Hor).
  exists (keep_new ∅ cands). split; [exact He|].
  intros s Hs. apply keep_new_elem_of, Hor in Hs as (mc & el & Hmc & Hel & Hsk & Ht & Hex).
  exists mc, el. split; [exact Hmc|]. split; [exact Hel|].
  split; [|split; [|split; [exact Hex|]]].
  - intros name Hin. destruct (is_container name) eqn:E; [|reflexivity].
    exfalso. apply Hsk, skipped_iff. eauto.
  - intros E. rewrite E, extractSectionByType_table in Hex.
    injection Hex as <-. discriminate.
  - destruct (extractSectionByType_classifies el _
                (toLowerCase_lowered _ (parsed_find_all doc mc Hp Hmc el Hel)))
      as (v & Hv & Hcl).
    rewrite Hex in Hv. injection Hv as <-.
    exact (classifies_content el _ s Hcl).
Qed.

Lemma nested_elements_are_skipped_witness :
  parsed table_page
  ∧ ∃ secs,
      extractSections table_page = Normal secs
      ∧ ∀ s, s ∈ secs ->
          ∃ mc el,
            mainContent table_page = Some mc ∧ el ∈ find_all mc
            ∧ (∀ name, name ∈ el_parents el -> is_container name = false)
            ∧ toLowerCase (el_name el) ≠ lit "table"
            ∧ extractSectionByType el (toLowerCase (el_name el)) = Normal s
            ∧ ∀ o c, s = VObject o -> content o = Some c ->
                     c = trim (flat_map textContent (el_children el)).
Proof.
  split; [exact parsed_table_page|].
  destruct nested_elements_are_skipped as (_ & _ & _ & H).
  exact (H table_page parsed_table_page).
Defined.

(** The paragraph inside the table is not extracted. *)
Example table_page_sections :
  extractSections table_page = Normal [VObject (paragraph "outside")].
Proof. vm_compute. reflexivity. Qed.

(** *** The invariant of the extracted sections *)

Lemma parsed_constructor_page : parsed constructor_page.
Proof. unfold parsed. simpl. repeat constructor. Qed.

(** Every section built by one of the extractors satisfies the invariant
    of the data model; the only other value the traversal can push is the
    empty object that an element named [constructor] yields. *)
Lemma extracted_sections_shape doc :
  parsed doc ->
  ∃ secs,
    extractSections doc = Normal secs
    ∧ ∀ s, s ∈ secs -> ∃ o, s = VObject o ∧ (Section_ok o ∨ o = empty_object).
Proof.
  intros Hp. destruct (extraction_structure doc Hp) as (cands & Hc & He & Hor).
  exists (keep_new ∅ cands). split; [exact He|].
  intros s Hs. apply keep_new_elem_of, Hor in Hs as (mc & el & Hmc & Hel & Ho).
  destruct (origin_shape el _ (parsed_find_all doc mc Hp Hmc el Hel) Ho)
    as (o & -> & Hs).
  exists o. split; [reflexivity|]. destruct Hs as [Hs|[Hs _]]; auto.
Qed.

(** C8 (data-model invariant), at the input where the code breaks it.
    The element [constructor] is no heading, paragraph, list or quote, yet
    the lookup in the table of extractors finds the inherited
    [Object.prototype.constructor]; calling it yields an empty object,
    which is pushed as a section although it has no type, no text and no
    items. *)
Theorem constructor_element_is_pushed :
  parsed constructor_page
  ∧ extractSections constructor_page = Normal [VObject empty_object]
  ∧ ¬ Section_ok empty_object.
Proof.
  split; [exact parsed_constructor_page|].
  split; [vm_compute; reflexivity|].
  intros H. inversion H.
Qed.

(** *** Renderers: dispatch on the section type *)

Ltac not_a_key H := exfalso; apply H; vm_compute; set_solver.

Ltac skip_key key k H :=
  destruct (decide (lit k = key)) as [<-|_]; [not_a_key H|].

(** A section whose type is neither an entry of the tables nor a name
    inherited from [Object.prototype] renders to the empty string in all
    three formats. *)
Lemma unknown_type_renders_empty section :
  property_key (type section) ∉ inherited_names ->
  (property_key (type section) ∉ html_types ->
   renderSection section = Normal (VString []))
  ∧ (property_key (type section) ∉ text_types ->
     renderSectionAsMarkdown section = Normal (VString [])
     ∧ renderSectionAsPlainText section = Normal (VString [])).
Proof.
  intros Hinh.
  assert (Hproto : assoc (property_key (type section)) Object_prototype = None).
  { revert Hinh. generalize (property_key (type section)). intros key Hinh.
    cbn [assoc Object_prototype].
    skip_key key "constructor"%string Hinh.
    skip_key key "__defineGetter__"%string Hinh.
    skip_key key "__defineSetter__"%string Hinh.
    skip_key key "hasOwnProperty"%string Hinh.
    skip_key key "__lookupGetter__"%string Hinh.
    skip_key key "__lookupSetter__"%string Hinh.
    skip_key key "isPrototypeOf"%string Hinh.
    skip_key key "propertyIsEnumerable"%string Hinh.
    skip_key key "toString"%string Hinh.
    skip_key key "valueOf"%string Hinh.
    skip_key key "__proto__"%string Hinh.
    skip_key key "toLocaleString"%string Hinh.
    reflexivity. }
  unfold renderSection, renderSectionAsMarkdown, renderSectionAsPlainText,
    render_with, optional_call.
  rewrite Hproto. generalize (property_key (type section)).
  intros key. cbn [assoc].
  split; [intros Hown|intros Hown; split].
  - skip_key key "h1"%string Hown. skip_key key "h2"%string Hown.
    skip_key key "h3"%string Hown. skip_key key "h4"%string Hown.
    skip_key key "paragraph"%string Hown. skip_key key "bullet-list"%string Hown.
    skip_key key "numbered-list"%string Hown. skip_key key "quote"%string Hown.
    reflexivity.
  - skip_key key "h1"%string Hown. skip_key key "h2"%string Hown.
    skip_key key "h3"%string Hown. skip_key key "h4"%string Hown.
    skip_key key "h5"%string Hown. skip_key key "h6"%string Hown.
    skip_key key "paragraph"%string Hown. skip_key key "bullet-list"%string Hown.
    skip_key key "numbered-list"%string Hown. skip_key key "quote"%string Hown.
    reflexivity.
  - skip_key key "h1"%string Hown. skip_key key "h2"%string Hown.
    skip_key key "h3"%string Hown. skip_key key "h4"%string Hown.
    skip_key key "h5"%string Hown. skip_key key "h6"%string Hown.
    skip_key key "paragraph"%string Hown. skip_key key "bullet-list"%string Hown.
    skip_key key "numbered-list"%string Hown. skip_key key "quote"%string Hown.
    reflexivity.
Qed.

(** The test of the repository: an unknown type renders to the empty
    string. *)
Example unknown_renders_empty :
  renderSection (heading "unknown" "Test") = Normal (VString []).
Proof. reflexivity. Qed.

(** C9 (unknown section variant), at inputs where the code breaks it.
    The types [toString], [constructor] and [__proto__] are entries of no
    table of renderers, but the lookup finds the members inherited from
    [Object.prototype]: for [toString] every renderer returns the text
    [[object Object]], for [constructor] it returns the section object
    itself, and for [__proto__] it throws a [TypeError]; none returns the
    empty string. *)
Theorem inherited_type_is_not_ignored :
  ((lit "toString" ∉ text_types) ∧ (lit "constructor" ∉ text_types)
   ∧ (lit "__proto__" ∉ text_types))
  ∧ (renderSection (heading "toString" "x") = Normal (VString object_Object)
     ∧ renderSectionAsMarkdown (heading "toString" "x") = Normal (VString object_Object)
     ∧ renderSectionAsPlainText (heading "toString" "x") = Normal (VString object_Object))
  ∧ (renderSection (heading "constructor" "x") = Normal (VObject (heading "constructor" "x"))
     ∧ renderSectionAsMarkdown (heading "constructor" "x")
       = Normal (VObject (heading "constructor" "x"))
     ∧ renderSectionAsPlainText (heading "constructor" "x")
       = Normal (VObject (heading "constructor" "x")))
  ∧ (renderSection (heading "__proto__" "x") = Throw TypeError
     ∧ renderSectionAsMarkdown (heading "__proto__" "x") = Throw TypeError
     ∧ renderSectionAsPlainText (heading "__proto__" "x") = Throw TypeError).
Proof.
  split.
  { repeat split; vm_compute; intros H;
      repeat (apply elem_of_cons in H as [H|H]; [discriminate|]); inversion H. }
  repeat split; vm_compute; reflexivity.
Qed.

(** *** Renderers: the heading levels *)

(** C2 (format symmetry), at the input where the code breaks it.  For a
    heading of level 5 or 6 the Markdown and the plain-text renderer
    produce a line, and the HTML renderer, whose table stops at [h4],
    produces the empty string; in a document the heading is present in
    the Markdown and plain-text output and absent from the HTML output. *)
Theorem html_drops_h5_and_h6 (c : str) :
  (let section := {| type := Some (lit "h5"); content := Some c; items := None |} in
   renderSection section = Normal (VString [])
   ∧ renderSectionAsMarkdown section = Normal (VString (lit "##### " ++ c ++ nl))
   ∧ renderSectionAsPlainText section = Normal (VString (c ++ nl)))
  ∧ (let section := {| type := Some (lit "h6"); content := Some c; items := None |} in
     renderSection section = Normal (VString [])
     ∧ renderSectionAsMarkdown section = Normal (VString (lit "###### " ++ c ++ nl))
     ∧ renderSectionAsPlainText section = Normal (VString (c ++ nl)))
  ∧ (let doc := sample_content [heading "h5" "Deep"] in
     ∃ html md text,
       generateHTML day_15 doc (Options None) = Normal html
       ∧ generateMarkdown day_15 doc (Options None) = Normal md
       ∧ generatePlainText day_15 doc (Options None) = Normal text
       ∧ contains (lit "Deep") html = false
       ∧ contains (lit "##### Deep") md = true
       ∧ contains (lit "Deep") text = true).
Proof.
  cbv zeta. repeat split; try reflexivity; try (destruct c; reflexivity).
  eexists. eexists. eexists.
  split; [vm_compute; reflexivity|].
  split; [vm_compute; reflexivity|].
  split; [vm_compute; reflexivity|].
  repeat split; vm_compute; reflexivity.
Qed.

(** *** Where the three formats agree *)

Lemma or_else_string s : or_else (VString s) (VString []) = VString s.
Proof. unfold or_else. destruct s; reflexivity. Qed.

Lemma app_cons_nonempty (s : str) a x : s ++ a :: x ≠ [].
Proof. destruct s; discriminate. Qed.

(** A section whose type is an entry of the table is rendered by that
    entry. *)
Lemma render_with_own renderers k f o :
  property_key (type o) = k -> assoc k renderers = Some f ->
  render_with renderers o = let! s := f o in Normal (VString s).
Proof.
  intros Hk Hf. unfold render_with, optional_call. rewrite Hk, Hf.
  destruct (f o) as [s|]; [|reflexivity]. cbn [bind]. rewrite or_else_string. reflexivity.
Qed.

Ltac by_entry :=
  erewrite render_with_own; [|reflexivity|reflexivity].

Lemma app_nl_nonempty (s : str) : s ++ nl ≠ [].
Proof. apply app_cons_nonempty. Qed.

Ltac nonempty :=
  first [ apply app_nl_nonempty
        | apply app_cons_nonempty
        | let E := fresh in intros E; vm_compute in E; discriminate E ].

Lemma html_list_result open close t l :
  ∃ lis, html_list open close {| type := t; content := None; items := Some l |}
         = Normal (open ++ join [] lis ++ close).
Proof.
  unfold html_list. cbn [array_of items bind].
  destruct (mapM_total
              (fun item => let! e := escapeHtml (Some item) in
                           Normal (lit "<li>" ++ e ++ lit "</li>")) l) as [lis ->].
  { intros x _. eexists. reflexivity. }
  exists lis. reflexivity.
Qed.

(** A well-formed section of a type the HTML table has an entry for is
    rendered to a non-empty text by every renderer. *)
Lemma html_types_render_everywhere o t :
  well_formed o -> type o = Some t -> t ∈ html_types ->
  ∃ h m p,
    renderSection o = Normal (VString h) ∧ h ≠ []
    ∧ renderSectionAsMarkdown o = Normal (VString m) ∧ m ≠ []
    ∧ renderSectionAsPlainText o = Normal (VString p) ∧ p ≠ [].
Proof.
  intros [(t' & c & -> & Hwf)|(t' & l & -> & Hwf)] [= ->] Ht;
    unfold html_types in Ht;
    unfold renderSection, renderSectionAsMarkdown, renderSectionAsPlainText.
  - repeat (apply elem_of_cons in Ht as [->|Ht];
      [ first
          [ solve
              [ do 3 eexists; do 3 by_entry;
                unfold html_element, md_line, underlined;
                cbn [escapeHtml length_of content bind template];
                repeat split; first [reflexivity|nonempty] ]
          | exfalso; vm_compute in Hwf;
            repeat (apply elem_of_cons in Hwf as [Hwf|Hwf]; [discriminate Hwf|]);
            inversion Hwf ]
      | ]).
    inversion Ht.
  - assert (Hul := λ t, html_list_result (lit "<ul>") (lit "</ul>") t l).
    assert (Hol := λ t, html_list_result (lit "<ol>") (lit "</ol>") t l).
    repeat (apply elem_of_cons in Ht as [->|Ht];
      [ first
          [ solve
              [ destruct (Hul (Some (lit "bullet-list"))) as [lis1 E1];
                destruct (Hol (Some (lit "numbered-list"))) as [lis2 E2];
                do 3 eexists; do 3 by_entry;
                rewrite ?E1, ?E2; cbn [array_of items bind];
                repeat split; first [reflexivity|nonempty] ]
          | exfalso; vm_compute in Hwf;
            repeat (apply elem_of_cons in Hwf as [Hwf|Hwf]; [discriminate Hwf|]);
            inversion Hwf ]
      | ]).
    inversion Ht.
Qed.

(** Scenario C of the specification: an unordered list in Markdown. *)
Example scenario_C_markdown :
  extractSections scenario_C = Normal [VObject (bullet_list ["X"; "Y"])]
  ∧ renderSectionAsMarkdown (bullet_list ["X"; "Y"])
    = Normal (VString (lit "- X" ++ nl ++ lit "- Y" ++ nl)).
Proof. split; vm_compute; reflexivity. Qed.

(** Scenario E of the specification: a quote in the three formats. *)
Example scenario_E_quote :
  let quote := {| type := Some (lit "quote"); content := Some (lit "Stay hungry");
                  items := None |} in
  extractSections scenario_E = Normal [VObject quote]
  ∧ renderSectionAsMarkdown quote = Normal (VString (lit "> Stay hungry" ++ nl))
  ∧ renderSectionAsPlainText quote
    = Normal (VString (lit "  " ++ dq ++ lit "Stay hungry" ++ dq ++ nl))
  ∧ renderSection quote
    = Normal (VString (lit "<blockquote>Stay hungry</blockquote>")).
Proof. cbv zeta. repeat split; vm_compute; reflexivity. Qed.

(** *** Occurrences of a text *)

Lemma starts_with_app p b : starts_with p (p ++ b) = true.
Proof. induction p as [|a p IH]; simpl; [reflexivity|]. rewrite N.eqb_refl. exact IH. Qed.

Lemma starts_with_app_l p s b : starts_with p s = true -> starts_with p (s ++ b) = true.
Proof.
  revert s. induction p as [|a p IH]; intros s; simpl; [reflexivity|].
  destruct s as [|c r]; simpl; [discriminate|].
  intros [H1 H2]%andb_true_iff. rewrite H1. simpl. apply IH, H2.
Qed.

Lemma contains_here p s : starts_with p s = true -> contains p s = true.
Proof. destruct s; simpl; intros ->; reflexivity. Qed.

Lemma contains_app_r p a s : contains p s = true -> contains p (a ++ s) = true.
Proof.
  intros H. induction a as [|c a IH]; simpl; [exact H|].
  rewrite IH. apply orb_true_r.
Qed.

Lemma contains_app_l p s b : contains p s = true -> contains p (s ++ b) = true.
Proof.
  induction s as [|c r IH].
  - simpl. intros H. apply contains_here. destruct p; [reflexivity|discriminate].
  - change (contains p (c :: r)) with (starts_with p (c :: r) || contains p r).
    change (contains p ((c :: r) ++ b))
      with (starts_with p ((c :: r) ++ b) || contains p (r ++ b)).
    intros [H|H]%orb_true_iff.
    + rewrite (starts_with_app_l p (c :: r) b H). reflexivity.
    + rewrite (IH H). apply orb_true_r.
Qed.

Lemma contains_middle p a b : contains p (a ++ p ++ b) = true.
Proof. apply contains_app_r, contains_here, starts_with_app. Qed.

(** *** The footer *)

Lemma Normal_inj {A} (a b : A) : Normal a = Normal b -> a = b.
Proof. intros [= H]. exact H. Qed.

Lemma renderFooter_has_element footerText :
  ∃ f, renderFooter footerText = Normal f ∧ contains footer_element f = true.
Proof.
  unfold renderFooter, escapeHtml. cbn [bind]. eexists. split; [reflexivity|].
  rewrite !app_assoc. do 2 apply contains_app_l. vm_compute. reflexivity.
Qed.

(** The HTML generator emits the footer element whatever the options. *)
Lemma generateHTML_has_footer now doc options html :
  generateHTML now doc options = Normal html ->
  contains footer_element html = true.
Proof.
  unfold generateHTML.
  destruct (escapeHtml (Some (title doc))) as [t|]; [|discriminate].
  destruct (renderHeader now doc) as [h|]; [|discriminate].
  destruct (renderSections (sections doc)) as [b|]; [|discriminate].
  destruct (renderFooter_has_element (footerText options)) as (f & -> & Hf).
  cbn [bind]. intros H. apply Normal_inj in H. subst html.
  rewrite !app_assoc. apply contains_app_l, contains_app_r, Hf.
Qed.

(** The Markdown and the plain-text generator append the footer exactly
    when a non-empty text is given, and then once, after the sections. *)
Lemma generateMarkdown_footer now doc footer :
  generateMarkdown now doc (Options (Some footer)) =
  let! md := generateMarkdown now doc (Options None) in
  Normal (if bool_decide (footer = []) then md
          else md ++ nl ++ lit "---" ++ nl ++ nl ++ footer ++ nl).
Proof.
  unfold generateMarkdown, footer_given. cbn [footerText template].
  destruct (mapM renderSectionAsMarkdown (sections doc)); [|reflexivity].
  cbn [bind truthy]. destruct (bool_decide (footer = [])); reflexivity.
Qed.

Lemma generatePlainText_footer now doc footer :
  generatePlainText now doc (Options (Some footer)) =
  let! text := generatePlainText now doc (Options None) in
  Normal (if bool_decide (footer = []) then text
          else text ++ nl ++ repeat_str box_light_horizontal 50 ++ nl ++ nl
                    ++ footer ++ nl).
Proof.
  unfold generatePlainText, footer_given. cbn [footerText template].
  destruct (mapM renderSectionAsPlainText (sections doc)); [|reflexivity].
  cbn [bind truthy]. destruct (bool_decide (footer = [])); reflexivity.
Qed.

(** C3 (footer only when given), at the input where the code breaks it.
    With an empty footer text, and with none, the HTML generator still
    emits the footer element (an empty paragraph inside the separated
    footer block), while the Markdown and the plain-text generator emit
    no footer. *)
Theorem html_footer_without_text :
  let doc := sample_content [heading "h1" "Main Heading"] in
  (∃ html, generateHTML day_15 doc (Options (Some [])) = Normal html
           ∧ contains footer_element html = true)
  ∧ (∃ html, generateHTML day_15 doc (Options None) = Normal html
             ∧ contains footer_element html = true)
  ∧ (∃ md, generateMarkdown day_15 doc (Options (Some [])) = Normal md
           ∧ contains (lit "---") md = false)
  ∧ (∃ text, generatePlainText day_15 doc (Options (Some [])) = Normal text
             ∧ contains box_light_horizontal text = false).
Proof.
  cbv zeta. repeat split; eexists; (split; [vm_compute; reflexivity|]);
    vm_compute; reflexivity.
Qed.

(** Scenario D of the specification for a non-empty footer text. *)
Example footer_given_once :
  let doc := sample_content [heading "h1" "Main Heading"] in
  generateMarkdown day_15 doc (Options (Some (lit "Acme")))
  = (let! md := generateMarkdown day_15 doc (Options None) in
     Normal (md ++ nl ++ lit "---" ++ nl ++ nl ++ lit "Acme" ++ nl)).
Proof. cbv zeta. rewrite generateMarkdown_footer. reflexivity. Qed.

(** *** The generation date *)

(** [occurs_between a b]: the searched text stands between [a] and [b]. *)
Ltac occurs_between a b :=
  match goal with
  | |- contains ?p ?s = true =>
      replace s with (a ++ p ++ b) by (repeat rewrite <- app_assoc; reflexivity);
      apply contains_middle
  end.

(** Scenario of the tests: the fifteenth of January 2025. *)
Example formatDate_sample :
  formatDate day_15 = lit "15. Januar 2025".
Proof. reflexivity. Qed.

(** C4 as stated fails: the same content record and options, rendered on
    two different days, give different output in every format. *)
Lemma renders_differ_between_days :
  let doc := sample_content [heading "h1" "Main Heading"] in
  generateHTML day_15 doc (Options None) ≠ generateHTML day_16 doc (Options None)
  ∧ generateMarkdown day_15 doc (Options None) ≠ generateMarkdown day_16 doc (Options None)
  ∧ generatePlainText day_15 doc (Options None) ≠ generatePlainText day_16 doc (Options None).
Proof.
  cbv zeta. repeat split; intros H; vm_compute in H; discriminate H.
Qed.

(** C4 (generation date), amended.  Every renderer displays the date of
    the clock reading [now] taken at render time and never reads the
    captured timestamp: the output is the same for content records that
    differ only in [scrapedAt], and two renders of one content record with
    the same options are identical whenever their clock readings format
    to the same date. *)
Theorem renders_use_the_render_date (doc : content_t) (options : options_t) :
  (∀ now ts,
     generateHTML now (with_scrapedAt ts doc) options = generateHTML now doc options
     ∧ generateMarkdown now (with_scrapedAt ts doc) options
       = generateMarkdown now doc options
     ∧ generatePlainText now (with_scrapedAt ts doc) options
       = generatePlainText now doc options)
  ∧ (∀ now1 now2,
       formatDate now1 = formatDate now2 ->
       generateHTML now1 doc options = generateHTML now2 doc options
       ∧ generateMarkdown now1 doc options = generateMarkdown now2 doc options
       ∧ generatePlainText now1 doc options = generatePlainText now2 doc options)
  ∧ (∀ now md,
       generateMarkdown now doc options = Normal md ->
       contains (lit "**Generated:** " ++ formatDate now ++ nl) md = true).
Proof.
  split; [intros now ts; repeat split; reflexivity|].
  split.
  - intros now1 now2 H.
    unfold generateHTML, renderHeader, generateMarkdown, generatePlainText.
    rewrite H. repeat split; reflexivity.
  - intros now md. unfold generateMarkdown.
    destruct (mapM renderSectionAsMarkdown (sections doc)) as [r|]; [|discriminate].
    cbn [bind]. intros H. apply Normal_inj in H. subst md.
    destruct (footer_given options).
    + occurs_between
        (lit "# " ++ title doc ++ nl ++ nl ++ lit "**Source:** " ++ url (metadata doc) ++ nl)
        (nl ++ join nl (map join_item r) ++ nl ++ lit "---" ++ nl ++ nl
            ++ template (footerText options) ++ nl).
    + occurs_between
        (lit "# " ++ title doc ++ nl ++ nl ++ lit "**Source:** " ++ url (metadata doc) ++ nl)
        (nl ++ join nl (map join_item r)).
Qed.

Lemma renders_use_the_render_date_witness :
  (formatDate day_15 = formatDate day_15
   ∧ generateHTML day_15 (sample_content []) (Options None)
     = generateHTML day_15 (sample_content []) (Options None))
  ∧ ∃ md, generateMarkdown day_15 (sample_content []) (Options None) = Normal md
          ∧ contains (lit "**Generated:** 15. Januar 2025" ++ nl) md = true.
Proof.
  destruct (renders_use_the_render_date (sample_content []) (Options None))
    as (_ & Hsame & Hdate).
  split.
  - split; [reflexivity|]. apply (Hsame day_15 day_15). reflexivity.
  - eexists. split; [reflexivity|]. apply (Hdate day_15). reflexivity.
Defined.

(** *** Escaping *)









Lemma unescape_escape_char c rest :
  unescape_from 0 (escape_char c ++ rest) = c :: unescape_from 0 rest.
Proof.
  unfold escape_char.
  destruct (c =? 38) eqn:E1; [apply N.eqb_eq in E1; subst c; reflexivity|].
  destruct (c =? 60) eqn:E2; [apply N.eqb_eq in E2; subst c; reflexivity|].
  destruct (c =? 62) eqn:E3; [apply N.eqb_eq in E3; subst c; reflexivity|].
  destruct (c =? 34) eqn:E4; [apply N.eqb_eq in E4; subst c; reflexivity|].
  destruct (c =? 39) eqn:E5; [apply N.eqb_eq in E5; subst c; reflexivity|].
  change ([c] ++ rest) with (c :: rest).
  cbn [unescape_from]. unfold entity_at.
  assert (H : ∀ p, starts_with (38 :: p) (c :: rest) = false).
  { intros p. cbn [starts_with]. rewrite N.eqb_sym, E1. reflexivity. }
  change (lit "&amp;") with (38 :: lit "amp;").
  change (lit "&lt;") with (38 :: lit "lt;").
  change (lit "&gt;") with (38 :: lit "gt;").
  change (lit "&quot;") with (38 :: lit "quot;").
  change (lit "&#039;") with (38 :: lit "#039;").
  rewrite !H. reflexivity.
Qed.

Lemma unescape_escape text : unescapeHtml (replace_special text) = text.
Proof.
  unfold unescapeHtml. induction text as [|c r IH]; [reflexivity|].
  change (replace_special (c :: r)) with (escape_char c ++ replace_special r).
  rewrite unescape_escape_char, IH. reflexivity.
Qed.

(** The example of the tests. *)
Example escapeHtml_script :
  escapeHtml (Some (lit "<script>alert(" ++ dq ++ lit "xss" ++ dq ++ lit ")</script>"))
  = Normal (lit "&lt;script&gt;alert(&quot;xss&quot;)&lt;/script&gt;").
Proof. reflexivity. Qed.


















(** A well-formed section is rendered without an error. *)
Lemma renderSection_total o : well_formed o -> ∃ v, renderSection o = Normal v.
Proof.
  intros [(t & c & -> & Ht)|(t & l & -> & Ht)].
  - vm_compute in Ht.
    repeat (apply elem_of_cons in Ht as [->|Ht]; [eexists; reflexivity|]).
    inversion Ht.
  - assert (Hl : ∀ open close,
              ∃ r, html_list open close
                     {| type := Some t; content := None; items := Some l |} = Normal r).
    { intros open close. unfold html_list. cbn [array_of items bind].
      destruct (mapM_total
                  (fun item => let! e := escapeHtml (Some item) in
                               Normal (lit "<li>" ++ e ++ lit "</li>")) l) as [lis ->].
      { intros x _. eexists. reflexivity. }
      eexists. reflexivity. }
    vm_compute in Ht.
    apply elem_of_cons in Ht as [->|Ht].
    { destruct (Hl (lit "<ul>") (lit "</ul>")) as [r Hr]. eexists.
      unfold renderSection, render_with, optional_call.
      change (assoc _ _) with (Some (html_list (lit "<ul>") (lit "</ul>"))) at 1.
      cbn beta iota. rewrite Hr. reflexivity. }
    apply elem_of_cons in Ht as [->|Ht]; [|inversion Ht].
    destruct (Hl (lit "<ol>") (lit "</ol>")) as [r Hr]. eexists.
    unfold renderSection, render_with, optional_call.
    change (assoc _ _) with (Some (html_list (lit "<ol>") (lit "</ol>"))) at 1.
    cbn beta iota. rewrite Hr. reflexivity.
Qed.





(* ===================================================================== *)
(** ** Further properties *)
(* ===================================================================== *)

(** *** More on escaping *)

Lemma escape_char_special c :
  is_special c = true -> ∃ r, escape_char c = 38 :: r ∧ r ≠ [].
Proof.
  unfold is_special, escape_char.
  destruct (c =? 38); [intros _; eexists; split; [reflexivity|discriminate]|].
  destruct (c =? 60); [intros _; eexists; split; [reflexivity|discriminate]|].
  destruct (c =? 62); [intros _; eexists; split; [reflexivity|discriminate]|].
  destruct (c =? 34); [intros _; eexists; split; [reflexivity|discriminate]|].
  destruct (c =? 39); [intros _; eexists; split; [reflexivity|discriminate]|].
  discriminate.
Qed.

Lemma escape_char_plain c : is_special c = false -> escape_char c = [c].
Proof.
  unfold is_special, escape_char.
  destruct (c =? 38); [discriminate|]. destruct (c =? 60); [discriminate|].
  destruct (c =? 62); [discriminate|]. destruct (c =? 34); [discriminate|].
  destruct (c =? 39); [discriminate|]. reflexivity.
Qed.

Lemma escape_char_chars c x :
  x ∈ escape_char c -> x ≠ 60 ∧ x ≠ 62 ∧ x ≠ 34 ∧ x ≠ 39.
Proof.
  unfold escape_char.
  destruct (c =? 38) eqn:E1;
    [intros H; vm_compute in H;
     repeat (apply elem_of_cons in H as [->|H]; [repeat split; discriminate|]);
     inversion H|].
  destruct (c =? 60) eqn:E2;
    [intros H; vm_compute in H;
     repeat (apply elem_of_cons in H as [->|H]; [repeat split; discriminate|]);
     inversion H|].
  destruct (c =? 62) eqn:E3;
    [intros H; vm_compute in H;
     repeat (apply elem_of_cons in H as [->|H]; [repeat split; discriminate|]);
     inversion H|].
  destruct (c =? 34) eqn:E4;
    [intros H; vm_compute in H;
     repeat (apply elem_of_cons in H as [->|H]; [repeat split; discriminate|]);
     inversion H|].
  destruct (c =? 39) eqn:E5;
    [intros H; vm_compute in H;
     repeat (apply elem_of_cons in H as [->|H]; [repeat split; discriminate|]);
     inversion H|].
  intros H. apply list_elem_of_singleton in H. subst x.
  apply N.eqb_neq in E2, E3, E4, E5. repeat split; assumption.
Qed.

(** X1.  Escaped text holds none of the characters less-than,
    greater-than, double quote and apostrophe, whatever the input: it can
    close neither an element nor a quoted attribute value. *)
Theorem escaped_text_has_no_markup_character (text : str) :
  Forall (fun x => x ≠ 60 ∧ x ≠ 62 ∧ x ≠ 34 ∧ x ≠ 39) (replace_special text).
Proof.
  apply Forall_forall. intros x.
  induction text as [|c r IH]; [intros H; inversion H|].
  change (replace_special (c :: r)) with (escape_char c ++ replace_special r).
  intros [H|H]%elem_of_app; [eapply escape_char_chars, H|apply IH, H].
Qed.

Lemma replace_special_length text : (length text <= length (replace_special text))%nat.
Proof.
  induction text as [|c r IH]; [reflexivity|].
  change (replace_special (c :: r)) with (escape_char c ++ replace_special r).
  rewrite length_app. simpl.
  assert (1 <= length (escape_char c))%nat; [|lia].
  destruct (is_special c) eqn:E.
  - destruct (escape_char_special c E) as (x & -> & _). simpl. lia.
  - rewrite (escape_char_plain c E). simpl. lia.
Qed.

Lemma replace_special_same_length text :
  length (replace_special text) = length text ->
  Forall (fun c => is_special c = false) text.
Proof.
  induction text as [|c r IH]; [constructor|].
  change (replace_special (c :: r)) with (escape_char c ++ replace_special r).
  rewrite length_app. simpl. intros H.
  pose proof (replace_special_length r) as Hr.
  destruct (is_special c) eqn:E.
  - destruct (escape_char_special c E) as (x & Hx & Hne). rewrite Hx in H.
    destruct x; [contradiction|]. simpl in H. lia.
  - rewrite (escape_char_plain c E) in H. simpl in H.
    constructor; [exact E|apply IH; lia].
Qed.

Lemma replace_special_plain text :
  Forall (fun c => is_special c = false) text -> replace_special text = text.
Proof.
  induction 1 as [|c r Hc _ IH]; [reflexivity|].
  change (replace_special (c :: r)) with (escape_char c ++ replace_special r).
  rewrite (escape_char_plain c Hc), IH. reflexivity.
Qed.

Lemma replace_special_keeps_special text :
  Forall (fun c => is_special c = false) (replace_special text) ->
  Forall (fun c => is_special c = false) text.
Proof.
  induction text as [|c r IH]; [constructor|].
  change (replace_special (c :: r)) with (escape_char c ++ replace_special r).
  intros [H1 H2]%Forall_app. constructor; [|apply IH, H2].
  destruct (is_special c) eqn:E; [|reflexivity].
  destruct (escape_char_special c E) as (x & Hx & _). rewrite Hx in H1.
  apply Forall_cons in H1 as [H1 _]. discriminate H1.
Qed.

(** X2.  Escaping leaves a text unchanged exactly when the text has none
    of the five characters; it never shortens a text; it is one-to-one;
    and it is not idempotent: escaping twice gives the same as escaping
    once only for the texts escaping leaves unchanged. *)
Theorem escaping_fixed_points (text : str) :
  (replace_special text = text ↔ Forall (fun c => is_special c = false) text)
  ∧ (length text <= length (replace_special text))%nat
  ∧ (∀ other, replace_special text = replace_special other -> text = other)
  ∧ (replace_special (replace_special text) = replace_special text
     ↔ replace_special text = text).
Proof.
  assert (Hfix : ∀ t, replace_special t = t ↔ Forall (fun c => is_special c = false) t).
  { intros t. split; [|apply replace_special_plain].
    intros H. apply replace_special_same_length. rewrite H. reflexivity. }
  split; [apply Hfix|]. split; [apply replace_special_length|]. split.
  - intros other H. rewrite <- (unescape_escape text), <- (unescape_escape other), H.
    reflexivity.
  - split.
    + intros H. apply Hfix, replace_special_keeps_special, Hfix, H.
    + intros H. rewrite H. exact H.
Qed.

(** The sample of the tests: escaping it twice escapes the ampersands of
    the first pass. *)
Example double_escape :
  replace_special (replace_special (lit "It's & that"))
  = lit "It&amp;#039;s &amp;amp; that".
Proof. reflexivity. Qed.

(** *** More on the identity key *)

Lemma colon_split (t1 t2 x y : str) :
  58 ∉ t1 -> 58 ∉ t2 -> t1 ++ 58 :: x = t2 ++ 58 :: y -> t1 = t2 ∧ x = y.
Proof.
  revert t2. induction t1 as [|a t1 IH]; intros [|b t2] H1 H2 E; simpl in E.
  - injection E as <-. split; reflexivity.
  - exfalso. injection E as <- _. apply H2. left.
  - exfalso. injection E as -> _. apply H1. left.
  - injection E as <- E.
    destruct (IH t2) as [-> ->]; [| |exact E|split; reflexivity].
    + intros H. apply H1. right. exact H.
    + intros H. apply H2. right. exact H.
Qed.

Lemma Section_ok_key o :
  Section_ok o ->
  ∃ t, type o = Some t ∧ t ∈ text_types ∧ (58 ∉ t)
       ∧ key_of (VObject o) = t ++ 58 :: payload o.
Proof.
  intros [t c Ht [Hne _]|c _ Hlen|t l Ht _ _|c [Hne _]].
  - exists t. split; [reflexivity|]. split; [|split].
    + unfold text_types. apply elem_of_app. left. exact Ht.
    + vm_compute in Ht.
      repeat (apply elem_of_cons in Ht as [->|Ht];
              [vm_compute; intros H;
               repeat (apply elem_of_cons in H as [H|H]; [discriminate H|]);
               inversion H|]).
      inversion Ht.
    + apply key_of_content, Hne.
  - exists (lit "paragraph"). split; [reflexivity|]. split; [|split].
    + vm_compute. set_solver.
    + vm_compute. intros H.
      repeat (apply elem_of_cons in H as [H|H]; [discriminate H|]). inversion H.
    + apply key_of_content. intros ->. vm_compute in Hlen. lia.
  - exists t. split; [reflexivity|]. split; [|split].
    + destruct Ht as [-> | ->]; vm_compute; set_solver.
    + destruct Ht as [-> | ->]; vm_compute; intros H;
        repeat (apply elem_of_cons in H as [H|H]; [discriminate H|]); inversion H.
    + apply key_of_items.
  - exists (lit "quote"). split; [reflexivity|]. split; [|split].
    + vm_compute. set_solver.
    + vm_compute. intros H.
      repeat (apply elem_of_cons in H as [H|H]; [discriminate H|]). inversion H.
    + apply key_of_content, Hne.
Qed.

Lemma Section_ok_payload o :
  Section_ok o ->
  (∃ t c, o = {| type := Some t; content := Some c; items := None |})
  ∨ (is_list o ∧ ∃ t l, o = {| type := Some t; content := None; items := Some l |}).
Proof.
  intros [t c Ht _|c _ _|t l Ht _ _|c _]; eauto.
  right. split; [|eauto]. unfold is_list. cbn [type]. destruct Ht as [-> | ->]; auto.
Qed.

Lemma content_section_not_list t c its :
  Section_ok {| type := Some t; content := Some c; items := its |} ->
  ¬ is_list {| type := Some t; content := Some c; items := its |}.
Proof.
  intros H [L|L]; cbn [type] in L; injection L as ->; inversion H as [t' c' Ht _| | |];
    vm_compute in Ht;
    repeat (apply elem_of_cons in Ht as [Ht|Ht]; [discriminate Ht|]); inversion Ht.
Qed.

Lemma same_key_same_section (o1 o2 : object) :
  Section_ok o1 -> Section_ok o2 ->
  key_of (VObject o1) = key_of (VObject o2) ->
  (o1 = o2 ∨ (is_list o1 ∧ is_list o2 ∧ type o1 = type o2))
  ∧ key_of (VObject o1) ≠ key_of (VObject empty_object).
Proof.
  intros H1 H2 E.
  destruct (Section_ok_key o1 H1) as (t1 & Ht1 & Hin1 & Hc1 & K1).
  destruct (Section_ok_key o2 H2) as (t2 & Ht2 & Hin2 & Hc2 & K2).
  split.
  - rewrite K1, K2 in E. apply colon_split in E as [-> Ep]; [|assumption..].
    destruct (Section_ok_payload o1 H1) as [(t & c & ->)|(L1 & t & l & ->)];
      destruct (Section_ok_payload o2 H2) as [(t' & c' & ->)|(L2 & t' & l' & ->)];
      cbn [type payload content items] in *.
    + left. congruence.
    + exfalso. apply (content_section_not_list _ _ _ H1).
      destruct L2 as [L2|L2]; unfold is_list; cbn [type] in *; [left|right]; congruence.
    + exfalso. apply (content_section_not_list _ _ _ H2).
      destruct L1 as [L1|L1]; unfold is_list; cbn [type] in *; [left|right]; congruence.
    + right. split; [exact L1|]. split; [exact L2|]. congruence.
  - rewrite K1. change (key_of (VObject empty_object)) with (lit "undefined" ++ 58 :: []).
    intros E'. apply colon_split in E' as [-> _]; [| exact Hc1 |].
    + vm_compute in Hin1.
      repeat (apply elem_of_cons in Hin1 as [Hin1|Hin1]; [discriminate Hin1|]).
      inversion Hin1.
    + vm_compute. intros H.
      repeat (apply elem_of_cons in H as [H|H]; [discriminate H|]). inversion H.
Qed.

(** X3.  The identity key tells apart all sections that satisfy the
    data-model invariant, except lists of the same kind whose items join to
    the same text: two such sections with the same key are equal, or are
    both lists.  The key of the empty object is shared by none of them. *)
Theorem keys_identify_text_sections (o1 o2 : object) :
  Section_ok o1 -> Section_ok o2 ->
  key_of (VObject o1) = key_of (VObject o2) ->
  (o1 = o2 ∨ (is_list o1 ∧ is_list o2 ∧ type o1 = type o2))
  ∧ key_of (VObject o1) ≠ key_of (VObject empty_object).
Proof. apply same_key_same_section. Qed.

Lemma heading_S_ok : Section_ok (heading "h2" "S").
Proof.
  apply Heading_ok; [vm_compute; set_solver|]. split; [discriminate|reflexivity].
Qed.

Lemma keys_identify_text_sections_witness :
  Section_ok (heading "h2" "S")
  ∧ key_of (VObject (heading "h2" "S")) = key_of (VObject (heading "h2" "S"))
  ∧ key_of (VObject (heading "h2" "S")) ≠ key_of (VObject empty_object).
Proof.
  split; [exact heading_S_ok|]. split; [reflexivity|].
  apply (keys_identify_text_sections (heading "h2" "S") (heading "h2" "S")
           heading_S_ok heading_S_ok eq_refl).
Defined.

(** *** What deduplication can lose *)

(** X4.  Deduplication drops a classified section only when an equal
    section is kept, lists excepted: in a parsed document every classified
    section is among the emitted sections itself, or it is a list and an
    emitted list of the same kind has its key. *)
Theorem only_lists_are_lost (doc : list node) :
  parsed doc ->
  ∃ cands secs,
    classified doc = Normal cands ∧ extractSections doc = Normal secs
    ∧ ∀ s, s ∈ cands ->
        s ∈ secs
        ∨ ∃ o o', s = VObject o ∧ VObject o' ∈ secs
                  ∧ is_list o ∧ is_list o' ∧ type o = type o'
                  ∧ key_of (VObject o) = key_of (VObject o').
Proof.
  intros Hp. destruct (classified_shapes doc Hp) as (cands & Hc & He & Hshape).
  exists cands, (keep_new ∅ cands). split; [exact Hc|]. split; [exact He|].
  intros s Hs.
  destruct (keep_new_covers cands ∅ s Hs) as [H|H];
    [exfalso; revert H; apply not_elem_of_empty|].
  apply list_elem_of_fmap in H as (s' & Hk & Hs').
  destruct (Hshape s Hs) as (o & -> & Ho).
  destruct (Hshape s' (keep_new_elem_of _ _ _ Hs')) as (o' & -> & Ho').
  destruct Ho as [Ho| ->], Ho' as [Ho'| ->].
  - destruct (same_key_same_section o o' Ho Ho' Hk) as [[->|(L & L' & Ht)] _].
    + left. exact Hs'.
    + right. exists o, o'. repeat split; assumption.
  - exfalso. apply (same_key_same_section o o Ho Ho eq_refl). exact Hk.
  - exfalso. apply (same_key_same_section o' o' Ho' Ho' eq_refl). symmetry. exact Hk.
  - left. exact Hs'.
Qed.

Lemma only_lists_are_lost_witness :
  parsed scenario_A
  ∧ ∃ cands secs,
      classified scenario_A = Normal cands ∧ extractSections scenario_A = Normal secs
      ∧ ∀ s, s ∈ cands ->
          s ∈ secs
          ∨ ∃ o o', s = VObject o ∧ VObject o' ∈ secs
                    ∧ is_list o ∧ is_list o' ∧ type o = type o'
                    ∧ key_of (VObject o) = key_of (VObject o').
Proof.
  split; [exact parsed_scenario_A|].
  exact (only_lists_are_lost scenario_A parsed_scenario_A).
Defined.

(** X5.  However many elements named [constructor] a parsed document
    holds, the empty object they yield is emitted at most once. *)
Theorem empty_object_at_most_once (doc : list node) :
  parsed doc ->
  ∃ secs,
    extractSections doc = Normal secs
    ∧ ∀ i j, secs !! i = Some (VObject empty_object) ->
             secs !! j = Some (VObject empty_object) -> i = j.
Proof.
  intros Hp. destruct (extraction_structure doc Hp) as (cands & _ & He & _).
  exists (keep_new ∅ cands). split; [exact He|].
  intros i j Hi Hj.
  apply (NoDup_lookup (key_of <$> keep_new ∅ cands) i j
           (key_of (VObject empty_object))); [apply keep_new_NoDup| |].
  - rewrite list_lookup_fmap, Hi. reflexivity.
  - rewrite list_lookup_fmap, Hj. reflexivity.
Qed.

Lemma parsed_two_constructors : parsed two_constructors.
Proof. unfold parsed. simpl. repeat constructor. Qed.

Lemma empty_object_at_most_once_witness :
  parsed two_constructors
  ∧ ∃ secs,
      extractSections two_constructors = Normal secs
      ∧ ∀ i j, secs !! i = Some (VObject empty_object) ->
               secs !! j = Some (VObject empty_object) -> i = j.
Proof.
  split; [exact parsed_two_constructors|].
  exact (empty_object_at_most_once two_constructors parsed_two_constructors).
Defined.

(** Two elements named [constructor] give one empty object. *)
Example two_constructors_sections :
  extractSections two_constructors
  = Normal [VObject empty_object; VObject (paragraph "text")].
Proof. vm_compute. reflexivity. Qed.

(** *** The sanitizer *)

Lemma flat_map_flat_map {A B C} (f : B -> list C) (g : A -> list B) l :
  flat_map f (flat_map g l) = flat_map (fun x => flat_map f (g x)) l.
Proof.
  induction l as [|x l IH]; [reflexivity|].
  simpl. rewrite flat_map_app, IH. reflexivity.
Qed.

Lemma flat_map_Forall_ext {A B} (f g : A -> list B) l :
  Forall (fun x => f x = g x) l -> flat_map f l = flat_map g l.
Proof. induction 1 as [|x l Hx _ IH]; [reflexivity|]. simpl. rewrite Hx, IH. reflexivity. Qed.

Lemma remove_node_ext (p q : selector) n :
  (∀ name attribs, p name attribs = q name attribs) ->
  remove_node p n = remove_node q n.
Proof.
  intros H. induction n as [d|d|name attribs children IH] using node_ind_nested;
    [reflexivity..|].
  cbn [remove_node]. rewrite H. destruct (q name attribs); [reflexivity|].
  rewrite (flat_map_Forall_ext _ _ _ IH). reflexivity.
Qed.

Lemma remove_elements_ext (p q : selector) doc :
  (∀ name attribs, p name attribs = q name attribs) ->
  remove_elements p doc = remove_elements q doc.
Proof.
  intros H. unfold remove_elements. apply flat_map_Forall_ext, Forall_forall.
  intros n _. apply remove_node_ext, H.
Qed.

(** Removing by [q] and then by [p] is removing by either. *)
Lemma remove_node_twice (p q : selector) n :
  flat_map (remove_node p) (remove_node q n) = remove_node (either q p) n.
Proof.
  induction n as [d|d|name attribs children IH] using node_ind_nested;
    [reflexivity..|].
  cbn [remove_node]. unfold either at 1.
  destruct (q name attribs); [reflexivity|].
  cbn [flat_map remove_node orb]. rewrite app_nil_r.
  destruct (p name attribs); [reflexivity|].
  rewrite flat_map_flat_map, (flat_map_Forall_ext _ _ _ IH). reflexivity.
Qed.

Lemma remove_elements_twice (p q : selector) doc :
  remove_elements p (remove_elements q doc) = remove_elements (either q p) doc.
Proof.
  unfold remove_elements. rewrite flat_map_flat_map.
  apply flat_map_Forall_ext, Forall_forall. intros n _. apply remove_node_twice.
Qed.

Lemma remove_none doc : remove_elements (any_of []) doc = doc.
Proof.
  unfold remove_elements.
  assert (H : ∀ n, remove_node (any_of []) n = [n]).
  { induction n as [d|d|name attribs children IH] using node_ind_nested;
      [reflexivity..|].
    cbn [remove_node any_of existsb]. f_equal. f_equal.
    induction IH as [|c r Hc _ IHr]; [reflexivity|].
    simpl. rewrite Hc, IHr. reflexivity. }
  induction doc as [|n doc IH]; [reflexivity|].
  simpl. rewrite H, IH. reflexivity.
Qed.

(** The removals, one after the other, remove what matches any of them. *)
Lemma remove_in_turn sels : ∀ doc,
  fold_left (fun tree sel => remove_elements sel tree) sels doc
  = remove_elements (any_of sels) doc.
Proof.
  induction sels as [|s r IH]; intros doc; cbn [fold_left].
  - symmetry. apply remove_none.
  - rewrite IH, remove_elements_twice. apply remove_elements_ext.
    intros name attribs. reflexivity.
Qed.

Lemma removed_elements_do_not_match (p : selector) n : ∀ ps,
  Forall (fun el => p (el_name el) (el_attribs el) = false)
         (flat_map (elements_of ps) (remove_node p n)).
Proof.
  induction n as [d|d|name attribs children IH] using node_ind_nested;
    intros ps; [constructor..|].
  cbn [remove_node]. destruct (p name attribs) eqn:E; [constructor|].
  cbn [flat_map elements_of]. rewrite app_nil_r.
  constructor; [exact E|].
  rewrite flat_map_flat_map. apply Forall_forall. intros el Hel.
  apply list_elem_of_In, in_flat_map in Hel as (c & Hc & Hel).
  rewrite Forall_forall in IH. apply list_elem_of_In in Hc, Hel.
  specialize (IH c Hc (name :: ps)). rewrite Forall_forall in IH. apply IH, Hel.
Qed.

Lemma any_of_false sels name attribs :
  any_of sels name attribs = false ↔ ∀ s, s ∈ sels -> s name attribs = false.
Proof.
  unfold any_of. induction sels as [|s r IH]; simpl.
  - split; [intros _ s H; inversion H|reflexivity].
  - rewrite orb_false_iff, IH. split.
    + intros [H1 H2] s' [->|H]%elem_of_cons; auto.
    + intros H. split; [apply H; left|intros s' Hs; apply H; right; exact Hs].
Qed.

(** X6.  The sanitizer's eight removals amount to one removal of every
    element that matches any of their selectors, and the tree it returns
    holds no element that matches any of them, at any depth. *)
Theorem sanitized_tree_has_no_unwanted_element (doc : list node) :
  removeUnwantedElements doc = remove_elements unwanted doc
  ∧ ∀ el s,
      el ∈ flat_map (elements_of []) (removeUnwantedElements doc) ->
      s ∈ unwanted_selectors ->
      s (el_name el) (el_attribs el) = false.
Proof.
  assert (E : removeUnwantedElements doc = remove_elements unwanted doc)
    by apply remove_in_turn.
  split; [exact E|]. rewrite E. intros el s Hel Hs.
  assert (H : unwanted (el_name el) (el_attribs el) = false).
  { unfold remove_elements in Hel. rewrite flat_map_flat_map in Hel.
    apply list_elem_of_In, in_flat_map in Hel as (n & _ & Hel).
    apply list_elem_of_In in Hel.
    pose proof (removed_elements_do_not_match unwanted n []) as H.
    rewrite Forall_forall in H. apply H, Hel. }
  revert s Hs. apply any_of_false, H.
Qed.

Lemma cluttered_page_cleaned :
  removeUnwantedElements cluttered_page
  = page [elem "main" [elem "h2" [txt "Article"]; elem "p" [txt "Body text"]]].
Proof. vm_compute. reflexivity. Qed.

Lemma sanitized_tree_has_no_unwanted_element_witness :
  let el := {| el_name := lit "p"; el_attribs := []; el_children := [txt "Body text"];
               el_parents := [lit "main"; lit "body"; lit "html"] |} in
  el ∈ flat_map (elements_of []) (removeUnwantedElements cluttered_page)
  ∧ by_name "form" ∈ unwanted_selectors
  ∧ by_name "form" (el_name el) (el_attribs el) = false.
Proof.
  cbv zeta.
  assert (H1 : {| el_name := lit "p"; el_attribs := []; el_children := [txt "Body text"];
                  el_parents := [lit "main"; lit "body"; lit "html"] |}
               ∈ flat_map (elements_of []) (removeUnwantedElements cluttered_page)).
  { rewrite cluttered_page_cleaned. do 5 right. left. }
  assert (H2 : by_name "form" ∈ unwanted_selectors).
  { unfold unwanted_selectors. do 4 right. left. }
  split; [exact H1|]. split; [exact H2|].
  exact (proj2 (sanitized_tree_has_no_unwanted_element cluttered_page) _ _ H1 H2).
Defined.

Lemma any_of_permutation sels sels' name attribs :
  sels ≡ₚ sels' -> any_of sels name attribs = any_of sels' name attribs.
Proof.
  unfold any_of. induction 1 as [|s l l' _ IH|s s' l|l l' l'' _ IH1 _ IH2]; simpl.
  - reflexivity.
  - rewrite IH. reflexivity.
  - rewrite !orb_assoc, (orb_comm (s' name attribs)). reflexivity.
  - rewrite IH1. exact IH2.
Qed.

(** X7.  The sanitizer is idempotent, and the order of its removals does
    not matter: the same selector lists applied in any other order give
    the same tree. *)
Theorem sanitizer_order_does_not_matter (doc : list node) :
  removeUnwantedElements (removeUnwantedElements doc) = removeUnwantedElements doc
  ∧ ∀ sels,
      unwanted_selectors ≡ₚ sels ->
      fold_left (fun tree sel => remove_elements sel tree) sels doc
      = removeUnwantedElements doc.
Proof.
  unfold removeUnwantedElements. split.
  - rewrite !remove_in_turn, remove_elements_twice. apply remove_elements_ext.
    intros name attribs. unfold either. apply orb_diag.
  - intros sels Hp. rewrite !remove_in_turn. apply remove_elements_ext.
    intros name attribs. symmetry. apply any_of_permutation, Hp.
Qed.

Lemma sanitizer_order_does_not_matter_witness :
  unwanted_selectors ≡ₚ rev unwanted_selectors
  ∧ fold_left (fun tree sel => remove_elements sel tree) (rev unwanted_selectors)
              cluttered_page
    = removeUnwantedElements cluttered_page.
Proof.
  assert (H : unwanted_selectors ≡ₚ rev unwanted_selectors)
    by apply Permutation_rev.
  split; [exact H|].
  exact (proj2 (sanitizer_order_does_not_matter cluttered_page) _ H).
Defined.

Lemma sublist_flat_map {A B} (f g : A -> list B) l :
  Forall (fun x => sublist (f x) (g x)) l -> sublist (flat_map f l) (flat_map g l).
Proof.
  induction 1 as [|x l Hx _ IH]; [constructor|]. simpl. apply sublist_app; assumption.
Qed.

Lemma remove_node_text (p : selector) n :
  sublist (flat_map text_nodes (remove_node p n)) (text_nodes n).
Proof.
  induction n as [d|d|name attribs children IH] using node_ind_nested;
    [simpl; reflexivity..|].
  cbn [remove_node]. destruct (p name attribs); [apply sublist_nil_l|].
  cbn [flat_map text_nodes]. rewrite app_nil_r, flat_map_flat_map.
  apply sublist_flat_map, IH.
Qed.

Lemma remove_node_names (p : selector) n :
  sublist (flat_map element_names (remove_node p n)) (element_names n).
Proof.
  induction n as [d|d|name attribs children IH] using node_ind_nested;
    [simpl; reflexivity..|].
  cbn [remove_node]. destruct (p name attribs); [apply sublist_nil_l|].
  cbn [flat_map element_names]. rewrite app_nil_r, flat_map_flat_map.
  apply sublist_skip, sublist_flat_map, IH.
Qed.

Lemma remove_node_unmatched (p : selector) n : ∀ ps,
  Forall (fun el => p (el_name el) (el_attribs el) = false) (elements_of ps n) ->
  remove_node p n = [n].
Proof.
  induction n as [d|d|name attribs children IH] using node_ind_nested;
    intros ps H; [reflexivity..|].
  cbn [elements_of] in H. apply Forall_cons in H as [H1 H2]. cbn [el_name el_attribs] in H1.
  cbn [remove_node]. rewrite H1. f_equal. f_equal.
  revert H2. induction IH as [|c r Hc _ IHr]; intros H2; [reflexivity|].
  cbn [flat_map] in *. apply Forall_app in H2 as [Hc2 Hr2].
  rewrite (Hc _ Hc2), (IHr Hr2). reflexivity.
Qed.

Lemma removeUnwantedElements_names doc :
  sublist (flat_map element_names (removeUnwantedElements doc))
          (flat_map element_names doc).
Proof.
  unfold removeUnwantedElements. rewrite remove_in_turn.
  unfold remove_elements. rewrite flat_map_flat_map.
  apply sublist_flat_map, Forall_forall. intros n _. apply remove_node_names.
Qed.

(** X8.  The sanitizer only deletes: the text nodes and the element names
    of the tree it returns are subsequences, in document order, of those of
    the tree it was given; and a tree without a matching element is
    returned as it is. *)
Theorem sanitizer_only_deletes (doc : list node) :
  sublist (flat_map text_nodes (removeUnwantedElements doc)) (flat_map text_nodes doc)
  ∧ sublist (flat_map element_names (removeUnwantedElements doc))
            (flat_map element_names doc)
  ∧ (Forall (fun el => unwanted (el_name el) (el_attribs el) = false)
            (flat_map (elements_of []) doc) ->
     removeUnwantedElements doc = doc).
Proof.
  split; [|split; [apply removeUnwantedElements_names|]];
    unfold removeUnwantedElements; rewrite remove_in_turn; fold unwanted;
    unfold remove_elements; rewrite ?flat_map_flat_map.
  - apply sublist_flat_map, Forall_forall. intros n _. apply remove_node_text.
  - induction doc as [|n doc IH]; [reflexivity|].
    cbn [flat_map]. intros [H1 H2]%Forall_app.
    rewrite (remove_node_unmatched _ _ _ H1), (IH H2). reflexivity.
Qed.

Lemma sanitizer_only_deletes_witness :
  Forall (fun el => unwanted (el_name el) (el_attribs el) = false)
         (flat_map (elements_of []) scenario_A)
  ∧ removeUnwantedElements scenario_A = scenario_A.
Proof.
  assert (H : Forall (fun el => unwanted (el_name el) (el_attribs el) = false)
                     (flat_map (elements_of []) scenario_A)).
  { simpl. repeat constructor. }
  split; [exact H|].
  exact (proj2 (proj2 (sanitizer_only_deletes scenario_A)) H).
Defined.

Lemma elements_of_names n : ∀ ps, map el_name (elements_of ps n) = element_names n.
Proof.
  induction n as [d|d|name attribs children IH] using node_ind_nested;
    intros ps; [reflexivity..|].
  cbn [elements_of element_names map el_name]. f_equal.
  induction IH as [|c r Hc _ IHr]; [reflexivity|].
  cbn [flat_map]. rewrite map_app, Hc, IHr. reflexivity.
Qed.

Lemma parsed_names doc :
  parsed doc ↔ Forall (fun name => html_tag_name name = true) (flat_map element_names doc).
Proof.
  unfold parsed.
  assert (E : flat_map element_names doc = map el_name (flat_map (elements_of []) doc)).
  { induction doc as [|n doc IH]; [reflexivity|].
    cbn [flat_map]. rewrite map_app, elements_of_names, IH. reflexivity. }
  rewrite E. rewrite Forall_fmap. reflexivity.
Qed.

(** A tree from the parser is still one after the sanitizer. *)
Lemma parsed_removeUnwantedElements doc :
  parsed doc -> parsed (removeUnwantedElements doc).
Proof.
  rewrite !parsed_names. intros H. apply Forall_forall. intros name Hn.
  rewrite Forall_forall in H. apply H.
  eapply elem_of_sublist; [exact Hn|apply removeUnwantedElements_names].
Qed.

(** *** From the tree to the rendered text *)

Lemma Section_ok_well_formed o : Section_ok o -> well_formed o.
Proof.
  intros [t c Ht _|c _ _|t l Ht _ _|c _].
  - left. exists t, c. split; [reflexivity|]. apply elem_of_app. left. exact Ht.
  - left. eexists _, c. split; [reflexivity|]. vm_compute. set_solver.
  - right. exists t, l. split; [reflexivity|]. destruct Ht as [-> | ->]; set_solver.
  - left. eexists _, c. split; [reflexivity|]. vm_compute. set_solver.
Qed.

Lemma text_renderers_total o :
  renderable o ->
  (∃ v, renderSectionAsMarkdown o = Normal v)
  ∧ (∃ v, renderSectionAsPlainText o = Normal v).
Proof.
  intros [[(t & c & -> & Ht)|(t & l & -> & Ht)]| ->].
  - vm_compute in Ht.
    repeat (apply elem_of_cons in Ht as [->|Ht]; [split; eexists; reflexivity|]).
    inversion Ht.
  - vm_compute in Ht.
    repeat (apply elem_of_cons in Ht as [->|Ht]; [split; eexists; reflexivity|]).
    inversion Ht.
  - split; eexists; reflexivity.
Qed.

Lemma html_renderer_total o : renderable o -> ∃ v, renderSection o = Normal v.
Proof.
  intros [H| ->]; [apply renderSection_total, H|eexists; reflexivity].
Qed.

Lemma generators_total now content options :
  Forall renderable (sections content) ->
  (∃ html, generateHTML now content options = Normal html)
  ∧ (∃ md, generateMarkdown now content options = Normal md)
  ∧ (∃ text, generatePlainText now content options = Normal text).
Proof.
  intros H. rewrite Forall_forall in H. split; [|split].
  - unfold generateHTML, renderHeader, renderFooter, renderSections.
    destruct (mapM_total renderSection (sections content)) as [r ->];
      [intros o Ho; apply html_renderer_total, H, Ho|].
    eexists. reflexivity.
  - unfold generateMarkdown.
    destruct (mapM_total renderSectionAsMarkdown (sections content)) as [r ->];
      [intros o Ho; apply text_renderers_total, H, Ho|].
    eexists. reflexivity.
  - unfold generatePlainText.
    destruct (mapM_total renderSectionAsPlainText (sections content)) as [r ->];
      [intros o Ho; apply text_renderers_total, H, Ho|].
    eexists. reflexivity.
Qed.

Lemma objects_of_shapes l :
  (∀ s, s ∈ l -> ∃ o, s = VObject o ∧ (Section_ok o ∨ o = empty_object)) ->
  ∃ os, objects_of l = Some os ∧ Forall renderable os.
Proof.
  induction l as [|s l IH]; intros H; [exists []; split; [reflexivity|constructor]|].
  destruct (H s) as (o & -> & Ho); [left|].
  destruct IH as (os & E & Hos); [intros s' Hs'; apply H; right; exact Hs'|].
  exists (o :: os). cbn [objects_of]. rewrite E. split; [reflexivity|].
  constructor; [|exact Hos].
  destruct Ho as [Ho| ->]; [left; apply Section_ok_well_formed, Ho|right; reflexivity].
Qed.

(** X9.  For a tree from the parser the pipeline never fails after the
    fetch: scraping returns a record, each of its sections is an object,
    and the HTML, the Markdown and the plain-text generator all return a
    text for it, whatever the options and the clock. *)
Theorem scraped_content_always_renders
    (timestamp : str) (tree : list node) (url : str) (now : Date) (options : options_t) :
  parsed tree ->
  ∃ scraped content html md text,
    scrapeContent timestamp tree url = Normal scraped
    ∧ content_of scraped = Some content
    ∧ generateHTML now content options = Normal html
    ∧ generateMarkdown now content options = Normal md
    ∧ generatePlainText now content options = Normal text.
Proof.
  intros Hp. apply parsed_removeUnwantedElements in Hp.
  destruct (extracted_sections_shape _ Hp) as (secs & He & Hshape).
  destruct (objects_of_shapes secs Hshape) as (os & Eo & Hos).
  unfold scrapeContent. rewrite He. cbn [bind].
  set (scraped := {| scraped_title := _ |}).
  set (content := {| title := scraped_title scraped;
                     metadata := scraped_metadata scraped; sections := os |}).
  destruct (generators_total now content options Hos) as ([html Hh] & [md Hm] & [text Ht]).
  exists scraped, content, html, md, text.
  split; [reflexivity|]. split; [unfold content_of; cbn [scraped_sections scraped]|].
  - rewrite Eo. reflexivity.
  - repeat split; assumption.
Qed.

Lemma parsed_cluttered_page : parsed cluttered_page.
Proof. unfold parsed. simpl. repeat constructor. Qed.

Lemma scraped_content_always_renders_witness :
  parsed cluttered_page
  ∧ ∃ scraped content html md text,
      scrapeContent (lit "2025-01-15T12:00:00.000Z") cluttered_page
                    (lit "https://example.com") = Normal scraped
      ∧ content_of scraped = Some content
      ∧ generateHTML day_15 content (Options None) = Normal html
      ∧ generateMarkdown day_15 content (Options None) = Normal md
      ∧ generatePlainText day_15 content (Options None) = Normal text.
Proof.
  split; [exact parsed_cluttered_page|].
  exact (scraped_content_always_renders _ cluttered_page _ day_15 (Options None)
           parsed_cluttered_page).
Defined.

(** What is scraped from the cluttered page: the header, the navigation,
    the button, the script, the form and the sidebar leave no trace, and
    the title falls back to nothing because the only [h1] was in the
    header. *)
Example cluttered_page_scraped :
  scrapeContent (lit "2025-01-15T12:00:00.000Z") cluttered_page (lit "https://example.com")
  = Normal {| scraped_title := [];
              scraped_metadata := {| description := [];
                                     url := lit "https://example.com";
                                     scrapedAt := lit "2025-01-15T12:00:00.000Z" |};
              scraped_sections := [VObject (heading "h2" "Article");
                                   VObject (paragraph "Body text")] |}.
Proof. vm_compute. reflexivity. Qed.

(** *** The extension of a path and the format detected from it *)

Lemma assoc_absent {A} key (l : list (str * A)) :
  Forall (fun e => fst e ≠ key) l -> assoc key l = None.
Proof.
  induction 1 as [|[k a] l Hk _ IH]; [reflexivity|].
  cbn [assoc]. destruct (decide (k = key)) as [E|_]; [destruct (Hk E)|exact IH].
Qed.

Lemma extension_not_inherited ext :
  extension_like ext -> assoc ext Object_prototype = None.
Proof.
  intros [-> | [r ->]]; [reflexivity|].
  apply assoc_absent. unfold Object_prototype.
  repeat (constructor; [intros H; vm_compute in H; discriminate H|]).
  constructor.
Qed.

Lemma toLowerCase_extension ext : extension_like ext -> extension_like (toLowerCase ext).
Proof.
  intros [-> | [r ->]]; [left; reflexivity|right].
  exists (toLowerCase r). reflexivity.
Qed.

Lemma formatMap_get_extension ext :
  extension_like ext ->
  formatMap_get ext
  = FormatName (if bool_decide (ext = lit ".txt") then lit "text"
                else if bool_decide (ext = lit ".pdf") then lit "pdf"
                else lit "markdown").
Proof.
  intros H. unfold formatMap_get, formatMap. cbn [assoc].
  destruct (decide (lit ".md" = ext)) as [<-|_]; [reflexivity|].
  destruct (decide (lit ".markdown" = ext)) as [<-|_]; [reflexivity|].
  destruct (decide (lit ".txt" = ext)) as [<-|N1]; [reflexivity|].
  destruct (decide (lit ".pdf" = ext)) as [<-|N2]; [reflexivity|].
  rewrite (extension_not_inherited ext H).
  rewrite !bool_decide_eq_false_2 by congruence. reflexivity.
Qed.

Lemma ext_step_dot path st j code :
  path !! j = Some code -> dot_recorded path st -> dot_recorded path (ext_step st j code).
Proof.
  intros Hj Hst. unfold ext_step.
  destruct (stopped st); [exact Hst|].
  destruct (code =? 47) eqn:E47.
  { destruct (negb (matchedSlash st)); [|exact Hst]. intros sd H. apply Hst, H. }
  destruct (code =? 46) eqn:E46.
  - apply N.eqb_eq in E46. subst code.
    destruct (end_ st); cbn [startDot end_ preDotState];
      destruct (startDot st) eqn:Es;
      repeat case_bool_decide; intros sd Hsd; cbn [startDot] in Hsd;
        try (apply Hst; congruence);
        try (injection Hsd as <-; exact Hj).
  - destruct (end_ st); cbn [startDot end_ preDotState];
      destruct (startDot st) eqn:Es;
      intros sd Hsd; cbn [startDot] in Hsd; apply Hst; congruence.
Qed.

Lemma ext_loop_dot path i :
  ∀ st, (i <= length path)%nat -> dot_recorded path st ->
        dot_recorded path (ext_loop st (rev (take i path)) i).
Proof.
  induction i as [|j IH]; intros st Hi Hst.
  - rewrite take_0. exact Hst.
  - destruct (lookup_lt_is_Some_2 path j) as [code Hc]; [lia|].
    rewrite (take_S_r _ _ _ Hc), rev_app_distr. cbn [rev app ext_loop].
    apply IH; [lia|]. apply ext_step_dot; assumption.
Qed.

Lemma extname_posix_extension path : extension_like (extname_posix path).
Proof.
  unfold extname_posix.
  set (st := ext_loop _ _ _).
  assert (Hst : dot_recorded path st).
  { subst st. rewrite <- (take_ge path (length path)) at 2 by lia.
    apply ext_loop_dot; [lia|]. intros sd H. discriminate H. }
  destruct (startDot st) as [sd|] eqn:Es; [|left; reflexivity].
  destruct (end_ st) as [e|]; [|left; reflexivity].
  destruct (_ || _); [left; reflexivity|].
  destruct (e - sd)%nat as [|k]; [left; reflexivity|].
  right. specialize (Hst sd Es).
  rewrite (drop_S _ _ _ Hst). eexists. reflexivity.
Qed.

Lemma detected_format_known extname outputPath :
  extension_like (extname outputPath) ->
  ∃ f, detectFormat extname outputPath = FormatName f
       ∧ f ∈ supported_formats.
Proof.
  intros H. unfold detectFormat.
  rewrite (formatMap_get_extension _ (toLowerCase_extension _ H)).
  eexists. split; [reflexivity|].
  unfold supported_formats. repeat case_bool_decide; set_solver.
Qed.

(** X10.  When [extname] gives what [path.extname] gives, nothing or a
    text that starts with a dot, the format detected from a path is one
    of the three names the export knows, never a member the table
    inherits: it is text for the extension [.txt], pdf for [.pdf], in any
    letter case, and markdown for every other path. *)
Theorem detected_format_is_known (extname : str -> str) (outputPath : str) :
  extension_like (extname outputPath) ->
  detectFormat extname outputPath
  = FormatName (if bool_decide (toLowerCase (extname outputPath) = lit ".txt")
                then lit "text"
                else if bool_decide (toLowerCase (extname outputPath) = lit ".pdf")
                     then lit "pdf"
                     else lit "markdown")
  ∧ ∃ f, detectFormat extname outputPath = FormatName f
         ∧ f ∈ [lit "markdown"; lit "text"; lit "pdf"].
Proof.
  intros H.
  assert (E := formatMap_get_extension _ (toLowerCase_extension _ H)).
  split; [exact E|].
  unfold detectFormat. rewrite E. eexists. split; [reflexivity|].
  repeat case_bool_decide; set_solver.
Qed.

Lemma detected_format_is_known_witness :
  extension_like (extname_posix (lit "out/Report.PDF"))
  ∧ detectFormat extname_posix (lit "out/Report.PDF") = FormatName (lit "pdf").
Proof.
  assert (H : extension_like (extname_posix (lit "out/Report.PDF")))
    by (right; eexists; vm_compute; reflexivity).
  split; [exact H|].
  exact (proj1 (detected_format_is_known extname_posix (lit "out/Report.PDF") H)).
Defined.

Example detected_formats :
  detectFormat extname_posix (lit "out/Report.PDF") = FormatName (lit "pdf")
  ∧ detectFormat extname_posix (lit "notes.TXT") = FormatName (lit "text")
  ∧ detectFormat extname_posix (lit "page.html") = FormatName (lit "markdown")
  ∧ detectFormat extname_posix (lit ".pdf") = FormatName (lit "markdown")
  ∧ detectFormat extname_posix (lit "archive.pdf/") = FormatName (lit "pdf")
  ∧ detectFormat extname_posix (lit "constructor") = FormatName (lit "markdown").
Proof. vm_compute. repeat split. Qed.

(** *** Exporting *)

Lemma supported_formats_spec f :
  f ∈ supported_formats
  <-> (bool_decide (f = lit "markdown") || bool_decide (f = lit "md")
       || (bool_decide (f = lit "text") || bool_decide (f = lit "txt"))
       || bool_decide (f = lit "pdf")) = true.
Proof.
  unfold supported_formats. rewrite !elem_of_cons, elem_of_nil.
  rewrite !orb_true_iff, !bool_decide_eq_true. tauto.
Qed.

(** The calls completed before a rejection all resolved, and they are the
    calls in front of the rejected one; without a rejection every call was
    completed. *)
Lemma perform_spec io calls : ∀ completed rejection,
  perform io calls = (completed, rejection) ->
  Forall (fun call => io call = None) completed
  ∧ match rejection with
    | None => completed = calls
    | Some (call, reason) =>
        io call = Some reason ∧ ∃ rest, calls = completed ++ call :: rest
    end.
Proof.
  induction calls as [|call rest IH]; intros completed rejection E; cbn [perform] in E.
  - injection E as <- <-. split; [constructor|reflexivity].
  - destruct (io call) as [reason|] eqn:Ec.
    + injection E as <- <-. split; [constructor|]. split; [exact Ec|].
      exists rest. reflexivity.
    + destruct (perform io rest) as [completed' rejection'].
      injection E as <- <-. destruct (IH _ _ eq_refl) as [H1 H2].
      split; [constructor; assumption|].
      destruct rejection' as [[call' reason]|].
      * destruct H2 as (H2 & rest' & ->). split; [exact H2|].
        exists rest'. reflexivity.
      * rewrite H2. reflexivity.
Qed.

Lemma and_log_Done io calls message effects :
  and_log io calls message = Done effects ->
  effects = calls ++ [console_log message]
  ∧ Forall (fun call => io call = None) calls.
Proof.
  unfold and_log. destruct (perform io calls) as [completed [[call reason]|]] eqn:E;
    [discriminate|].
  intros H. injection H as <-. destruct (perform_spec _ _ _ _ E) as [H1 H2].
  subst completed. split; [reflexivity|exact H1].
Qed.

Lemma and_log_Rejected io calls message completed call reason :
  and_log io calls message = Rejected completed call reason ->
  io call = Some reason
  ∧ Forall (fun call => io call = None) completed
  ∧ ∃ rest, calls = completed ++ call :: rest.
Proof.
  unfold and_log. destruct (perform io calls) as [completed' [[call' reason']|]] eqn:E;
    [|discriminate].
  intros H. injection H as -> -> ->. destruct (perform_spec _ _ _ _ E) as [H1 [H2 H3]].
  auto.
Qed.

Lemma and_log_calm io calls message :
  Forall (fun call => io call = None) calls ->
  and_log io calls message = Done (calls ++ [console_log message]).
Proof.
  intros H. unfold and_log.
  assert (E : perform io calls = (calls, None)).
  { induction H as [|call rest Hc _ IH]; [reflexivity|].
    cbn [perform]. rewrite Hc, IH. reflexivity. }
  rewrite E. reflexivity.
Qed.

Lemma and_log_ends io calls message :
  (∃ effects, and_log io calls message = Done effects)
  ∨ ∃ completed call reason, and_log io calls message = Rejected completed call reason.
Proof.
  unfold and_log. destruct (perform io calls) as [completed [[call reason]|]]; eauto.
Qed.

Lemma and_log_supported io calls message fv :
  and_log io calls message ≠ UnsupportedFormat fv.
Proof.
  destruct (and_log_ends io calls message) as [[x ->]|(x & y & z & ->)]; discriminate.
Qed.

Lemma and_log_not_raised io calls message e : and_log io calls message ≠ Raised e.
Proof.
  destruct (and_log_ends io calls message) as [[x ->]|(x & y & z & ->)]; discriminate.
Qed.

Lemma exportContent_named extname io now content outputPath options f :
  chosen_format extname outputPath options = FormatName f ->
  f ∈ supported_formats ->
  ∀ fv, exportContent extname io now content outputPath options ≠ UnsupportedFormat fv.
Proof.
  intros E Hf fv. unfold exportContent. rewrite E.
  apply supported_formats_spec in Hf.
  destruct (bool_decide (f = lit "markdown") || bool_decide (f = lit "md")).
  { destruct (generateMarkdown _ _ _); [apply and_log_supported|discriminate]. }
  destruct (bool_decide (f = lit "text") || bool_decide (f = lit "txt")).
  { destruct (generatePlainText _ _ _); [apply and_log_supported|discriminate]. }
  destruct (bool_decide (f = lit "pdf")); [|discriminate Hf].
  destruct (generateHTML _ _ _); [apply and_log_supported|discriminate].
Qed.

Lemma exportContent_unnamed extname io now content outputPath options f :
  chosen_format extname outputPath options = FormatName f ->
  f ∉ supported_formats ->
  exportContent extname io now content outputPath options
  = UnsupportedFormat (FormatName f).
Proof.
  intros E Hf. unfold exportContent. rewrite E.
  rewrite supported_formats_spec in Hf. apply not_true_is_false in Hf.
  rewrite !orb_false_iff in Hf. destruct Hf as [[[-> ->] [-> ->]] ->]. reflexivity.
Qed.

Lemma chosen_format_cases extname outputPath options :
  (∃ f, opt_format options = Some f ∧ f ≠ []
        ∧ chosen_format extname outputPath options = FormatName f)
  ∨ ((opt_format options = None ∨ opt_format options = Some [])
     ∧ chosen_format extname outputPath options = detectFormat extname outputPath).
Proof.
  unfold chosen_format. destruct (opt_format options) as [f|]; [|right; auto].
  destruct f as [|c f]; [right; auto|left].
  exists (c :: f). split; [reflexivity|]. split; [discriminate|reflexivity].
Qed.

(** X11.  The export ends in the error [Unsupported format] exactly when
    a non-empty format is requested that is none of markdown, md, text,
    txt and pdf, and the error names that request; with no format, or an
    empty one, the path decides and the error cannot occur.  This holds
    whatever the awaited calls do. *)
Theorem unsupported_format_is_a_requested_one
    (extname : str -> str) (io : world) (now : Date) (content : content_t)
    (outputPath : str) (options : export_options_t) (fv : format_value) :
  extension_like (extname outputPath) ->
  exportContent extname io now content outputPath options = UnsupportedFormat fv
  <-> ∃ f, opt_format options = Some f ∧ f ≠ [] ∧ (f ∉ supported_formats)
           ∧ fv = FormatName f.
Proof.
  intros Hext.
  destruct (chosen_format_cases extname outputPath options)
    as [(f & Ef & Hne & Ec)|[Ho Ec]].
  - split.
    + intros H. exists f.
      destruct (decide (f ∈ supported_formats)) as [Hin|Hout].
      * destruct (exportContent_named _ io now content _ _ f Ec Hin fv H).
      * rewrite (exportContent_unnamed _ io now content _ _ f Ec Hout) in H.
        injection H as <-. auto.
    + intros (f' & Ef' & _ & Hout & ->).
      assert (f' = f) as -> by congruence.
      apply exportContent_unnamed; assumption.
  - destruct (detected_format_known extname outputPath Hext) as (f & Ed & Hf).
    rewrite Ed in Ec. split.
    + intros H. destruct (exportContent_named _ io now content _ _ f Ec Hf fv H).
    + intros (f' & Ef' & Hne & _). destruct Ho as [Ho|Ho]; congruence.
Qed.

Lemma unsupported_format_is_a_requested_one_witness :
  extension_like (extname_posix (lit "out.pdf"))
  ∧ exportContent extname_posix calm day_15 (sample_content []) (lit "out.pdf")
      PDF_requested
    = UnsupportedFormat (FormatName (lit "PDF")).
Proof.
  assert (H : extension_like (extname_posix (lit "out.pdf")))
    by (right; eexists; vm_compute; reflexivity).
  split; [exact H|].
  apply (unsupported_format_is_a_requested_one extname_posix calm day_15
           (sample_content []) (lit "out.pdf") PDF_requested (FormatName (lit "PDF")) H).
  exists (lit "PDF"). split; [reflexivity|]. split; [discriminate|].
  split; [|reflexivity].
  unfold supported_formats. intros Hin.
  repeat (apply elem_of_cons in Hin as [Hin|Hin]; [vm_compute in Hin; discriminate Hin|]).
  inversion Hin.
Defined.

(** X12.  The paper size of an exported PDF cannot be chosen.  The
    option [format] names the output format and is handed on to the
    printer unchanged, so that every document the export prints gets the
    paper format [pdf] when the format was requested, and [A4] when it
    was detected from the path; it is printed to the output path, from
    the HTML rendering with the footer text of the options. *)
Theorem exported_pdf_paper_format
    (extname : str -> str) (io : world) (now : Date) (content : content_t)
    (outputPath : str) (options : export_options_t) (effects : list effect)
    (html path format : str) (margin : margin_t) :
  exportContent extname io now content outputPath options = Done effects ->
  page_pdf html path format margin ∈ effects ->
  path = outputPath
  ∧ generateHTML now content {| footerText := opt_footerText options |} = Normal html
  ∧ ((opt_format options = Some (lit "pdf") ∧ format = lit "pdf")
     ∨ ((opt_format options = None ∨ opt_format options = Some [])
        ∧ detectFormat extname outputPath = FormatName (lit "pdf")
        ∧ format = lit "A4")).
Proof.
  intros E Hin. unfold exportContent in E.
  destruct (chosen_format extname outputPath options) as [f|m] eqn:Ec; [|discriminate E].
  destruct (bool_decide (f = lit "markdown") || bool_decide (f = lit "md")).
  { destruct (generateMarkdown _ _ _); [|discriminate E].
    apply and_log_Done in E as [-> _]. unfold writeTextFile in Hin. cbn [app] in Hin.
    repeat (apply elem_of_cons in Hin as [Hin|Hin]; [discriminate Hin|]).
    inversion Hin. }
  destruct (bool_decide (f = lit "text") || bool_decide (f = lit "txt")).
  { destruct (generatePlainText _ _ _); [|discriminate E].
    apply and_log_Done in E as [-> _]. unfold writeTextFile in Hin. cbn [app] in Hin.
    repeat (apply elem_of_cons in Hin as [Hin|Hin]; [discriminate Hin|]).
    inversion Hin. }
  case_bool_decide as Ef; [subst f|discriminate E].
  destruct (generateHTML _ _ _) as [h|] eqn:Eh; [|discriminate E].
  apply and_log_Done in E as [-> _]. unfold createPDFFromHTML in Hin. cbn [app] in Hin.
  do 3 (apply elem_of_cons in Hin as [Hin|Hin]; [discriminate Hin|]).
  apply elem_of_cons in Hin as [Hin|Hin];
    [|repeat (apply elem_of_cons in Hin as [Hin|Hin]; [discriminate Hin|]); inversion Hin].
  injection Hin as -> -> -> ->.
  split; [reflexivity|]. split; [reflexivity|].
  destruct (chosen_format_cases extname outputPath options)
    as [(f & Eo & Hne & Ec')|[Ho Ec']]; rewrite Ec in Ec'.
  - left. injection Ec' as <-. rewrite Eo. split; reflexivity.
  - right. split; [exact Ho|]. split; [symmetry; exact Ec'|].
    destruct Ho as [-> | ->]; reflexivity.
Qed.

Lemma exported_pdf_paper_format_witness :
  ∃ html effects,
    exportContent extname_posix calm day_15 (sample_content []) (lit "out.pdf")
      pdf_requested
    = Done effects
    ∧ page_pdf html (lit "out.pdf") (lit "pdf") default_margin ∈ effects
    ∧ (opt_format pdf_requested = Some (lit "pdf") ∧ lit "pdf" = lit "pdf"
       ∨ (opt_format pdf_requested = None ∨ opt_format pdf_requested = Some [])
         ∧ detectFormat extname_posix (lit "out.pdf") = FormatName (lit "pdf")
         ∧ lit "pdf" = lit "A4").
Proof.
  destruct (generateHTML day_15 (sample_content []) {| footerText := None |})
    as [h|e] eqn:Eh; [|vm_compute in Eh; discriminate Eh].
  exists h.
  exists (createPDFFromHTML h (lit "out.pdf") pdf_requested
          ++ [console_log (check_mark ++ lit " PDF created: " ++ lit "out.pdf")]).
  assert (E : exportContent extname_posix calm day_15 (sample_content []) (lit "out.pdf")
                pdf_requested
              = Done (createPDFFromHTML h (lit "out.pdf") pdf_requested
                      ++ [console_log (check_mark ++ lit " PDF created: "
                                       ++ lit "out.pdf")])).
  { unfold exportContent.
    change (chosen_format extname_posix (lit "out.pdf") pdf_requested)
      with (FormatName (lit "pdf")).
    change (bool_decide (lit "pdf" = lit "markdown") || bool_decide (lit "pdf" = lit "md"))
      with false.
    change (bool_decide (lit "pdf" = lit "text") || bool_decide (lit "pdf" = lit "txt"))
      with false.
    change (bool_decide (lit "pdf" = lit "pdf")) with true.
    cbv iota. change (opt_footerText pdf_requested) with (@None str).
    rewrite Eh. apply and_log_calm. apply Forall_forall. intros call _. reflexivity. }
  assert (Hin : page_pdf h (lit "out.pdf") (lit "pdf") default_margin
                ∈ createPDFFromHTML h (lit "out.pdf") pdf_requested
                  ++ [console_log (check_mark ++ lit " PDF created: " ++ lit "out.pdf")]).
  { unfold createPDFFromHTML. cbn [app].
    do 3 (apply elem_of_cons; right). apply elem_of_cons. left. reflexivity. }
  split; [exact E|]. split; [exact Hin|].
  exact (proj2 (proj2 (exported_pdf_paper_format extname_posix calm day_15
                         (sample_content []) (lit "out.pdf") pdf_requested _ h _ _ _
                         E Hin))).
Defined.

(** X13.  Exporting as pdf is [generatePDF]: whenever the requested or
    detected format is pdf, the export has the effects and the outcome of
    [generatePDF] with the same content, path and options, in the same
    world.  Called on its own, [generatePDF] hands any requested paper
    format to the printer. *)
Theorem export_as_pdf_is_generatePDF
    (extname : str -> str) (io : world) (now : Date) (content : content_t)
    (outputPath : str) (options : export_options_t) :
  chosen_format extname outputPath options = FormatName (lit "pdf") ->
  exportContent extname io now content outputPath options
  = generatePDF io now content outputPath options.
Proof.
  intros E. unfold exportContent, generatePDF. rewrite E.
  change (bool_decide (lit "pdf" = lit "markdown") || bool_decide (lit "pdf" = lit "md"))
    with false.
  change (bool_decide (lit "pdf" = lit "text") || bool_decide (lit "pdf" = lit "txt"))
    with false.
  change (bool_decide (lit "pdf" = lit "pdf")) with true.
  reflexivity.
Qed.

Lemma export_as_pdf_is_generatePDF_witness :
  chosen_format extname_posix (lit "out/Report.PDF")
    {| opt_format := None; opt_margin := None; opt_footerText := Some (lit "Fin") |}
  = FormatName (lit "pdf")
  ∧ exportContent extname_posix printer_fails day_15 (sample_content [])
      (lit "out/Report.PDF")
      {| opt_format := None; opt_margin := None; opt_footerText := Some (lit "Fin") |}
    = generatePDF printer_fails day_15 (sample_content []) (lit "out/Report.PDF")
        {| opt_format := None; opt_margin := None; opt_footerText := Some (lit "Fin") |}.
Proof.
  split; [vm_compute; reflexivity|].
  apply (export_as_pdf_is_generatePDF extname_posix). vm_compute. reflexivity.
Defined.

(** *** The scope of the extraction *)

Lemma filter_none {A} (P : A -> Prop) `{∀ x, Decision (P x)} (l : list A) :
  Forall (fun x => ¬ P x) l -> filter P l = [].
Proof.
  induction 1 as [|x l Hx _ IH]; [reflexivity|].
  rewrite filter_cons_False by exact Hx. exact IH.
Qed.

Lemma body_matches ba bc parents :
  matches_main_content (Located (lit "body") ba bc parents) = true.
Proof.
  unfold matches_main_content. cbn [el_name].
  rewrite (bool_decide_eq_true_2 (lit "body" = lit "body") eq_refl).
  apply orb_true_r.
Qed.

(** X14.  In the tree of a page the scope of the extraction is always the
    [body] element: the main-content selector is answered in document
    order, and [body] matches it before anything inside the body can, so
    that a [main] or [article] element does not narrow the scope and every
    element of the body is visited.  (Only a matching [html] element, or a
    matching element before the body, takes the scope away.) *)
Theorem body_is_the_scope
    (ha : list (str * str)) (before : list node) (ba : list (str * str))
    (bc after : list node) :
  let children := before ++ Element (lit "body") ba bc :: after in
  let doc := [Element (lit "html") ha children] in
  matches_main_content (Located (lit "html") ha children []) = false ->
  Forall (fun el => matches_main_content el = false)
         (flat_map (elements_of [lit "html"]) before) ->
  mainContent doc = Some (Located (lit "body") ba bc [lit "html"])
  ∧ extractSections doc
    = (let! st := foldM visit (flat_map (elements_of [lit "body"; lit "html"]) bc) initial in
       Normal (pushed st)).
Proof.
  intros children doc Hhtml Hbefore.
  assert (E : select doc matches_main_content
              = Located (lit "body") ba bc [lit "html"]
                  :: filter (fun el => matches_main_content el = true)
                       (flat_map (elements_of [lit "body"; lit "html"]) bc
                        ++ flat_map (elements_of [lit "html"]) after)).
  { unfold select, doc. cbn [flat_map elements_of]. rewrite app_nil_r.
    rewrite filter_cons_False by (rewrite Hhtml; discriminate).
    unfold children. rewrite flat_map_app, filter_app.
    rewrite (filter_none _ (flat_map (elements_of [lit "html"]) before)).
    2:{ eapply Forall_impl; [exact Hbefore|]. intros el ->. discriminate. }
    cbn [flat_map elements_of app].
    rewrite filter_cons_True by apply body_matches. reflexivity. }
  split.
  - unfold mainContent. rewrite E. reflexivity.
  - unfold extractSections. rewrite E. reflexivity.
Qed.

Lemma body_is_the_scope_witness :
  mainContent main_beside_text
  = Some (Located (lit "body") []
            [elem "p" [txt "Outside text"]; elem "main" [elem "p" [txt "Inside text"]]]
            [lit "html"])
  ∧ extractSections main_beside_text
    = (let! st := foldM visit
                    (flat_map (elements_of [lit "body"; lit "html"])
                       [elem "p" [txt "Outside text"];
                        elem "main" [elem "p" [txt "Inside text"]]]) initial in
       Normal (pushed st)).
Proof.
  apply (body_is_the_scope [] [elem "head" []] []
           [elem "p" [txt "Outside text"]; elem "main" [elem "p" [txt "Inside text"]]] []).
  - vm_compute. reflexivity.
  - repeat constructor.
Defined.

(** The paragraph beside the [main] element is extracted with the one
    inside it. *)
Example main_beside_text_sections :
  extractSections main_beside_text
  = Normal [VObject (paragraph "Outside text"); VObject (paragraph "Inside text")].
Proof. vm_compute. reflexivity. Qed.

(** *** The title *)

Lemma trim_nil : trim [] = [].
Proof. reflexivity. Qed.

Lemma title_choice a b :
  ToString (or_else (or_else (VString (trim a)) (VString (trim b))) (VString []))
  = if bool_decide (trim a = []) then trim b else trim a.
Proof.
  unfold or_else. cbn [truthy].
  destruct (bool_decide (trim a = [])) eqn:Ea; cbn [negb].
  - destruct (bool_decide (trim b = [])) eqn:Eb; cbn [negb]; cbn [truthy].
    + rewrite Eb. apply bool_decide_eq_true in Eb. rewrite Eb. reflexivity.
    + rewrite Eb. reflexivity.
  - cbn [truthy]. rewrite Ea. reflexivity.
Qed.

(** X15.  The title is the trimmed text of the first [h1] of the cleaned
    tree when that text is not blank, and otherwise the trimmed texts of
    all [title] elements together; a later [h1] is never consulted, and
    the title has no white space at either end. *)
Theorem title_comes_from_the_first_heading
    (doc : list node) (first : located) (later : list located) :
  select doc (named "h1") = first :: later ->
  extractTitle doc
  = (if bool_decide (trim (el_text first) = [])
     then trim (all_text (select doc (named "title")))
     else trim (el_text first))
  ∧ trim (extractTitle doc) = extractTitle doc.
Proof.
  intros E. unfold extractTitle. rewrite E. cbn [first_text].
  rewrite title_choice. split; [reflexivity|].
  destruct (bool_decide _); apply trim_idempotent.
Qed.

Lemma title_comes_from_the_first_heading_witness :
  extractTitle blank_first_heading = lit "Page title"
  ∧ trim (extractTitle blank_first_heading) = extractTitle blank_first_heading.
Proof.
  exact (title_comes_from_the_first_heading blank_first_heading
           (Located (lit "h1") [] [txt " "] [lit "body"; lit "html"])
           [Located (lit "h1") [] [txt "Real heading"] [lit "body"; lit "html"]]
           eq_refl).
Defined.

(** *** What the text renderers cannot tell apart *)

(** X16.  The text renderers do not escape and do not keep every type
    apart.  In plain text a heading of level 3 to 6 is rendered as the
    paragraph with the same text; in Markdown a paragraph whose text
    starts with a heading, quote or list marker is rendered as the
    heading, quote or one-item list. *)
Theorem text_renderings_collide (c : str) :
  Forall (fun t : string =>
            renderSectionAsPlainText
              {| type := Some (lit t); content := Some c; items := None |}
            = renderSectionAsPlainText
                {| type := Some (lit "paragraph"); content := Some c; items := None |})
         ["h3"; "h4"; "h5"; "h6"]%string
  ∧ renderSectionAsMarkdown
      {| type := Some (lit "paragraph"); content := Some (lit "# " ++ c); items := None |}
    = renderSectionAsMarkdown
        {| type := Some (lit "h1"); content := Some c; items := None |}
  ∧ renderSectionAsMarkdown
      {| type := Some (lit "paragraph"); content := Some (lit "> " ++ c); items := None |}
    = renderSectionAsMarkdown
        {| type := Some (lit "quote"); content := Some c; items := None |}
  ∧ renderSectionAsMarkdown
      {| type := Some (lit "paragraph"); content := Some (lit "- " ++ c); items := None |}
    = renderSectionAsMarkdown
        {| type := Some (lit "bullet-list"); content := None; items := Some [c] |}.
Proof.
  split; [repeat constructor|]. split; [reflexivity|]. split; reflexivity.
Qed.

(** *** Where the scraped sections come from *)

Lemma any_of_true sels s name attribs :
  s ∈ sels -> s name attribs = true -> any_of sels name attribs = true.
Proof.
  intros Hs E. unfold any_of. apply existsb_exists. exists s.
  split; [apply list_elem_of_In, Hs|exact E].
Qed.

Lemma by_name_self t attribs : by_name t (lit t) attribs = true.
Proof. apply bool_decide_eq_true_2. reflexivity. Qed.

Ltac nth_member n :=
  match n with
  | O => apply elem_of_cons; left; reflexivity
  | S ?m => apply elem_of_cons; right; nth_member m
  end.

Ltac listed i j :=
  eapply any_of_true; [nth_member i|];
  eapply any_of_true; [nth_member j|]; apply by_name_self.

Lemma removed_tag_unwanted t attribs :
  t ∈ removed_tags -> unwanted (lit t) attribs = true.
Proof.
  intros Ht. unfold unwanted, unwanted_selectors, removed_tags in *.
  apply elem_of_cons in Ht as [->|Ht]; [listed 0%nat 0%nat|].
  apply elem_of_cons in Ht as [->|Ht]; [listed 0%nat 1%nat|].
  apply elem_of_cons in Ht as [->|Ht]; [listed 0%nat 2%nat|].
  apply elem_of_cons in Ht as [->|Ht]; [listed 0%nat 3%nat|].
  apply elem_of_cons in Ht as [->|Ht]; [listed 0%nat 4%nat|].
  apply elem_of_cons in Ht as [->|Ht]; [listed 1%nat 0%nat|].
  apply elem_of_cons in Ht as [->|Ht]; [listed 1%nat 1%nat|].
  apply elem_of_cons in Ht as [->|Ht]; [listed 1%nat 2%nat|].
  apply elem_of_cons in Ht as [->|Ht]; [listed 2%nat 1%nat|].
  apply elem_of_cons in Ht as [->|Ht]; [listed 3%nat 0%nat|].
  apply elem_of_cons in Ht as [->|Ht];
    [eapply any_of_true; [nth_member 4%nat|apply by_name_self]|].
  apply elem_of_cons in Ht as [->|Ht]; [listed 6%nat 0%nat|].
  apply elem_of_cons in Ht as [->|Ht]; [listed 6%nat 1%nat|].
  inversion Ht.
Qed.

(** The ancestors of an element that is left were left as well. *)
Lemma remaining_parents (p : selector) n : ∀ ps el,
  el ∈ flat_map (elements_of ps) (remove_node p n) ->
  ∀ a, a ∈ el_parents el -> a ∈ ps ∨ ∃ attribs, p a attribs = false.
Proof.
  induction n as [d|d|name attribs children IH] using node_ind_nested;
    intros ps el Hel a Ha; try (cbn in Hel; inversion Hel; fail).
  cbn [remove_node] in Hel. destruct (p name attribs) eqn:E; [inversion Hel|].
  cbn [flat_map elements_of] in Hel. rewrite app_nil_r in Hel.
  apply elem_of_cons in Hel as [->|Hel]; [left; exact Ha|].
  rewrite flat_map_flat_map in Hel.
  apply list_elem_of_In, in_flat_map in Hel as (c & Hc & Hel).
  rewrite Forall_forall in IH. apply list_elem_of_In in Hc, Hel.
  destruct (IH c Hc (name :: ps) el Hel a Ha) as [[->|H]%elem_of_cons|H]; eauto.
Qed.

(** X17.  Every section of a scraped page is classified from an element
    that survived the sanitizer: an element of the cleaned tree that no
    removal selector matches, and that neither is nor lies inside a
    script, style, noscript, iframe, svg, header, footer, nav, menu,
    button, form, select or textarea element. *)
Theorem sections_come_from_wanted_elements
    (timestamp : str) (tree : list node) (url : str) (scraped : scraped_t) :
  parsed tree ->
  scrapeContent timestamp tree url = Normal scraped ->
  ∀ s, s ∈ scraped_sections scraped ->
    ∃ el, el ∈ flat_map (elements_of []) (removeUnwantedElements tree)
          ∧ extractSectionByType el (toLowerCase (el_name el)) = Normal s
          ∧ unwanted (el_name el) (el_attribs el) = false
          ∧ ∀ t, t ∈ removed_tags -> lit t ≠ el_name el ∧ lit t ∉ el_parents el.
Proof.
  intros Hp E s Hs. apply parsed_removeUnwantedElements in Hp.
  destruct (extraction_structure _ Hp) as (cands & _ & He & Hor).
  unfold scrapeContent in E. rewrite He in E. cbn [bind] in E.
  apply Normal_inj in E. subst scraped. cbn [scraped_sections] in Hs.
  apply keep_new_elem_of, Hor in Hs as (mc & el & Hmc & Hel & _ & _ & Hcl).
  pose proof (mainContent_elements _ _ Hmc el Hel) as Hin.
  exists el. split; [exact Hin|]. split; [exact Hcl|].
  unfold removeUnwantedElements in Hin. rewrite remove_in_turn in Hin. fold unwanted in Hin.
  unfold remove_elements in Hin. rewrite flat_map_flat_map in Hin.
  apply list_elem_of_In, in_flat_map in Hin as (n & _ & Hin). apply list_elem_of_In in Hin.
  assert (Hu : unwanted (el_name el) (el_attribs el) = false).
  { pose proof (removed_elements_do_not_match unwanted n []) as H.
    rewrite Forall_forall in H. apply H, Hin. }
  split; [exact Hu|]. intros t Ht. split.
  - intros Heq. rewrite <- Heq, (removed_tag_unwanted t _ Ht) in Hu. discriminate Hu.
  - intros Ha.
    destruct (remaining_parents unwanted n [] el Hin _ Ha) as [H|[attribs H]];
      [inversion H|].
    rewrite (removed_tag_unwanted t _ Ht) in H. discriminate H.
Qed.

Lemma sections_come_from_wanted_elements_witness :
  parsed cluttered_page
  ∧ ∃ el, el ∈ flat_map (elements_of []) (removeUnwantedElements cluttered_page)
          ∧ extractSectionByType el (toLowerCase (el_name el))
            = Normal (VObject (paragraph "Body text"))
          ∧ unwanted (el_name el) (el_attribs el) = false
          ∧ ∀ t, t ∈ removed_tags -> lit t ≠ el_name el ∧ lit t ∉ el_parents el.
Proof.
  split; [exact parsed_cluttered_page|].
  apply (sections_come_from_wanted_elements (lit "2025-01-15T12:00:00.000Z")
           cluttered_page (lit "https://example.com") _ parsed_cluttered_page
           cluttered_page_scraped).
  cbn [scraped_sections]. apply elem_of_cons. right. apply elem_of_cons. left. reflexivity.
Defined.

(** *** Exporting a scraped page *)

Lemma scraped_sections_renderable timestamp tree url scraped content :
  parsed tree ->
  scrapeContent timestamp tree url = Normal scraped ->
  content_of scraped = Some content ->
  Forall renderable (sections content).
Proof.
  intros Hp E Ec. apply parsed_removeUnwantedElements in Hp.
  destruct (extracted_sections_shape _ Hp) as (secs & He & Hshape).
  destruct (objects_of_shapes secs Hshape) as (os & Eo & Hos).
  unfold scrapeContent in E. rewrite He in E. cbn [bind] in E.
  apply Normal_inj in E. subst scraped.
  unfold content_of in Ec. cbn [scraped_sections] in Ec. rewrite Eo in Ec.
  injection Ec as <-. exact Hos.
Qed.

(** What the export of a page with renderable sections comes to: the
    format is rejected, or the awaited calls of one text file or of one
    print are made and logged. *)
Lemma export_of_renderable extname io now content outputPath options :
  Forall renderable (sections content) ->
  (∃ fv, exportContent extname io now content outputPath options = UnsupportedFormat fv)
  ∨ (∃ text message,
        exportContent extname io now content outputPath options
        = and_log io (writeTextFile text outputPath) message)
  ∨ (∃ html message,
        exportContent extname io now content outputPath options
        = and_log io (createPDFFromHTML html outputPath options) message).
Proof.
  intros Hr.
  destruct (generators_total now content {| footerText := opt_footerText options |} Hr)
    as ([html Hh] & [md Hm] & [text Ht]).
  unfold exportContent.
  destruct (chosen_format extname outputPath options) as [f|m]; [|left; eauto].
  destruct (bool_decide (f = lit "markdown") || bool_decide (f = lit "md")).
  { rewrite Hm. right. left. eauto. }
  destruct (bool_decide (f = lit "text") || bool_decide (f = lit "txt")).
  { rewrite Ht. right. left. eauto. }
  destruct (bool_decide (f = lit "pdf")); [|left; eauto].
  rewrite Hh. right. right. eauto.
Qed.

Lemma rejected_print html outputPath options completed call rest :
  createPDFFromHTML html outputPath options = completed ++ call :: rest ->
  (browser_close ∉ completed) ∧ ∀ message, console_log message ∉ completed.
Proof.
  unfold createPDFFromHTML. intros E.
  destruct completed as [|c1 [|c2 [|c3 [|c4 [|c5 completed]]]]]; cbn [app] in E.
  1-5: injection E; intros; subst;
       (split; [intros H|intros m H]);
       repeat (apply elem_of_cons in H as [H|H]; [discriminate H|]); inversion H.
  exfalso. injection E as _ _ _ _ _ E. destruct completed; discriminate E.
Qed.

(** X18.  Exporting a scraped page never fails in a generator, and what
    it does is decided by the requested format and by the awaited calls
    alone.  When it completes, exactly one file was produced at the
    output path (one [writeFile], or one print between the launch and the
    close of the browser), followed by one line on the console.  When an
    awaited call rejects, the calls before it had resolved, no later call
    is made, nothing is written to the console, and the browser is not
    closed.  When no call rejects, the export completes unless the format
    is unsupported.  The same holds for [generatePDF], which always
    prints. *)
Theorem export_of_scraped_page
    (extname : str -> str) (io : world) (timestamp : str) (tree : list node) (url : str)
    (scraped : scraped_t) (content : content_t) (now : Date) (outputPath : str)
    (options : export_options_t) :
  parsed tree ->
  scrapeContent timestamp tree url = Normal scraped ->
  content_of scraped = Some content ->
  (∀ e, exportContent extname io now content outputPath options ≠ Raised e
        ∧ generatePDF io now content outputPath options ≠ Raised e)
  ∧ (∀ effects,
       exportContent extname io now content outputPath options = Done effects ->
       (∃ text message, effects = [writeFile outputPath text; console_log message])
       ∨ (∃ html format margin message,
             effects = [puppeteer_launch; browser_newPage; page_setContent html;
                        page_pdf html outputPath format margin; browser_close;
                        console_log message]))
  ∧ (∀ effects,
       generatePDF io now content outputPath options = Done effects ->
       ∃ html format margin message,
         effects = [puppeteer_launch; browser_newPage; page_setContent html;
                    page_pdf html outputPath format margin; browser_close;
                    console_log message])
  ∧ (∀ completed call reason,
       exportContent extname io now content outputPath options
       = Rejected completed call reason
       ∨ generatePDF io now content outputPath options = Rejected completed call reason ->
       io call = Some reason
       ∧ Forall (fun c => io c = None) completed
       ∧ (browser_close ∉ completed)
       ∧ (∀ message, console_log message ∉ completed)
       ∧ ((∃ text, call = writeFile outputPath text ∧ completed = [])
          ∨ ∃ html rest,
              createPDFFromHTML html outputPath options = completed ++ call :: rest))
  ∧ ((∀ call, io call = None) ->
     ((∃ fv, exportContent extname io now content outputPath options
             = UnsupportedFormat fv)
      ∨ ∃ effects, exportContent extname io now content outputPath options = Done effects)
     ∧ ∃ effects, generatePDF io now content outputPath options = Done effects).
Proof.
  intros Hp E Ec.
  pose proof (scraped_sections_renderable _ _ _ _ _ Hp E Ec) as Hr.
  pose proof (export_of_renderable extname io now content outputPath options Hr) as Hx.
  assert (Hg : ∃ html message,
             generatePDF io now content outputPath options
             = and_log io (createPDFFromHTML html outputPath options) message).
  { destruct (generators_total now content {| footerText := opt_footerText options |} Hr)
      as ([html Hh] & _). unfold generatePDF. rewrite Hh. eauto. }
  destruct Hg as (gh & gm & Hg).
  assert (Hprint : ∀ html message completed call reason,
             and_log io (createPDFFromHTML html outputPath options) message
             = Rejected completed call reason ->
             io call = Some reason
             ∧ Forall (fun c => io c = None) completed
             ∧ (browser_close ∉ completed)
             ∧ (∀ message, console_log message ∉ completed)
             ∧ ((∃ text, call = writeFile outputPath text ∧ completed = [])
                ∨ ∃ html rest,
                    createPDFFromHTML html outputPath options
                    = completed ++ call :: rest)).
  { intros html message completed call reason H.
    apply and_log_Rejected in H as (H1 & H2 & rest & H3).
    destruct (rejected_print _ _ _ _ _ _ H3) as [H4 H5].
    split; [exact H1|]. split; [exact H2|]. split; [exact H4|]. split; [exact H5|].
    right. eauto. }
  assert (Hdone : ∀ html message effects,
             and_log io (createPDFFromHTML html outputPath options) message
             = Done effects ->
             ∃ html format margin message,
               effects = [puppeteer_launch; browser_newPage; page_setContent html;
                          page_pdf html outputPath format margin; browser_close;
                          console_log message]).
  { intros html message effects H. apply and_log_Done in H as [-> _].
    unfold createPDFFromHTML. cbn [app]. eauto. }
  split; [|split; [|split; [|split]]].
  - intros e. split.
    + destruct Hx as [[fv ->]|[(text & message & ->)|(html & message & ->)]];
        [discriminate|apply and_log_not_raised..].
    + rewrite Hg. apply and_log_not_raised.
  - intros effects H.
    destruct Hx as [[fv Hx]|[(text & message & Hx)|(html & message & Hx)]];
      rewrite Hx in H; [discriminate H| |].
    + apply and_log_Done in H as [-> _]. left. unfold writeTextFile. cbn [app]. eauto.
    + right. eapply Hdone, H.
  - intros effects H. rewrite Hg in H. eapply Hdone, H.
  - intros completed call reason [H|H].
    + destruct Hx as [[fv Hx]|[(text & message & Hx)|(html & message & Hx)]];
        rewrite Hx in H; [discriminate H| |].
      * apply and_log_Rejected in H as (H1 & H2 & rest & H3).
        unfold writeTextFile in H3.
        destruct completed as [|c completed].
        -- cbn [app] in H3. injection H3 as <- <-.
           split; [exact H1|]. split; [constructor|].
           split; [intros Hin; inversion Hin|].
           split; [intros m Hin; inversion Hin|]. left. eauto.
        -- exfalso. injection H3 as _ H3. destruct completed; discriminate H3.
      * eapply Hprint, H.
    + rewrite Hg in H. eapply Hprint, H.
  - intros Hcalm.
    assert (Hall : ∀ calls, Forall (fun c => io c = None) calls)
      by (intros calls; apply Forall_forall; intros c _; apply Hcalm).
    split.
    + destruct Hx as [[fv Hx]|[(text & message & Hx)|(html & message & Hx)]];
        [left; eauto| |]; right; rewrite Hx, and_log_calm by apply Hall; eauto.
    + rewrite Hg, and_log_calm by apply Hall. eauto.
Qed.

Lemma content_of_cluttered_page :
  content_of {| scraped_title := [];
                scraped_metadata := {| description := [];
                                       url := lit "https://example.com";
                                       scrapedAt := lit "2025-01-15T12:00:00.000Z" |};
                scraped_sections := [VObject (heading "h2" "Article");
                                     VObject (paragraph "Body text")] |}
  = Some {| title := [];
            metadata := {| description := [];
                           url := lit "https://example.com";
                           scrapedAt := lit "2025-01-15T12:00:00.000Z" |};
            sections := [heading "h2" "Article"; paragraph "Body text"] |}.
Proof. reflexivity. Qed.

Lemma export_of_scraped_page_witness :
  parsed cluttered_page
  ∧ ∀ e,
      exportContent extname_posix printer_fails day_15
        {| title := [];
           metadata := {| description := [];
                          url := lit "https://example.com";
                          scrapedAt := lit "2025-01-15T12:00:00.000Z" |};
           sections := [heading "h2" "Article"; paragraph "Body text"] |}
        (lit "out.pdf") no_options ≠ Raised e
      ∧ generatePDF printer_fails day_15
          {| title := [];
             metadata := {| description := [];
                            url := lit "https://example.com";
                            scrapedAt := lit "2025-01-15T12:00:00.000Z" |};
             sections := [heading "h2" "Article"; paragraph "Body text"] |}
          (lit "out.pdf") no_options ≠ Raised e.
Proof.
  split; [exact parsed_cluttered_page|].
  exact (proj1 (export_of_scraped_page extname_posix printer_fails _ cluttered_page _ _ _
                  day_15 (lit "out.pdf") no_options parsed_cluttered_page
                  cluttered_page_scraped content_of_cluttered_page)).
Defined.

(** When the printer rejects, the export of the cluttered page ends with
    the browser launched and left open, and nothing on the console. *)
Example export_with_a_failing_printer :
  ∃ html,
    exportContent extname_posix printer_fails day_15
      {| title := [];
         metadata := {| description := [];
                        url := lit "https://example.com";
                        scrapedAt := lit "2025-01-15T12:00:00.000Z" |};
         sections := [heading "h2" "Article"; paragraph "Body text"] |}
      (lit "out.pdf") no_options
    = Rejected [puppeteer_launch; browser_newPage; page_setContent html]
               (page_pdf html (lit "out.pdf") (lit "A4") default_margin)
               (lit "printing failed").
Proof. eexists. vm_compute. reflexivity. Qed.

(** A content record that was not scraped can make the export fail in the
    generator: a heading without text has no length to underline. *)
Example export_of_other_content_can_raise :
  exportContent extname_posix calm day_15
    (sample_content [{| type := Some (lit "h1"); content := None; items := None |}])
    (lit "out.txt") no_options
  = Raised TypeError.
Proof. vm_compute. reflexivity. Qed.
